(** * Cloud Run deployment pipeline: retry executor, API activation gate,
      build poller, packager and service deployer.

    A shallow embedding of

      - lib/cloud-api/helpers.js   ([callWithRetry], [checkAndEnableApi],
                                    [ensureApisEnabled])
      - lib/cloud-api/build.js     ([triggerCloudBuild])
      - lib/util/helpers.js        ([logAndProgress])
      - lib/util/archive.js        ([zipFiles])
      - lib/deployment/deployer.js ([deployToCloudRun], the Dockerfile
                                    detection of [deploy], [deploy],
                                    [deployImage])
      - lib/cloud-api/registry.js  ([ensureArtifactRegistryRepoExists])
      - lib/cloud-api/storage.js   ([ensureStorageBucketExists],
                                    [uploadToStorageBucket])
      - tools/register-tools.js    (the handlers of [get_service_log] and
                                    [deploy_file_contents])

    Asynchronous functions are computations over an abstract backend
    state: running one yields an outcome, the new backend state and the
    list of observable events (console output, progress notifications,
    timer waits and remote calls) in the order they happen.

    Conventions of the model:
      - a thrown value is an error object with an optional [message] and
        an optional numeric [code];
      - strings are ASCII text; numbers printed in messages are integers;
      - [progressCallback] is a flag saying whether a callback was given;
        calling it is an event and does not throw;
      - a [while (true)] loop takes a bound on its iterations; a run that
        reaches the bound is [Pending];
      - the clients, the [path] and [fs] modules and the archiver are
        parameters; the archiver is taken to accept every entry it is
        handed and to finish without warning or error, so the entries it
        would refuse (an empty name) are outside the model;
      - the calls on the storage and Artifact Registry clients leave no
        event: they show in their outcome and in the backend state;
      - [process.exit] ends the run of an entry point with its exit
        code. *)

From Stdlib Require Import String Ascii List ZArith Lia Bool DecimalString.
Import ListNotations.

Local Open Scope Z_scope.
Local Open Scope list_scope.

(** ** JavaScript strings *)

Module Js.

(** Template literals and [+] on strings. *)
Notation "a +++ b" := (String.append a b%string)
  (at level 60, right associativity).

Definition dquote : string := String (ascii_of_nat 34) EmptyString.
Definition newline : string := String (ascii_of_nat 10) EmptyString.

(** Rendering of an integral number inside a template literal. *)
Definition show (z : Z) : string := NilZero.string_of_int (Z.to_int z).

Definition lower_ascii (c : ascii) : ascii :=
  let n := nat_of_ascii c in
  if ((65 <=? n)%nat && (n <=? 90)%nat)%bool then ascii_of_nat (n + 32) else c.

(** [String.prototype.toLowerCase], on ASCII text. *)
Fixpoint toLowerCase (s : string) : string :=
  match s with
  | EmptyString => EmptyString
  | String c r => String (lower_ascii c) (toLowerCase r)
  end.

(** [String.prototype.startsWith]. *)
Definition startsWith (s p : string) : bool := String.prefix p s.

(** [String.prototype.includes]. *)
Fixpoint includes (s sub : string) : bool :=
  if String.prefix sub s then true
  else match s with
       | EmptyString => false
       | String _ r => includes r sub
       end.

(** [Array.prototype.join]. *)
Fixpoint join (sep : string) (l : list string) : string :=
  match l with
  | [] => EmptyString
  | [x] => x
  | x :: r => x +++ sep +++ join sep r
  end.

(** Truthiness of a string value. *)
Definition truthy (s : string) : bool :=
  match s with EmptyString => false | _ => true end.

End Js.
Import Js.

(** ** Errors, outcomes and events *)

(** A thrown value: an object with an optional [message] and an optional
    numeric [code] (the gRPC status of a client error). *)
Record JsError : Type := mkError {
  message : option string;
  code : option Z
}.

(** [new Error(msg)]. *)
Definition Error (msg : string) : JsError :=
  {| message := Some msg; code := None |}.

(** A [TypeError] raised by the runtime. *)
Definition TypeError (msg : string) : JsError :=
  {| message := Some msg; code := None |}.

(** [`${error.message}`]. *)
Definition show_message (e : JsError) : string :=
  match message e with Some m => m | None => "undefined"%string end.

(** [error.code === n]. *)
Definition code_is (e : JsError) (n : Z) : bool :=
  match code e with Some c => c =? n | None => false end.

(** How an awaited promise ends: fulfilled, rejected, or not settled
    within the steps the model was allowed to run. *)
Inductive Outcome (A : Type) : Type :=
| Returned (a : A)
| Thrown (e : JsError)
| Pending.
Arguments Returned {A} a.
Arguments Thrown {A} e.
Arguments Pending {A}.

Definition forget {A} (o : Outcome A) : Outcome unit :=
  match o with
  | Returned _ => Returned tt
  | Thrown e => Thrown e
  | Pending => Pending
  end.

Inductive Severity : Type := lvl_debug | lvl_info | lvl_warn | lvl_error.

Inductive ConsoleMethod : Type := console_log | console_warn | console_error.

(** ** Data exchanged with the backend *)

(** Service Usage: the record returned by [getService]. *)
Record ApiService : Type := { state : string }.

(** Cloud Build: one build step, the build request and the build record. *)
Record BuildStep : Type := {
  step_name : string;
  step_entrypoint : option string;
  step_args : list string;
  step_dir : string
}.

Record BuildRequest : Type := {
  source_bucket : string;
  source_object : string;
  steps : list BuildStep;
  images : list string
}.

(** [results_images] holds the names of [results.images] when the record
    has [results]. *)
Record Build : Type := {
  build_id : string;
  status : string;
  results_images : option (list string);
  logUrl : string
}.

(** Cloud Logging: the [data] of an entry when it is truthy: text, or a
    value of another type (the object of a structured payload) with the
    text [Array.prototype.join] prints for it, "[object Object]" for a
    plain object. [data] is [None] when it is absent or falsy. *)
Inductive Payload : Type :=
| Text (s : string)
| Structured (printed : string).

Record LogEntry : Type := { data : option Payload }.

(** Cloud Run: the service definition sent by the deployer
    ([template.revision], [template.containers[0].image], [labels], and the
    optional [name] and [invokerIamDisabled] properties) and the record the
    backend answers with. *)
Record Service : Type := {
  svc_name : option string;
  revision : string;
  container_image : string;
  labels : list (string * string);
  invokerIamDisabled : option bool
}.

Record ServiceRecord : Type := { uri : string }.

(** Observable events, in program order. Each remote call is logged with
    its arguments and the way it ended. *)
Inductive Event : Type :=
| Console (m : ConsoleMethod) (msg : string)
| Progress (level : Severity) (msg : string)
| Sleep (ms : Z)
| GetServiceCall (name : string) (r : Outcome ApiService)
| EnableServiceCall (name : string) (r : Outcome unit)
| EnableOperationWait (name : string) (r : Outcome unit)
| CreateBuildCall (projectId : string) (build : BuildRequest) (r : Outcome string)
| GetBuildCall (projectId id : string) (r : Outcome Build)
| GetEntriesCall (filter orderBy : string) (pageSize : Z)
    (r : Outcome (option (list LogEntry)))
| UpdateServiceCall (service : Service) (validateOnly : bool) (r : Outcome unit)
| CreateServiceCall (parent : string) (service : Service) (serviceId : string)
    (validateOnly : bool) (r : Outcome unit)
| RunOperationWait (r : Outcome ServiceRecord).

(** ** Computations *)

Section Computations.

(** The state of everything behind the client handles. *)
Variable B : Type.

Definition M (A : Type) : Type := B -> Outcome A * B * list Event.

Definition ret {A} (a : A) : M A := fun b => (Returned a, b, []).

Definition throw {A} (e : JsError) : M A := fun b => (Thrown e, b, []).

Definition pending {A} : M A := fun b => (Pending, b, []).

Definition bind {A C} (m : M A) (k : A -> M C) : M C :=
  fun b =>
    match m b with
    | (Returned a, b1, t1) =>
        let '(o, b2, t2) := k a b1 in (o, b2, t1 ++ t2)
    | (Thrown e, b1, t1) => (Thrown e, b1, t1)
    | (Pending, b1, t1) => (Pending, b1, t1)
    end.

(** [try { m } catch (e) { h e }]. *)
Definition try_catch {A} (m : M A) (h : JsError -> M A) : M A :=
  fun b =>
    match m b with
    | (Thrown e, b1, t1) =>
        let '(o, b2, t2) := h e b1 in (o, b2, t1 ++ t2)
    | r => r
    end.

Definition emit (e : Event) : M unit := fun b => (Returned tt, b, [e]).

(** [await new Promise((resolve) => setTimeout(resolve, ms))]. *)
Definition sleep (ms : Z) : M unit := emit (Sleep ms).

Definition console (m : ConsoleMethod) (msg : string) : M unit :=
  emit (Console m msg).

(** [if (progressCallback) progressCallback({ level, data })]; the flag
    says whether a callback was supplied. *)
Definition progress (progressCallback : bool) (level : Severity)
    (msg : string) : M unit :=
  if progressCallback then emit (Progress level msg) else ret tt.

(** A remote call [client.method(args)]: the backend answers and moves
    on, and the call is logged. *)
Definition invoke {A} (log : Outcome A -> Event)
    (method : B -> Outcome A * B) : M A :=
  fun b => let '(r, b') := method b in (r, b', [log r]).

(** The awaited outcome, the backend afterwards, the events. *)
Definition outcome {A} (r : Outcome A * B * list Event) : Outcome A :=
  fst (fst r).
Definition backend {A} (r : Outcome A * B * list Event) : B := snd (fst r).
Definition events {A} (r : Outcome A * B * list Event) : list Event := snd r.

(** A run preceded by events that already happened. *)
Definition prepend {A} (t : list Event) (r : Outcome A * B * list Event)
    : Outcome A * B * list Event :=
  let '(o, b, u) := r in (o, b, t ++ u).

(** A long-running operation handle: [operation.promise()]. *)
Definition Operation (R : Type) : Type := B -> Outcome R * B.

(** The [context] object: one handle per backend client. *)
Record Context : Type := {
  serviceUsage_getService : string -> B -> Outcome ApiService * B;
  serviceUsage_enableService : string -> B -> Outcome (Operation unit) * B;
  cloudBuild_createBuild : string -> BuildRequest -> B -> Outcome string * B;
  cloudBuild_getBuild : string -> string -> B -> Outcome Build * B;
  logging_getEntries :
    string -> string -> Z -> B -> Outcome (option (list LogEntry)) * B;
  run_locationPath : string -> string -> string;
  run_servicePath : string -> string -> string -> string;
  run_updateService :
    Service -> bool -> B -> Outcome (Operation ServiceRecord) * B;
  run_createService :
    string -> Service -> string -> bool ->
    B -> Outcome (Operation ServiceRecord) * B
}.

End Computations.

Arguments ret {B A} a.
Arguments throw {B A} e.
Arguments pending {B A}.
Arguments bind {B A C} m k.
Arguments try_catch {B A} m h.
Arguments emit {B} e.
Arguments sleep {B} ms.
Arguments console {B} m msg.
Arguments progress {B} progressCallback level msg.
Arguments invoke {B A} log method.
Arguments outcome {B A} r.
Arguments backend {B A} r.
Arguments events {B A} r.
Arguments prepend {B A} t r.
Arguments serviceUsage_getService {B} c.
Arguments serviceUsage_enableService {B} c.
Arguments cloudBuild_createBuild {B} c.
Arguments cloudBuild_getBuild {B} c.
Arguments logging_getEntries {B} c.
Arguments run_locationPath {B} c.
Arguments run_servicePath {B} c.
Arguments run_updateService {B} c.
Arguments run_createService {B} c.

Notation "x <- m ;; k" := (bind m (fun x => k))
  (at level 61, m at next level, right associativity).
Notation "m ;; k" := (bind m (fun _ => k))
  (at level 61, right associativity).

(** ** lib/util/helpers.js *)

Definition logAndProgress {B} (msg : string) (progressCallback : bool)
    (severity : Severity) : M B unit :=
  (match severity with
   | lvl_error => console console_error msg
   | _ => console console_log msg
   end) ;;
  progress progressCallback severity msg.

(** ** lib/cloud-api/helpers.js *)

Module Helpers.

Section Retry.

Context {B A : Type}.

Definition maxRetries : Z := 7.
Definition initialBackoff : Z := 1000.

(** The [while (true)] loop of [callWithRetry]; [retries] is the loop
    variable, [fuel] bounds the number of iterations the model runs. *)
Fixpoint callWithRetry_loop (fuel : nat) (fn : M B A)
    (description : string) (retries : Z) : M B A :=
  match fuel with
  | O => pending
  | S fuel' =>
      try_catch fn (fun error =>
        if (code_is error 7 && (retries <? maxRetries))%bool then
          let retries := retries + 1 in
          let backoff :=
            if retries =? 1 then 15000
            else initialBackoff * 2 ^ (retries - 2) in
          console console_warn
            ("API call " +++ dquote +++ description +++ dquote +++
             " failed with PERMISSION_DENIED. Retrying in " +++
             show (backoff / 1000) +++ "s... (attempt " +++
             show retries +++ "/" +++ show maxRetries +++ ")") ;;
          sleep backoff ;;
          callWithRetry_loop fuel' fn description retries
        else throw error)
  end.

(** One first call and at most [maxRetries] further ones: the loop body
    runs at most [maxRetries + 1] times. *)
Definition callWithRetry (fn : M B A) (description : string) : M B A :=
  callWithRetry_loop (S (Z.to_nat maxRetries)) fn description 0.

End Retry.

Section Apis.

Context {B : Type}.

Definition checkAndEnableApi (serviceUsageClient : Context B)
    (serviceName api : string) (progressCallback : bool) : M B unit :=
  service <- callWithRetry
    (invoke (GetServiceCall serviceName)
       (serviceUsage_getService serviceUsageClient serviceName))
    ("getService " +++ api) ;;
  if negb (state service =? "ENABLED")%string then
    let message := "API [" +++ api +++ "] is not enabled. Enabling..." in
    console console_log message ;;
    progress progressCallback lvl_info message ;;
    operation <- callWithRetry
      (invoke (fun r => EnableServiceCall serviceName (forget r))
         (serviceUsage_enableService serviceUsageClient serviceName))
      ("enableService " +++ api) ;;
    invoke (EnableOperationWait serviceName) operation
  else ret tt.

(** The [for (const api of apis)] loop of [ensureApisEnabled]. *)
Fixpoint ensureApisEnabled_each (context : Context B) (projectId : string)
    (apis : list string) (progressCallback : bool) : M B unit :=
  match apis with
  | [] => ret tt
  | api :: rest =>
      let serviceName := "projects/" +++ projectId +++ "/services/" +++ api in
      try_catch
        (checkAndEnableApi context serviceName api progressCallback)
        (fun error =>
           let warnMsg :=
             "Failed to check/enable " +++ api +++ ", retrying in 1s..." in
           console console_warn warnMsg ;;
           progress progressCallback lvl_warn warnMsg ;;
           sleep 1000 ;;
           try_catch
             (checkAndEnableApi context serviceName api progressCallback)
             (fun retryError =>
                let errorMessage :=
                  "Failed to ensure API [" +++ api +++
                  "] is enabled after retry. Please check manually." in
                console console_error errorMessage ;;
                progress progressCallback lvl_error errorMessage ;;
                throw (Error errorMessage))) ;;
      ensureApisEnabled_each context projectId rest progressCallback
  end.

Definition ensureApisEnabled (context : Context B) (projectId : string)
    (apis : list string) (progressCallback : bool) : M B unit :=
  let message := "Checking and enabling required APIs..."%string in
  console console_log message ;;
  progress progressCallback lvl_info message ;;
  ensureApisEnabled_each context projectId apis progressCallback ;;
  let successMsg := "All required APIs are enabled."%string in
  console console_log successMsg ;;
  progress progressCallback lvl_info successMsg.

End Apis.

End Helpers.

(** ** lib/cloud-api/build.js *)

Module CloudBuild.
Import Helpers.

Section Trigger.

Context {B : Type}.

Definition DELAY_WAIT_FOR_BUILD_LOGS : Z := 10000.
Definition BUILD_LOGS_LINES_TO_FETCH : Z := 100.

(** The statuses on which the polling loop stops. *)
Definition terminal_statuses : list string :=
  ["SUCCESS"; "FAILURE"; "INTERNAL_ERROR"; "TIMEOUT"; "CANCELLED"]%string.

(** [Array.prototype.includes] on an array of strings. *)
Definition array_includes (l : list string) (s : string) : bool :=
  existsb (String.eqb s) l.

Definition buildSteps (targetImageUrl : string) (hasDockerfile : bool)
    : list BuildStep :=
  if hasDockerfile then
    [ {| step_name := "gcr.io/cloud-builders/docker";
         step_entrypoint := None;
         step_args := ["build"; "-t"; targetImageUrl; "."]%string;
         step_dir := "/workspace" |} ]
  else
    [ {| step_name := "gcr.io/k8s-skaffold/pack";
         step_entrypoint := Some "pack"%string;
         step_args := ["build"; targetImageUrl; "--builder";
                       "gcr.io/buildpacks/builder:latest"]%string;
         step_dir := "/workspace" |} ].

(** The [while (true)] polling loop: one [getBuild] per iteration, a
    5000 ms wait after each status that is not terminal. *)
Fixpoint pollBuild (fuel : nat) (context : Context B)
    (projectId buildId : string) (progressCallback : bool) : M B Build :=
  match fuel with
  | O => pending
  | S fuel' =>
      getBuildOperation <- callWithRetry
        (invoke (GetBuildCall projectId buildId)
           (cloudBuild_getBuild context projectId buildId))
        ("cloudBuild.getBuild " +++ buildId) ;;
      if array_includes terminal_statuses (status getBuildOperation) then
        ret getBuildOperation
      else
        logAndProgress
          ("Build status: " +++ status getBuildOperation +++ ". Waiting...")
          progressCallback lvl_debug ;;
        sleep 5000 ;;
        pollBuild fuel' context projectId buildId progressCallback
  end.

(** [completedBuild.results.images[0].name]. *)
Definition first_image_name (completedBuild : Build) : M B string :=
  match results_images completedBuild with
  | None =>
      throw (TypeError
        "Cannot read properties of undefined (reading 'images')")
  | Some [] =>
      throw (TypeError
        "Cannot read properties of undefined (reading 'name')")
  | Some (name :: _) => ret name
  end.

(** [entry.data || ''], as [logLines.join] prints it. *)
Definition entry_line (entry : LogEntry) : string :=
  match data entry with
  | Some (Text s) => s
  | Some (Structured printed) => printed
  | None => EmptyString
  end.

(** The failure branch: the text appended to the thrown message. *)
Definition fetchBuildLogsSnippet (context : Context B)
    (buildId : string) (completedBuild : Build) (progressCallback : bool)
    : M B string :=
  let buildLogsSnippet :=
    newline +++ newline +++ "Refer to Log URL for full details: " +++
    logUrl completedBuild in
  try_catch
    (let logFilter :=
       "resource.type=" +++ dquote +++ "build" +++ dquote +++
       " AND resource.labels.build_id=" +++ dquote +++ buildId +++ dquote in
     logAndProgress
       ("Attempting to fetch last " +++ show BUILD_LOGS_LINES_TO_FETCH +++
        " log lines for build " +++ buildId +++ "...")
       progressCallback lvl_debug ;;
     sleep DELAY_WAIT_FOR_BUILD_LOGS ;;
     entries <- callWithRetry
       (invoke
          (GetEntriesCall logFilter "timestamp desc" BUILD_LOGS_LINES_TO_FETCH)
          (logging_getEntries context logFilter "timestamp desc"
             BUILD_LOGS_LINES_TO_FETCH))
       ("logging.getEntries for build " +++ buildId) ;;
     match entries with
     | Some ((_ :: _) as entries) =>
         let logLines := map entry_line (rev entries) in
         if (0 <? Z.of_nat (length logLines)) then
           logAndProgress
             ("Successfully fetched snippet of build logs for " +++
              buildId +++ ".")
             progressCallback lvl_info ;;
           ret (newline +++ newline +++ "Last " +++
                show (Z.of_nat (length logLines)) +++
                " log lines from build " +++ buildId +++ ":" +++ newline +++
                join newline logLines)
         else ret buildLogsSnippet
     | _ =>
         logAndProgress
           ("No specific log entries retrieved for build " +++ buildId +++
            ". " +++ buildLogsSnippet)
           progressCallback lvl_warn ;;
         ret buildLogsSnippet
     end)
    (fun logError =>
       console console_error
         ("Error fetching build logs for " +++ buildId +++ ":") ;;
       logAndProgress
         ("Failed to fetch build logs snippet: " +++ show_message logError +++
          ". " +++ buildLogsSnippet)
         progressCallback lvl_warn ;;
       ret buildLogsSnippet).

Definition triggerCloudBuild (fuel : nat) (context : Context B)
    (projectId location sourceBucketName sourceBlobName targetRepoName
       targetImageUrl : string)
    (hasDockerfile progressCallback : bool) : M B Build :=
  let build :=
    {| source_bucket := sourceBucketName;
       source_object := sourceBlobName;
       steps := buildSteps targetImageUrl hasDockerfile;
       images := [targetImageUrl] |} in
  logAndProgress
    ("Initiating Cloud Build for gs://" +++ sourceBucketName +++ "/" +++
     sourceBlobName +++ " in " +++ location +++ "...")
    progressCallback lvl_info ;;
  buildId <- callWithRetry
    (invoke (CreateBuildCall projectId build)
       (cloudBuild_createBuild context projectId build))
    "cloudBuild.createBuild" ;;
  logAndProgress "Cloud Build job started..." progressCallback lvl_info ;;
  completedBuild <- pollBuild fuel context projectId buildId progressCallback ;;
  if (status completedBuild =? "SUCCESS")%string then
    logAndProgress
      ("Cloud Build job " +++ buildId +++ " completed successfully.")
      progressCallback lvl_info ;;
    name <- first_image_name completedBuild ;;
    logAndProgress ("Image built: " +++ name) progressCallback lvl_info ;;
    ret completedBuild
  else
    let failureMessage :=
      "Cloud Build job " +++ buildId +++ " failed with status: " +++
      status completedBuild in
    logAndProgress failureMessage progressCallback lvl_error ;;
    let logsMessage := "Build logs: " +++ logUrl completedBuild in
    logAndProgress logsMessage progressCallback lvl_info ;;
    buildLogsSnippet <-
      fetchBuildLogsSnippet context buildId completedBuild progressCallback ;;
    throw (Error ("Build " +++ buildId +++ " failed." +++ buildLogsSnippet)).

End Trigger.

End CloudBuild.

(** ** The Node.js platform: [path], [fs], [JSON] and the archiver *)

(** An element of the [files] array as the code inspects it: a string, an
    object with its optional [filename] and [content] properties, [null],
    or a value of another type. *)
Inductive FileItem : Type :=
| ItemString (s : string)
| ItemObject (filename content : option string)
| ItemNull
| ItemNumber (n : Z)
| ItemBoolean (b : bool)
| ItemUndefined.

(** What was added to the archive: [archive.append(content, { name })]
    with the values of the two properties, [archive.directory(dirpath,
    destpath)] and [archive.file(filepath, { name })]. [Directory p None]
    is [archive.directory(p, false)]: the contents of [p] at the archive
    root. *)
Inductive ArchiveEntry : Type :=
| Append (content name : option string)
| Directory (dirpath : string) (destpath : option string)
| File (filepath name : string).

Record Node : Type := {
  path_resolve : string -> string;
  path_basename : string -> string;
  path_join : string -> string -> string;
  fs_existsSync : string -> bool;
  (** [fs.statSync(p).isDirectory()], or the error [statSync] throws. *)
  fs_statSync_isDirectory : string -> JsError + bool;
  JSON_stringify : FileItem -> string;
  (** [archive.pointer()] once the archive is finalized. *)
  archive_pointer : list ArchiveEntry -> Z
}.

(** [typeof v]. *)
Definition typeof (v : FileItem) : string :=
  match v with
  | ItemString _ => "string"
  | ItemObject _ _ => "object"
  | ItemNull => "object"
  | ItemNumber _ => "number"
  | ItemBoolean _ => "boolean"
  | ItemUndefined => "undefined"
  end.

Definition is_some {A} (o : option A) : bool :=
  match o with Some _ => true | None => false end.

(** ['prop' in v]: a [TypeError] unless [v] is an object. *)
Definition js_in (prop : string) (v : FileItem) : Outcome bool :=
  match v with
  | ItemObject filename content =>
      Returned
        (if (prop =? "filename")%string then is_some filename
         else if (prop =? "content")%string then is_some content
         else false)
  | ItemNull =>
      Thrown (TypeError
        ("Cannot use 'in' operator to search for '" +++ prop +++ "' in null"))
  | _ =>
      Thrown (TypeError
        ("Cannot use 'in' operator to search for '" +++ prop +++ "' in " +++
         typeof v))
  end.

(** [v.prop] for a value that is not [null] or [undefined]: the value of
    the property, [undefined] (here [None]) where it is absent. *)
Definition property (prop : string) (v : FileItem) : option string :=
  match v with
  | ItemObject filename content =>
      if (prop =? "filename")%string then filename
      else if (prop =? "content")%string then content
      else None
  | _ => None
  end.

(** [v.filename]: a [TypeError] on [null] and [undefined], [undefined]
    (here [None]) where the property is absent. *)
Definition get_filename (v : FileItem) : Outcome (option string) :=
  match v with
  | ItemObject filename _ => Returned filename
  | ItemNull =>
      Thrown (TypeError "Cannot read properties of null (reading 'filename')")
  | ItemUndefined =>
      Thrown (TypeError
        "Cannot read properties of undefined (reading 'filename')")
  | _ => Returned None
  end.

(** ** lib/util/archive.js *)

Module Archive.

Section Zip.

Context {B : Type}.
Variable node : Node.

(** [typeof file === 'object' && 'filename' in file && 'content' in file]. *)
Definition is_file_object (file : FileItem) : Outcome bool :=
  if (typeof file =? "object")%string then
    match js_in "filename" file with
    | Returned true => js_in "content" file
    | r => r
    end
  else Returned false.

(** The body of the [files.forEach] callback: the entry added for one
    item, or the error thrown. *)
Definition zipFiles_item (file : FileItem) : Outcome ArchiveEntry :=
  match is_file_object file with
  | Thrown e => Thrown e
  | Pending => Pending
  | Returned true =>
      Returned (Append (property "content" file) (property "filename" file))
  | Returned false =>
      match file with
      | ItemString file =>
          let pathInput :=
            if startsWith file "/c" then "/mnt" +++ file else file in
          let filePath := path_resolve node pathInput in
          if negb (fs_existsSync node filePath) then
            Thrown (Error ("File or directory not found: " +++ filePath))
          else
            match fs_statSync_isDirectory node filePath with
            | inl e => Thrown e
            | inr true => Returned (Directory filePath None)
            | inr false =>
                Returned (File filePath (path_basename node filePath))
            end
      | _ =>
          Thrown (Error
            ("Invalid file format: " +++ JSON_stringify node file))
      end
  end.

(** [files.forEach(...)]: items are added in order, the first throw ends
    the iteration. *)
Fixpoint zipFiles_forEach (files : list FileItem) (archive : list ArchiveEntry)
    : Outcome (list ArchiveEntry) :=
  match files with
  | [] => Returned archive
  | file :: rest =>
      match zipFiles_item file with
      | Returned entry => zipFiles_forEach rest (archive ++ [entry])
      | Thrown e => Thrown e
      | Pending => Pending
      end
  end.

(** [zipFiles]: the promise is rejected with what the executor throws;
    otherwise the archiver runs to its [end] event and the promise is
    fulfilled with the archive. The [error] event of the archiver, which
    would reject the promise, is not modelled: the archiver accepts every
    entry. *)
Definition zipFiles (files : list FileItem) (progressCallback : bool)
    : M B (list ArchiveEntry) :=
  logAndProgress "Creating in-memory zip archive..." progressCallback
    lvl_info ;;
  match zipFiles_forEach files [] with
  | Thrown e => throw e
  | Pending => pending
  | Returned archive =>
      logAndProgress
        ("Files zipped successfully. Total size: " +++
         show (archive_pointer node archive) +++ " bytes")
        progressCallback lvl_info ;;
      ret archive
  end.

End Zip.

End Archive.

(** ** lib/deployment/deployer.js *)

Module Deployer.
Import Helpers.

Section Deploy.

Context {B : Type}.
Variable node : Node.

(** [checkCloudRunServiceExists] of lib/cloud-api/run.js, taken as given:
    it answers whether the service exists, or throws. *)
Variable checkCloudRunServiceExists :
  Context B -> string -> string -> string -> bool -> M B bool.

(** [service.name = servicePath]. *)
Definition set_name (service : Service) (servicePath : string) : Service :=
  {| svc_name := Some servicePath;
     revision := revision service;
     container_image := container_image service;
     labels := labels service;
     invokerIamDisabled := invokerIamDisabled service |}.

(** [delete service.invokerIamDisabled]. *)
Definition delete_invokerIamDisabled (service : Service) : Service :=
  {| svc_name := svc_name service;
     revision := revision service;
     container_image := container_image service;
     labels := labels service;
     invokerIamDisabled := None |}.

(** The heuristic of the dry-run handler:
    [skipIamCheck && dryRunError.message && (... || ... || code === 3)]. *)
Definition invoker_flag_rejected (skipIamCheck : bool) (dryRunError : JsError)
    : bool :=
  skipIamCheck &&
  match message dryRunError with
  | None => false
  | Some m =>
      truthy m &&
      (includes (toLowerCase m) "invokeriamdisabled" ||
       includes (toLowerCase m) "iam policy violation" ||
       code_is dryRunError 3)
  end.

(** [now] is the value of [Date.now()]. *)
Definition deployToCloudRun (context : Context B) (now : Z)
    (projectId location serviceId imgUrl : string)
    (progressCallback skipIamCheck : bool) : M B ServiceRecord :=
  let parent := run_locationPath context projectId location in
  let servicePath := run_servicePath context projectId location serviceId in
  let revisionName := serviceId +++ "-" +++ show now in
  let service :=
    {| svc_name := None;
       revision := revisionName;
       container_image := imgUrl;
       labels := [("created-by", "cloud-run-mcp")]%string;
       invokerIamDisabled := if skipIamCheck then Some true else None |} in
  try_catch
    (exists_ <- checkCloudRunServiceExists context projectId location
                  serviceId progressCallback ;;
     service <- try_catch
       (logAndProgress
          ("Performing dry run for service " +++ serviceId +++ "...")
          progressCallback lvl_debug ;;
        let dryRunServiceConfig := service in
        (if exists_ : bool then
           let dryRunServiceConfig := set_name dryRunServiceConfig servicePath in
           callWithRetry
             (invoke
                (fun r => UpdateServiceCall dryRunServiceConfig true (forget r))
                (run_updateService context dryRunServiceConfig true))
             ("updateService (dry run) " +++ serviceId)
         else
           callWithRetry
             (invoke
                (fun r => CreateServiceCall parent dryRunServiceConfig
                            serviceId true (forget r))
                (run_createService context parent dryRunServiceConfig
                   serviceId true))
             ("createService (dry run) " +++ serviceId)) ;;
        logAndProgress
          ("Dry run successful for " +++ serviceId +++
           " with current configuration.")
          progressCallback lvl_debug ;;
        ret service)
       (fun dryRunError =>
          logAndProgress
            ("Dry run for " +++ serviceId +++ " failed: " +++
             show_message dryRunError)
            progressCallback lvl_warn ;;
          if invoker_flag_rejected skipIamCheck dryRunError then
            logAndProgress
              "Dry run suggests 'invokerIamDisabled' is not allowed or invalid. Attempting deployment without it."
              progressCallback lvl_warn ;;
            ret (delete_invokerIamDisabled service)
          else
            let errorMessage :=
              "Dry run validation failed for service " +++ serviceId +++
              ": " +++ show_message dryRunError in
            logAndProgress errorMessage progressCallback lvl_error ;;
            throw (Error errorMessage)) ;;
     operation <-
       (if exists_ : bool then
          logAndProgress ("Updating existing service " +++ serviceId +++ "...")
            progressCallback lvl_info ;;
          let service := set_name service servicePath in
          callWithRetry
            (invoke (fun r => UpdateServiceCall service false (forget r))
               (run_updateService context service false))
            ("updateService " +++ serviceId)
        else
          logAndProgress ("Creating new service " +++ serviceId +++ "...")
            progressCallback lvl_info ;;
          callWithRetry
            (invoke
               (fun r => CreateServiceCall parent service serviceId false
                           (forget r))
               (run_createService context parent service serviceId false))
            ("createService " +++ serviceId)) ;;
     logAndProgress ("Deploying " +++ serviceId +++ " to Cloud Run...")
       progressCallback lvl_info ;;
     response <- invoke RunOperationWait operation ;;
     logAndProgress
       ("Service deployed/updated successfully: " +++ uri response)
       progressCallback lvl_info ;;
     ret response)
    (fun error =>
       let errorMessage :=
         "Error deploying/updating service " +++ serviceId +++ ": " +++
         show_message error in
       console console_error
         ("Error deploying/updating service " +++ serviceId +++ ":") ;;
       logAndProgress errorMessage progressCallback lvl_error ;;
       throw error).

(** The [for (const file of files)] loop of the Dockerfile detection in
    [deploy], with its [break]. *)
Fixpoint hasDockerfile_in_list (files : list FileItem) : Outcome bool :=
  match files with
  | [] => Returned false
  | file :: rest =>
      match file with
      | ItemString s =>
          if (toLowerCase (path_basename node s) =? "dockerfile")%string
          then Returned true
          else hasDockerfile_in_list rest
      | _ =>
          if (typeof file =? "object")%string then
            match get_filename file with
            | Thrown e => Thrown e
            | Pending => Pending
            | Returned (Some filename) =>
                if truthy filename then
                  if (toLowerCase (path_basename node filename)
                      =? "dockerfile")%string
                  then Returned true
                  else hasDockerfile_in_list rest
                else hasDockerfile_in_list rest
            | Returned None => hasDockerfile_in_list rest
            end
          else hasDockerfile_in_list rest
      end
  end.

(** The Dockerfile detection of [deploy]: the value of [hasDockerfile]
    when the block ends, or the error it throws. *)
Definition deploy_hasDockerfile (files : list FileItem) : Outcome bool :=
  match files with
  | [ItemString dir] =>
      match fs_statSync_isDirectory node dir with
      | inl e => Thrown e
      | inr true =>
          let dockerfilePath := path_join node dir "Dockerfile" in
          let dockerfilePathLowerCase := path_join node dir "dockerfile" in
          Returned (fs_existsSync node dockerfilePath ||
                    fs_existsSync node dockerfilePathLowerCase)
      | inr false => hasDockerfile_in_list files
      end
  | _ => hasDockerfile_in_list files
  end.

End Deploy.

End Deployer.

(** ** The Artifact Registry and Cloud Storage clients *)

(** The repository record ([name]), a bucket handle ([name]) and the
    file handle [bucket.file(name)]. *)
Record Repository : Type := { repo_name : string }.

Record Bucket : Type := { bucket_name : string }.

Record BucketFile : Type := { file_bucket : string; file_name : string }.

(** The buffer [zipFiles] resolves with, as what was added to it. *)
Definition Buffer : Type := list ArchiveEntry.

Section Clients.

Variable B : Type.

(** [context.artifactRegistryClient]: [getRepository({ name })] and
    [createRepository({ parent, repository: { format }, repositoryId })]. *)
Record ArtifactRegistryClient : Type := {
  repositoryPath : string -> string -> string -> string;
  getRepository : string -> B -> Outcome Repository * B;
  createRepository :
    string -> string -> string -> B -> Outcome (Operation B Repository) * B
}.

(** [context.storage]: [bucket(name).exists()],
    [createBucket(name, { location })] and
    [bucket(name).file(blob).save(buffer)]. *)
Record StorageClient : Type := {
  bucket_exists : string -> B -> Outcome bool * B;
  createBucket : string -> string -> B -> Outcome Bucket * B;
  bucket_file_save : string -> string -> Buffer -> B -> Outcome unit * B
}.

(** The [context] object of [deploy]: the clients of [Context] together
    with the storage and Artifact Registry clients. *)
Record DeployContext : Type := {
  clients : Context B;
  storage : StorageClient;
  artifactRegistryClient : ArtifactRegistryClient
}.

(** A remote call that leaves no event: what it did shows in its outcome
    and in the backend. *)
Definition call {A} (method : B -> Outcome A * B) : M B A :=
  fun b => let '(r, b') := method b in (r, b', []).

(** An outcome computed without the backend. *)
Definition settled {A} (o : Outcome A) : M B A := fun b => (o, b, []).

End Clients.

Arguments repositoryPath {B} a.
Arguments getRepository {B} a.
Arguments createRepository {B} a.
Arguments bucket_exists {B} s.
Arguments createBucket {B} s.
Arguments bucket_file_save {B} s.
Arguments clients {B} d.
Arguments storage {B} d.
Arguments artifactRegistryClient {B} d.
Arguments call {B A} method.
Arguments settled {B A} o.

(** ** lib/cloud-api/registry.js *)

Module Registry.
Import Helpers.

Section Repo.

Context {B : Type}.

(** [format = 'DOCKER'] is the default of the parameter: [None] is an
    argument left out. *)
Definition ensureArtifactRegistryRepoExists (context : DeployContext B)
    (projectId location repositoryId : string) (format : option string)
    (progressCallback : bool) : M B Repository :=
  let format := match format with Some f => f | None => "DOCKER"%string end in
  let parent := "projects/" +++ projectId +++ "/locations/" +++ location in
  let repoPath :=
    repositoryPath (artifactRegistryClient context) projectId location
      repositoryId in
  try_catch
    (repository <- callWithRetry
       (call (getRepository (artifactRegistryClient context) repoPath))
       ("artifactRegistry.getRepository " +++ repositoryId) ;;
     logAndProgress
       ("Repository " +++ repositoryId +++ " already exists in " +++
        location +++ ".")
       progressCallback lvl_info ;;
     ret repository)
    (fun error =>
       if code_is error 5 then
         logAndProgress
           ("Repository " +++ repositoryId +++ " does not exist in " +++
            location +++ ". Creating...")
           progressCallback lvl_info ;;
         let repositoryToCreate := format in
         operation <- callWithRetry
           (call (createRepository (artifactRegistryClient context) parent
                    repositoryToCreate repositoryId))
           ("artifactRegistry.createRepository " +++ repositoryId) ;;
         logAndProgress
           ("Creating Artifact Registry repository " +++ repositoryId +++
            "...")
           progressCallback lvl_info ;;
         result <- call operation ;;
         logAndProgress
           ("Artifact Registry repository " +++ repo_name result +++
            " created successfully.")
           progressCallback lvl_info ;;
         ret result
       else
         let errorMessage :=
           "Error checking/creating repository " +++ repositoryId +++ ": " +++
           show_message error in
         console console_error
           ("Error checking/creating repository " +++ repositoryId +++ ":") ;;
         logAndProgress errorMessage progressCallback lvl_error ;;
         throw error).

End Repo.

End Registry.

(** ** lib/cloud-api/storage.js *)

Module Storage.
Import Helpers.

Section Buckets.

Context {B : Type}.

(** [location = 'us'] is the default of the parameter. *)
Definition ensureStorageBucketExists (context : DeployContext B)
    (bucketName : string) (location : option string)
    (progressCallback : bool) : M B Bucket :=
  let location := match location with Some l => l | None => "us"%string end in
  let bucket := {| bucket_name := bucketName |} in
  try_catch
    (exists_ <- callWithRetry
       (call (bucket_exists (storage context) bucketName))
       ("storage.bucket.exists " +++ bucketName) ;;
     if exists_ : bool then
       logAndProgress ("Bucket " +++ bucketName +++ " already exists.")
         progressCallback lvl_info ;;
       ret bucket
     else
       logAndProgress
         ("Bucket " +++ bucketName +++
          " does not exist. Creating in location " +++ location +++ "...")
         progressCallback lvl_info ;;
       try_catch
         (createdBucket <- callWithRetry
            (call (createBucket (storage context) bucketName location))
            ("storage.createBucket " +++ bucketName) ;;
          logAndProgress
            ("Storage bucket " +++ bucket_name createdBucket +++
             " created successfully in " +++ location +++ ".")
            progressCallback lvl_info ;;
          ret createdBucket)
         (fun createError =>
            let errorMessage :=
              "Failed to create storage bucket " +++ bucketName +++
              ". Error details: " +++ show_message createError in
            console console_error
              ("Failed to create storage bucket " +++ bucketName +++
               ". Error details:") ;;
            logAndProgress errorMessage progressCallback lvl_error ;;
            throw createError))
    (fun error =>
       let errorMessage :=
         "Error checking/creating bucket " +++ bucketName +++ ": " +++
         show_message error in
       console console_error
         ("Error checking/creating bucket " +++ bucketName +++ ":") ;;
       logAndProgress errorMessage progressCallback lvl_error ;;
       throw error).

Definition uploadToStorageBucket (context : DeployContext B)
    (bucket : Bucket) (buffer : Buffer) (destinationBlobName : string)
    (progressCallback : bool) : M B BucketFile :=
  try_catch
    (logAndProgress
       ("Uploading buffer to gs://" +++ bucket_name bucket +++ "/" +++
        destinationBlobName +++ "...")
       progressCallback lvl_info ;;
     callWithRetry
       (call (bucket_file_save (storage context) (bucket_name bucket)
                destinationBlobName buffer))
       ("storage.bucket.file.save " +++ destinationBlobName) ;;
     logAndProgress
       ("File " +++ destinationBlobName +++
        " uploaded successfully to gs://" +++ bucket_name bucket +++ "/" +++
        destinationBlobName +++ ".")
       progressCallback lvl_info ;;
     ret {| file_bucket := bucket_name bucket;
            file_name := destinationBlobName |})
    (fun error =>
       let errorMessage := "Error uploading buffer: " +++ show_message error in
       console console_error "Error uploading buffer:" ;;
       logAndProgress errorMessage progressCallback lvl_error ;;
       throw error).

End Buckets.

End Storage.

(** ** lib/deployment/deployer.js: the exported entry points *)

(** How a call of an entry point ends when its promise does not reject:
    with the deployed service, or with the process ended by
    [process.exit(code)]. *)
Inductive Completion (A : Type) : Type :=
| Completed (a : A)
| Exited (exit_code : Z).
Arguments Completed {A} a.
Arguments Exited {A} exit_code.

(** A configuration property that passes [if (!value)]: a string that is
    not empty. [None] is a property left out. *)
Definition provided (value : option string) : option string :=
  match value with
  | Some s => if truthy s then Some s else None
  | None => None
  end.

(** [`${flag}`] for a boolean. *)
Definition show_bool (flag : bool) : string :=
  if flag then "true" else "false".

Module Entry.
Import Helpers CloudBuild Archive Deployer Registry Storage.

Section Entries.

Context {B : Type}.
Variable node : Node.
Variable checkCloudRunServiceExists :
  Context B -> string -> string -> string -> bool -> M B bool.

(** [typeof process !== 'undefined' && process.exit]. *)
Variable process_exit : bool.

Definition REPO_NAME : string := "mcp-cloud-run-deployments".
Definition ZIP_FILE_NAME : string := "source.zip".
Definition IMAGE_TAG : string := "latest".

Definition REQUIRED_APIS_FOR_SOURCE_DEPLOY : list string :=
  ["iam.googleapis.com"; "storage.googleapis.com";
   "cloudbuild.googleapis.com"; "artifactregistry.googleapis.com";
   "run.googleapis.com"]%string.

Definition REQUIRED_APIS_FOR_IMAGE_DEPLOY : list string :=
  ["run.googleapis.com"]%string.

(** The [catch] block of both entry points. *)
Definition deployment_failed {A} (progressCallback : bool) (error : JsError)
    : M B A :=
  let deployFailedMessage := "Deployment Failed: " +++ show_message error in
  console console_error "Deployment Failed" ;;
  logAndProgress deployFailedMessage progressCallback lvl_error ;;
  throw error.

(** [deploy]: [context] holds the clients the function creates, [now] is
    the value of [Date.now()], [fuel] bounds the polling of the build;
    [files] is [None] for a value that is not an array; [region] is a
    string. *)
Definition deploy (fuel : nat) (context : DeployContext B) (now : Z)
    (projectId serviceName : option string) (region : string)
    (files : option (list FileItem))
    (progressCallback skipIamCheck : bool)
    : M B (Completion ServiceRecord) :=
  match provided projectId with
  | None =>
      let errorMsg :=
        "Error: projectId is required in the configuration object."%string in
      logAndProgress errorMsg progressCallback lvl_error ;;
      throw (Error errorMsg)
  | Some projectId =>
  match provided serviceName with
  | None =>
      let errorMsg :=
        "Error: serviceName is required in the configuration object."%string in
      logAndProgress errorMsg progressCallback lvl_error ;;
      throw (Error errorMsg)
  | Some serviceName =>
  match files with
  | None | Some [] =>
      let errorMsg :=
        "Error: files array is required in the configuration object."%string in
      logAndProgress errorMsg progressCallback lvl_error ;;
      if process_exit then ret (Exited 1) else throw (Error errorMsg)
  | Some files =>
      try_catch
        (ensureApisEnabled (clients context) projectId
           REQUIRED_APIS_FOR_SOURCE_DEPLOY progressCallback ;;
         let bucketName := projectId +++ "-source-bucket" in
         let imageUrl :=
           region +++ "-docker.pkg.dev/" +++ projectId +++ "/" +++
           REPO_NAME +++ "/" +++ serviceName +++ ":" +++ IMAGE_TAG in
         logAndProgress ("Project: " +++ projectId) progressCallback
           lvl_info ;;
         logAndProgress ("Region: " +++ region) progressCallback lvl_info ;;
         logAndProgress ("Service Name: " +++ serviceName) progressCallback
           lvl_info ;;
         logAndProgress
           ("Files to deploy: " +++ show (Z.of_nat (length files)))
           progressCallback lvl_info ;;
         hasDockerfile <- settled (deploy_hasDockerfile node files) ;;
         logAndProgress ("Dockerfile: " +++ show_bool hasDockerfile)
           progressCallback lvl_info ;;
         bucket <- ensureStorageBucketExists context bucketName (Some region)
                     progressCallback ;;
         zipBuffer <- zipFiles node files progressCallback ;;
         uploadToStorageBucket context bucket zipBuffer ZIP_FILE_NAME
           progressCallback ;;
         logAndProgress "Source code uploaded successfully" progressCallback
           lvl_info ;;
         ensureArtifactRegistryRepoExists context projectId region REPO_NAME
           (Some "DOCKER"%string) progressCallback ;;
         buildResult <- triggerCloudBuild fuel (clients context) projectId
                          region bucketName ZIP_FILE_NAME REPO_NAME imageUrl
                          hasDockerfile progressCallback ;;
         builtImageUrl <- first_image_name buildResult ;;
         service <- deployToCloudRun checkCloudRunServiceExists
                      (clients context) now projectId region serviceName
                      builtImageUrl progressCallback skipIamCheck ;;
         logAndProgress "Deployment Completed Successfully" progressCallback
           lvl_info ;;
         ret (Completed service))
        (deployment_failed progressCallback)
  end end end.

(** [deployImage]: [context] holds the two clients the function
    creates. *)
Definition deployImage (context : Context B) (now : Z)
    (projectId serviceName : option string) (region : string)
    (imageUrl : option string) (progressCallback skipIamCheck : bool)
    : M B (Completion ServiceRecord) :=
  match provided projectId with
  | None =>
      let errorMsg :=
        "Error: projectId is required in the configuration object."%string in
      logAndProgress errorMsg progressCallback lvl_error ;;
      throw (Error errorMsg)
  | Some projectId =>
  match provided serviceName with
  | None =>
      let errorMsg :=
        "Error: serviceName is required in the configuration object."%string in
      logAndProgress errorMsg progressCallback lvl_error ;;
      throw (Error errorMsg)
  | Some serviceName =>
  match provided imageUrl with
  | None =>
      let errorMsg :=
        "Error: imageUrl is required in the configuration object."%string in
      logAndProgress errorMsg progressCallback lvl_error ;;
      if process_exit then ret (Exited 1) else throw (Error errorMsg)
  | Some imageUrl =>
      try_catch
        (ensureApisEnabled context projectId REQUIRED_APIS_FOR_IMAGE_DEPLOY
           progressCallback ;;
         logAndProgress ("Project: " +++ projectId) progressCallback
           lvl_info ;;
         logAndProgress ("Region: " +++ region) progressCallback lvl_info ;;
         logAndProgress ("Service Name: " +++ serviceName) progressCallback
           lvl_info ;;
         logAndProgress ("Image URL: " +++ imageUrl) progressCallback
           lvl_info ;;
         service <- deployToCloudRun checkCloudRunServiceExists context now
                      projectId region serviceName imageUrl progressCallback
                      skipIamCheck ;;
         logAndProgress "Deployment Completed Successfully" progressCallback
           lvl_info ;;
         ret (Completed service))
        (deployment_failed progressCallback)
  end end end.

End Entries.

End Entry.

(** ** tools/register-tools.js *)

(** [`${value}`] for a property that may be left out. *)
Definition show_option (value : option string) : string :=
  match value with Some s => s | None => "undefined"%string end.

(** [v.prop]: a [TypeError] on [null] and [undefined], [undefined] (here
    [None]) where the property is absent. *)
Definition get_property (prop : string) (v : FileItem)
    : Outcome (option string) :=
  match v with
  | ItemNull =>
      Thrown (TypeError
        ("Cannot read properties of null (reading '" +++ prop +++ "')"))
  | ItemUndefined =>
      Thrown (TypeError
        ("Cannot read properties of undefined (reading '" +++ prop +++ "')"))
  | _ => Returned (property prop v)
  end.

(** One page of [getServiceLogs]: the text of the page and the options
    of the request for the next one, when they are there. *)
Record LogPage (Options : Type) : Type := {
  logs : option string;
  requestOptions : option Options
}.
Arguments logs {Options} l.
Arguments requestOptions {Options} l.

Module Tools.
Import Helpers Archive Entry.

Section Handlers.

Context {B : Type}.
Variable node : Node.
Variable checkCloudRunServiceExists :
  Context B -> string -> string -> string -> bool -> M B bool.
Variable process_exit : bool.

(** [`${error}`] for a thrown value. *)
Variable error_toString : JsError -> string.

(** [getServiceLogs] of lib/cloud-api/run.js, taken as given. *)
Context {Options : Type}.
Variable getServiceLogs :
  string -> string -> string -> option Options -> M B (LogPage Options).

(** A handler resolves with [{ content: [{ type: 'text', text }] }]: the
    model keeps [text]. *)

(** The [do ... while (requestOptions)] loop of the [get_service_log]
    handler; [fuel] bounds the number of pages the model fetches. *)
Fixpoint get_service_log_pages (fuel : nat) (project region service : string)
    (requestOptions_ : option Options) (allLogs : list string)
    : M B (list string) :=
  match fuel with
  | O => pending
  | S fuel' =>
      response <- getServiceLogs project region service requestOptions_ ;;
      let allLogs :=
        match logs response with
        | Some text => if truthy text then allLogs ++ [text] else allLogs
        | None => allLogs
        end in
      match requestOptions response with
      | Some next =>
          get_service_log_pages fuel' project region service (Some next)
            allLogs
      | None => ret allLogs
      end
  end.

Definition get_service_log (fuel : nat) (project region service : string)
    : M B string :=
  try_catch
    (allLogs <- get_service_log_pages fuel project region service None [] ;;
     ret (join newline allLogs))
    (fun error =>
       ret ("Error getting Logs for service " +++ service +++
            " in project " +++ project +++ " (region " +++ region +++
            "): " +++ show_message error)).

(** The [for (const file of files)] loop of the [deploy_file_contents]
    handler. *)
Fixpoint validate_file_contents (files : list FileItem) : Outcome unit :=
  match files with
  | [] => Returned tt
  | file :: rest =>
      match get_property "content" file with
      | Thrown e => Thrown e
      | Pending => Pending
      | Returned content =>
          if negb (match content with
                   | Some text => truthy text
                   | None => false
                   end)
          then
            Thrown (Error
              ("File " +++ show_option (property "filename" file) +++
               " must have content"))
          else validate_file_contents rest
      end
  end.

(** [error.message || error] inside a template literal. *)
Definition message_or_error (error : JsError) : string :=
  match message error with
  | Some m => if truthy m then m else error_toString error
  | None => error_toString error
  end.

(** The [deploy_file_contents] handler; [skipIamCheck] is
    [options.skipIamCheck], [project] and [files] are [None] for values
    that are not a string and not an array. The progress callback is the
    one [createProgressCallback] makes. *)
Definition deploy_file_contents (skipIamCheck : bool) (fuel : nat)
    (context : DeployContext B) (now : Z) (project : option string)
    (region : string) (service : option string)
    (files : option (list FileItem)) : M B (Completion string) :=
  match project with
  | None =>
      throw (Error
        "Project must specified, please prompt the user for a valid existing Google Cloud project ID.")
  | Some project =>
  match files with
  | None => throw (Error "Files must be specified")
  | Some [] => throw (Error "No files specified for deployment")
  | Some files =>
      settled (validate_file_contents files) ;;
      let progressCallback := true in
      try_catch
        (progress progressCallback lvl_info
           ("Starting deployment of file contents for service " +++
            show_option service +++ " in project " +++ project +++ "...") ;;
         response <- deploy node checkCloudRunServiceExists process_exit fuel
                       context now (Some project) service region (Some files)
                       progressCallback skipIamCheck ;;
         match response with
         | Exited exit_code => ret (Exited exit_code)
         | Completed response =>
             ret (Completed
               ("Cloud Run service " +++ show_option service +++
                " deployed in project " +++ project +++ newline +++
                "Cloud Console: https://console.cloud.google.com/run/detail/" +++
                region +++ "/" +++ show_option service +++ "?project=" +++
                project +++ newline +++
                "Service URL: " +++ uri response))
         end)
        (fun error =>
           ret (Completed
             ("Error deploying to Cloud Run: " +++ message_or_error error)))
  end end.

End Handlers.

End Tools.

(** * Vocabulary of the properties *)

Section RetryVocabulary.

Context {B A : Type}.

(** The first [n] invocations of an operation from backend state [b]:
    how each one ends and what it emits. *)
Fixpoint attempts (fn : M B A) (b : B) (n : nat)
    : list (Outcome A * list Event) :=
  match n with
  | O => []
  | S n' => let '(o, b', t) := fn b in (o, t) :: attempts fn b' n'
  end.

Definition outcomes (fn : M B A) (b : B) (n : nat) : list (Outcome A) :=
  map fst (attempts fn b n).

(** The backend after [n] invocations. *)
Fixpoint after (fn : M B A) (b : B) (n : nat) : B :=
  match n with
  | O => b
  | S n' => after fn (backend (fn b)) n'
  end.

End RetryVocabulary.

(** The error class the retry executor retries on. *)
Definition retryable (e : JsError) : bool := code_is e 7.

(** The backoff schedule as the specification words it: 15000 ms before
    the first retry, [1000 * 2^(n-2)] ms before retry [n >= 2]. *)
Definition retry_wait (n : Z) : Z :=
  if n =? 1 then 15000 else 1000 * 2 ^ (n - 2).

(** The warning printed before retry [n]. *)
Definition retry_warning (description : string) (n : Z) : string :=
  "API call " +++ dquote +++ description +++ dquote +++
  " failed with PERMISSION_DENIED. Retrying in " +++
  show (retry_wait n / 1000) +++ "s... (attempt " +++
  show n +++ "/" +++ show 7 +++ ")".

(** What the executor emits while retrying: after the events of failed
    attempt number [n + 1], a warning and the wait before retry [n + 1]. *)
Fixpoint retry_events (description : string) (n : Z)
    (failed : list (list Event)) : list Event :=
  match failed with
  | [] => []
  | t :: rest =>
      t ++ [Console console_warn (retry_warning description (n + 1));
            Sleep (retry_wait (n + 1))] ++
      retry_events description (n + 1) rest
  end.

(** The waits of a trace, in order. *)
Fixpoint sleeps (t : list Event) : list Z :=
  match t with
  | [] => []
  | Sleep ms :: r => ms :: sleeps r
  | _ :: r => sleeps r
  end.

(** The retry numbers [1 .. k]. *)
Definition retry_numbers (k : nat) : list Z := map Z.of_nat (seq 1 k).

(** ** Scripted backends

    A backend that answers from a script, as a test double does: each
    invocation consumes the next outcome; an exhausted script never
    answers. *)

Definition scripted {A : Type} : M (list (Outcome A)) A :=
  fun script =>
    match script with
    | [] => (Pending, [], [])
    | o :: rest => (o, rest, [])
    end.

Definition permission_denied : JsError :=
  {| message := Some "7 PERMISSION_DENIED: propagation"%string;
     code := Some 7 |}.

Definition not_found : JsError :=
  {| message := Some "5 NOT_FOUND"%string; code := Some 5 |}.

(** ** The activation gate *)

(** The capabilities whose state was fetched, with the state fetched. *)
Definition fetched (t : list Event) : list (string * string) :=
  flat_map (fun ev =>
    match ev with
    | GetServiceCall name (Returned service) => [(name, state service)]
    | _ => []
    end) t.

(** The capabilities [enableService] was called for. *)
Definition enable_calls (t : list Event) : list string :=
  flat_map (fun ev =>
    match ev with
    | EnableServiceCall name _ => [name]
    | _ => []
    end) t.

Definition not_enabled (p : string * string) : bool :=
  negb (snd p =? "ENABLED")%string.

(** Every remote call of the gate succeeds, whatever the backend state:
    [getService], [enableService] and the wait for its operation. *)
Definition gate_calls_succeed {B} (context : Context B) : Prop :=
  (forall name b, exists service,
      fst (serviceUsage_getService context name b) = Returned service) /\
  (forall name b, exists operation : Operation B unit,
      fst (serviceUsage_enableService context name b) = Returned operation /\
      forall b', fst (operation b') = Returned tt).

(** [`projects/${projectId}/services/${api}`]. *)
Definition api_service_name (projectId api : string) : string :=
  "projects/" +++ projectId +++ "/services/" +++ api.

(** The waits on the operations [enableService] started that ended well. *)
Definition enable_waits (t : list Event) : list string :=
  flat_map (fun ev =>
    match ev with
    | EnableOperationWait name (Returned _) => [name]
    | _ => []
    end) t.

(** What one check of a capability does to the backend when its calls
    succeed: [getService] is applied, and when the state it answers is
    not ENABLED, [enableService] is applied and then the operation it
    returns. The state fetched comes with the backend left. *)
Definition check_effect {B} (context : Context B) (name : string) (b : B)
    : string * B :=
  let got := serviceUsage_getService context name b in
  match fst got with
  | Returned service =>
      (state service,
       if (state service =? "ENABLED")%string then snd got
       else
         let started := serviceUsage_enableService context name (snd got) in
         match fst started with
         | Returned operation => snd (operation (snd started))
         | _ => snd started
         end)
  | _ => (EmptyString, snd got)
  end.

(** The same for a list of capabilities, one after the other: the names
    with the states fetched, and the backend left. *)
Fixpoint gate_effect {B} (context : Context B) (projectId : string)
    (apis : list string) (b : B) : list (string * string) * B :=
  match apis with
  | [] => ([], b)
  | api :: rest =>
      let name := api_service_name projectId api in
      let step := check_effect context name b in
      let later := gate_effect context projectId rest (snd step) in
      ((name, fst step) :: fst later, snd later)
  end.

(** What the gate emits when it starts, between the two attempts for a
    capability, and when the second attempt fails. *)
Definition gate_start (progressCallback : bool) : list Event :=
  Console console_log "Checking and enabling required APIs..." ::
  (if progressCallback
   then [Progress lvl_info "Checking and enabling required APIs..."]
   else []).

Definition gate_retry_notice (progressCallback : bool) (api : string)
    : list Event :=
  let warnMsg := "Failed to check/enable " +++ api +++ ", retrying in 1s..." in
  Console console_warn warnMsg ::
  (if progressCallback then [Progress lvl_warn warnMsg] else []) ++
  [Sleep 1000].

Definition gate_error (api : string) : string :=
  "Failed to ensure API [" +++ api +++
  "] is enabled after retry. Please check manually.".

Definition gate_failure (progressCallback : bool) (api : string)
    : list Event :=
  Console console_error (gate_error api) ::
  (if progressCallback then [Progress lvl_error (gate_error api)] else []).

(** A project whose APIs have a recorded state: [getService] reads it,
    [enableService] starts an operation that records ENABLED. *)
Definition ApiStates : Type := list (string * string).

Fixpoint api_state (b : ApiStates) (name : string) : string :=
  match b with
  | [] => "DISABLED"
  | (n, s) :: r => if (n =? name)%string then s else api_state r name
  end.

Definition project_context : Context ApiStates :=
  {| serviceUsage_getService := fun name b =>
       (Returned {| state := api_state b name |}, b);
     serviceUsage_enableService := fun name b =>
       (Returned (fun b' => (Returned tt, (name, "ENABLED"%string) :: b')), b);
     cloudBuild_createBuild := fun _ _ b => (Pending, b);
     cloudBuild_getBuild := fun _ _ b => (Pending, b);
     logging_getEntries := fun _ _ _ b => (Pending, b);
     run_locationPath := fun p l => p;
     run_servicePath := fun p l s => s;
     run_updateService := fun _ _ b => (Pending, b);
     run_createService := fun _ _ _ _ b => (Pending, b) |}.

(** What [logAndProgress] emits. *)
Definition log_events (msg : string) (progressCallback : bool)
    (severity : Severity) : list Event :=
  Console (match severity with
           | lvl_error => console_error
           | _ => console_log
           end) msg ::
  (if progressCallback then [Progress severity msg] else []).

(** ** The build poller *)

(** What one polling round emits for a build record whose status is not
    terminal: the [getBuild] call, the debug line, the 5000 ms wait. *)
Definition poll_round (progressCallback : bool) (projectId buildId : string)
    (record : Build) : list Event :=
  [GetBuildCall projectId buildId (Returned record)] ++
  log_events ("Build status: " +++ status record +++ ". Waiting...")
    progressCallback lvl_debug ++
  [Sleep 5000].

Definition poll_events (progressCallback : bool) (projectId buildId : string)
    (waiting : list Build) : list Event :=
  flat_map (poll_round progressCallback projectId buildId) waiting.

(** The wrapped [getBuild] call of the polling loop. *)
Definition getBuild_op {B} (context : Context B) (projectId buildId : string)
    : M B Build :=
  invoke (GetBuildCall projectId buildId)
    (cloudBuild_getBuild context projectId buildId).

(** The [getBuild] calls of a trace. *)
Definition getBuild_calls (t : list Event) : list (string * string) :=
  flat_map (fun ev =>
    match ev with
    | GetBuildCall projectId id _ => [(projectId, id)]
    | _ => []
    end) t.

(** The wrapped log fetch of the failure branch. *)
Definition getEntries_op {B} (context : Context B) (buildId : string)
    : M B (option (list LogEntry)) :=
  let logFilter :=
    "resource.type=" +++ dquote +++ "build" +++ dquote +++
    " AND resource.labels.build_id=" +++ dquote +++ buildId +++ dquote in
  invoke (GetEntriesCall logFilter "timestamp desc" 100)
    (logging_getEntries context logFilter "timestamp desc" 100).

(** The two texts the failure message can end with: the fetched lines in
    chronological order, or the pointer to the log URL. *)
Definition log_lines (entries : list LogEntry) : string :=
  join newline (map CloudBuild.entry_line (rev entries)).

Definition logs_snippet (buildId : string) (entries : list LogEntry)
    : string :=
  newline +++ newline +++ "Last " +++ show (Z.of_nat (length entries)) +++
  " log lines from build " +++ buildId +++ ":" +++ newline +++
  log_lines entries.

Definition url_fallback (completedBuild : Build) : string :=
  newline +++ newline +++ "Refer to Log URL for full details: " +++
  logUrl completedBuild.

(** The log fetches of a trace. *)
Definition getEntries_calls (t : list Event) : list (string * string * Z) :=
  flat_map (fun ev =>
    match ev with
    | GetEntriesCall filter orderBy pageSize _ => [(filter, orderBy, pageSize)]
    | _ => []
    end) t.

(** The build request [triggerCloudBuild] submits. *)
Definition build_request (sourceBucketName sourceBlobName targetImageUrl : string)
    (hasDockerfile : bool) : BuildRequest :=
  {| source_bucket := sourceBucketName;
     source_object := sourceBlobName;
     steps := CloudBuild.buildSteps targetImageUrl hasDockerfile;
     images := [targetImageUrl] |}.

(** The wrapped [createBuild] call of [triggerCloudBuild]. *)
Definition createBuild_op {B} (context : Context B) (projectId : string)
    (request : BuildRequest) : M B string :=
  invoke (CreateBuildCall projectId request)
    (cloudBuild_createBuild context projectId request).

(** The filter of the log fetch. *)
Definition build_log_filter (buildId : string) : string :=
  "resource.type=" +++ dquote +++ "build" +++ dquote +++
  " AND resource.labels.build_id=" +++ dquote +++ buildId +++ dquote.

(** A build backend that answers [getBuild] from a script and the log
    fetch with a fixed outcome. *)
Definition build_context (logs : Outcome (option (list LogEntry)))
    : Context (list (Outcome Build)) :=
  {| serviceUsage_getService := fun _ b => (Pending, b);
     serviceUsage_enableService := fun _ b => (Pending, b);
     cloudBuild_createBuild := fun _ _ b => (Returned "build-1"%string, b);
     cloudBuild_getBuild := fun _ _ b =>
       match b with
       | [] => (Pending, [])
       | o :: rest => (o, rest)
       end;
     logging_getEntries := fun _ _ _ b => (logs, b);
     run_locationPath := fun p l => p;
     run_servicePath := fun p l s => s;
     run_updateService := fun _ _ b => (Pending, b);
     run_createService := fun _ _ _ _ b => (Pending, b) |}.

(** A build backend whose [createBuild] and [getBuild] calls both answer
    from scripts, so that a submission can fail before it succeeds. *)
Record BuildScript : Type := {
  submissions : list (Outcome string);
  records : list (Outcome Build)
}.

Definition scripted_build_context (logs : Outcome (option (list LogEntry)))
    : Context BuildScript :=
  {| serviceUsage_getService := fun _ b => (Pending, b);
     serviceUsage_enableService := fun _ b => (Pending, b);
     cloudBuild_createBuild := fun _ _ b =>
       match submissions b with
       | [] => (Pending, b)
       | o :: rest => (o, {| submissions := rest; records := records b |})
       end;
     cloudBuild_getBuild := fun _ _ b =>
       match records b with
       | [] => (Pending, b)
       | o :: rest => (o, {| submissions := submissions b; records := rest |})
       end;
     logging_getEntries := fun _ _ _ b => (logs, b);
     run_locationPath := fun p l => p;
     run_servicePath := fun p l s => s;
     run_updateService := fun _ _ b => (Pending, b);
     run_createService := fun _ _ _ _ b => (Pending, b) |}.

Definition build_with (st : string) : Build :=
  {| build_id := "build-1";
     status := st;
     results_images := Some ["r-docker.pkg.dev/p/repo/s:latest"%string];
     logUrl := "https://console.example/logs/build-1" |}.

(** ** The service deployer *)

(** The service definition [deployToCloudRun] starts from. *)
Definition initial_service (serviceId : string) (now : Z) (imgUrl : string)
    (skipIamCheck : bool) : Service :=
  {| svc_name := None;
     revision := serviceId +++ "-" +++ show now;
     container_image := imgUrl;
     labels := [("created-by", "cloud-run-mcp")]%string;
     invokerIamDisabled := if skipIamCheck then Some true else None |}.

(** The validate-only call of the dry run and the call of the real
    mutation, each on the branch the exists-check chose. *)
Definition dry_run_call {B} (context : Context B)
    (projectId location serviceId : string) (service : Service)
    (exists_ : bool) : M B (Operation B ServiceRecord) :=
  if exists_ then
    let dryRunServiceConfig :=
      Deployer.set_name service
        (run_servicePath context projectId location serviceId) in
    Helpers.callWithRetry
      (invoke (fun r => UpdateServiceCall dryRunServiceConfig true (forget r))
         (run_updateService context dryRunServiceConfig true))
      ("updateService (dry run) " +++ serviceId)
  else
    Helpers.callWithRetry
      (invoke
         (fun r => CreateServiceCall
                     (run_locationPath context projectId location)
                     service serviceId true (forget r))
         (run_createService context
            (run_locationPath context projectId location)
            service serviceId true))
      ("createService (dry run) " +++ serviceId).

Definition real_mutation {B} (context : Context B)
    (projectId location serviceId : string) (service : Service)
    (exists_ : bool) : M B (Operation B ServiceRecord) :=
  if exists_ then
    let service :=
      Deployer.set_name service
        (run_servicePath context projectId location serviceId) in
    Helpers.callWithRetry
      (invoke (fun r => UpdateServiceCall service false (forget r))
         (run_updateService context service false))
      ("updateService " +++ serviceId)
  else
    Helpers.callWithRetry
      (invoke
         (fun r => CreateServiceCall
                     (run_locationPath context projectId location)
                     service serviceId false (forget r))
         (run_createService context
            (run_locationPath context projectId location)
            service serviceId false))
      ("createService " +++ serviceId).

(** The service definitions submitted by calls that are not validate-only,
    in order. *)
Definition real_mutations (t : list Event) : list Service :=
  flat_map (fun ev =>
    match ev with
    | UpdateServiceCall service false _ => [service]
    | CreateServiceCall _ service _ false _ => [service]
    | _ => []
    end) t.

(** The message mentions the invoker flag or an IAM policy violation,
    whatever the case of its letters. *)
Definition mentions_invoker (m : string) : bool :=
  includes (toLowerCase m) "invokeriamdisabled" ||
  includes (toLowerCase m) "iam policy violation".

(** The dry-run failures on which the deployer falls back: a message that
    is not empty, and either an invoker-related phrase in it or the
    invalid-argument code. *)
Definition invoker_rejection (e : JsError) : Prop :=
  exists m, message e = Some m /\ m <> EmptyString /\
            (mentions_invoker m = true \/ code e = Some 3).

(** The notice of the fallback. *)
Definition fallback_notice : string :=
  "Dry run suggests 'invokerIamDisabled' is not allowed or invalid. Attempting deployment without it.".

(** The message of the error thrown when the dry run is fatal. *)
Definition dry_run_failure (serviceId : string) (e : JsError) : string :=
  "Dry run validation failed for service " +++ serviceId +++ ": " +++
  show_message e.

(** What is logged from the start of the dry run to the decision taken on
    its failure. *)
Definition dry_run_failed_events (serviceId : string) (cb : bool)
    (dry : list Event) (e : JsError) : list Event :=
  log_events ("Performing dry run for service " +++ serviceId +++ "...")
    cb lvl_debug ++
  dry ++
  log_events ("Dry run for " +++ serviceId +++ " failed: " +++ show_message e)
    cb lvl_warn.

(** The steps of [deployToCloudRun] after the dry run, for the service
    definition the dry run left, and its outer [catch] handler. *)
Definition deploy_finish {B} (context : Context B)
    (projectId location serviceId : string) (cb exists_ : bool)
    (service : Service) : M B ServiceRecord :=
  operation <-
    (logAndProgress
       (if exists_ then "Updating existing service " +++ serviceId +++ "..."
        else "Creating new service " +++ serviceId +++ "...") cb lvl_info ;;
     real_mutation context projectId location serviceId service exists_) ;;
  logAndProgress ("Deploying " +++ serviceId +++ " to Cloud Run...")
    cb lvl_info ;;
  response <- invoke RunOperationWait operation ;;
  logAndProgress
    ("Service deployed/updated successfully: " +++ uri response)
    cb lvl_info ;;
  ret response.

Definition deploy_failure {B} (serviceId : string) (cb : bool)
    (error : JsError) : M B ServiceRecord :=
  console console_error
    ("Error deploying/updating service " +++ serviceId +++ ":") ;;
  logAndProgress
    ("Error deploying/updating service " +++ serviceId +++ ": " +++
     show_message error) cb lvl_error ;;
  throw error.

(** The call a real mutation starts with. *)
Definition mutation_event {B} (context : Context B)
    (projectId location serviceId : string) (service : Service)
    (exists_ : bool) (r : Outcome unit) : Event :=
  if exists_ then
    UpdateServiceCall
      (Deployer.set_name service
         (run_servicePath context projectId location serviceId)) false r
  else
    CreateServiceCall (run_locationPath context projectId location)
      service serviceId false r.

(** A Cloud Run backend whose validate-only calls are rejected with a
    given error and whose real calls succeed; the service does not exist
    yet. *)
Definition rejecting_context (dryRunError : JsError) : Context unit :=
  {| serviceUsage_getService := fun _ b => (Pending, b);
     serviceUsage_enableService := fun _ b => (Pending, b);
     cloudBuild_createBuild := fun _ _ b => (Pending, b);
     cloudBuild_getBuild := fun _ _ b => (Pending, b);
     logging_getEntries := fun _ _ _ b => (Pending, b);
     run_locationPath := fun p l => "projects/" +++ p +++ "/locations/" +++ l;
     run_servicePath := fun p l s =>
       "projects/" +++ p +++ "/locations/" +++ l +++ "/services/" +++ s;
     run_updateService := fun _ validateOnly b =>
       if validateOnly then (Thrown dryRunError, b)
       else (Returned (fun b' =>
               (Returned {| uri := "https://s.example.run.app" |}, b')), b);
     run_createService := fun _ _ _ validateOnly b =>
       if validateOnly then (Thrown dryRunError, b)
       else (Returned (fun b' =>
               (Returned {| uri := "https://s.example.run.app" |}, b')), b) |}.

Definition service_absent : Context unit -> string -> string -> string ->
    bool -> M unit bool :=
  fun _ _ _ _ _ => ret false.

Definition invalid_argument (m : option string) : JsError :=
  {| message := m; code := Some 3 |}.

(** ** The packager and the Dockerfile detection *)

(** The path [zipFiles] resolves for a string item. *)
Definition zip_path (node : Node) (file : string) : string :=
  path_resolve node (if startsWith file "/c" then "/mnt" +++ file else file).

(** An item with neither shape the packager accepts: not a string, and
    not an object bearing both [filename] and [content]. *)
Definition neither_shape (file : FileItem) : Prop :=
  match file with
  | ItemString _ => False
  | ItemObject (Some _) (Some _) => False
  | _ => True
  end.

(** The name an item of an explicit file list is known by: the path
    string, or the [filename] property when it is there and not empty. *)
Definition item_name (file : FileItem) : option string :=
  match file with
  | ItemString s => Some s
  | ItemObject (Some filename) _ =>
      if truthy filename then Some filename else None
  | _ => None
  end.

(** The base name of the item is "dockerfile", whatever the case. *)
Definition dockerfile_item (node : Node) (file : FileItem) : bool :=
  match item_name file with
  | Some name =>
      (toLowerCase (path_basename node name) =? "dockerfile")%string
  | None => false
  end.

(** The input is not a single directory: when it is a single string, that
    path exists and is not a directory. *)
Definition explicit_file_list (node : Node) (files : list FileItem) : Prop :=
  forall dir, files = [ItemString dir] ->
              fs_statSync_isDirectory node dir = inr false.

(** ** A POSIX platform

    The [path] module of Node.js for POSIX paths, and a file system given
    by the absolute paths that exist: [dirs] the directories, [regular]
    the other files. Names are compared as they are written when the
    file system is case-sensitive, and whatever the case of their letters
    when it is not. *)

Fixpoint last_segment (s cur last : string) : string :=
  match s with
  | EmptyString => if truthy cur then cur else last
  | String c r =>
      if Ascii.eqb c "/"%char
      then last_segment r EmptyString (if truthy cur then cur else last)
      else last_segment r (cur +++ String c EmptyString) last
  end.

Definition posix_basename (p : string) : string :=
  last_segment p EmptyString EmptyString.

(** The pieces of a path between its separators. *)
Fixpoint segments (s cur : string) : list string :=
  match s with
  | EmptyString => [cur]
  | String c r =>
      if Ascii.eqb c "/"%char then cur :: segments r EmptyString
      else segments r (cur +++ String c EmptyString)
  end.

(** [normalizeString]: empty pieces and "." are dropped, ".." removes
    the piece before it, and is kept only where the path may climb above
    its start. [done] holds the pieces kept so far, last first. *)
Fixpoint normalize_segments (allowAboveRoot : bool)
    (todo done : list string) : list string :=
  match todo with
  | [] => rev done
  | piece :: rest =>
      if ((piece =? "") || (piece =? "."))%string then
        normalize_segments allowAboveRoot rest done
      else if (piece =? "..")%string then
        match done with
        | last :: before =>
            if (last =? "..")%string
            then normalize_segments allowAboveRoot rest (piece :: done)
            else normalize_segments allowAboveRoot rest before
        | [] =>
            if allowAboveRoot
            then normalize_segments allowAboveRoot rest [piece]
            else normalize_segments allowAboveRoot rest []
        end
      else normalize_segments allowAboveRoot rest (piece :: done)
  end.

Fixpoint ends_with_slash (p : string) : bool :=
  match p with
  | EmptyString => false
  | String c EmptyString => Ascii.eqb c "/"%char
  | String _ r => ends_with_slash r
  end.

(** [path.normalize]. *)
Definition posix_normalize (p : string) : string :=
  if truthy p then
    let isAbsolute := startsWith p "/" in
    let body :=
      join "/" (normalize_segments (negb isAbsolute)
                  (segments p EmptyString) []) in
    if truthy body then
      (if isAbsolute then "/" else EmptyString) +++ body +++
      (if ends_with_slash p then "/" else EmptyString)
    else if isAbsolute then "/"
    else if ends_with_slash p then "./" else "."
  else ".".

(** [path.join(a, b)]. *)
Definition posix_join (a b : string) : string :=
  if truthy a then
    if truthy b then posix_normalize (a +++ "/" +++ b)
    else posix_normalize a
  else if truthy b then posix_normalize b else ".".

(** [path.resolve(p)] in the working directory [cwd], an absolute
    path. *)
Definition posix_resolve (cwd p : string) : string :=
  let from := if startsWith p "/" then p else cwd +++ "/" +++ p in
  "/" +++ join "/" (normalize_segments false (segments from EmptyString) []).

(** Two paths name the same file. *)
Definition same_file (sensitive : bool) (p q : string) : bool :=
  if sensitive then (p =? q)%string
  else (toLowerCase p =? toLowerCase q)%string.

(** [JSON.stringify] inside a template literal, for text that needs no
    escaping. *)
Definition json_string (s : string) : string := dquote +++ s +++ dquote.

Definition json_text (v : FileItem) : string :=
  match v with
  | ItemString s => json_string s
  | ItemObject filename content =>
      "{" +++
      join ","
        ((match filename with
          | Some f => [json_string "filename" +++ ":" +++ json_string f]
          | None => []
          end) ++
         (match content with
          | Some c => [json_string "content" +++ ":" +++ json_string c]
          | None => []
          end)) +++
      "}"
  | ItemNull => "null"
  | ItemNumber n => show n
  | ItemBoolean true => "true"
  | ItemBoolean false => "false"
  | ItemUndefined => "undefined"
  end.

Definition file_system_node (sensitive : bool) (cwd : string)
    (dirs regular : list string) : Node :=
  {| path_resolve := posix_resolve cwd;
     path_basename := posix_basename;
     path_join := posix_join;
     fs_existsSync := fun p =>
       existsb (same_file sensitive (posix_resolve cwd p)) (dirs ++ regular);
     fs_statSync_isDirectory := fun p =>
       if existsb (same_file sensitive (posix_resolve cwd p)) dirs
       then inr true
       else if existsb (same_file sensitive (posix_resolve cwd p)) regular
       then inr false
       else inl {| message :=
                     Some ("ENOENT: no such file or directory, stat '" +++
                           p +++ "'");
                   code := None |};
     JSON_stringify := json_text;
     archive_pointer := fun entries => 22 + 100 * Z.of_nat (length entries) |}.

(** A case-sensitive file system, with the working directory at its
    root. *)
Definition posix_node (dirs regular : list string) : Node :=
  file_system_node true "/" dirs regular.

(** The ways of writing a word in upper- and lower-case letters. *)
Definition upper_ascii (c : ascii) : ascii :=
  let n := nat_of_ascii c in
  if ((97 <=? n)%nat && (n <=? 122)%nat)%bool then ascii_of_nat (n - 32) else c.

Fixpoint spellings (word : string) : list string :=
  match word with
  | EmptyString => [EmptyString]
  | String c rest =>
      flat_map (fun written =>
        if Ascii.eqb (lower_ascii c) (upper_ascii c)
        then [String c written]
        else [String (lower_ascii c) written; String (upper_ascii c) written])
        (spellings rest)
  end.

(** The detection ended with the given flag. *)
Definition detected (o : Outcome bool) (flag : bool) : bool :=
  match o with
  | Returned found => Bool.eqb found flag
  | _ => false
  end.

(** A directory [/app] whose one file is a Dockerfile written [name]:
    the detection runs on the directory and on the file given in an
    explicit list, on a file system that is case-sensitive or not. *)
Definition app_with (sensitive : bool) (name : string) : Node :=
  file_system_node sensitive "/" ["/app"%string] ["/app/" +++ name].

Definition spelling_missed (name : string) : bool :=
  (toLowerCase name =? "dockerfile")%string &&
  detected (Deployer.deploy_hasDockerfile (app_with true name)
              [ItemString "/app"]) false &&
  detected (Deployer.deploy_hasDockerfile (app_with true name)
              [ItemString ("/app/" +++ name)]) true &&
  detected (Deployer.deploy_hasDockerfile (app_with false name)
              [ItemString "/app"]) true.

(** Equality of traces up to the association of [++]. *)
Ltac trace_eq :=
  repeat first [rewrite <- app_assoc | rewrite app_nil_r | progress cbn [app]];
  reflexivity.

(** A Service Usage backend that answers [getService] from a script;
    [enableService] and its operation succeed. *)
Definition gate_context : Context (list (Outcome ApiService)) :=
  {| serviceUsage_getService := fun _ b =>
       match b with
       | [] => (Pending, [])
       | o :: rest => (o, rest)
       end;
     serviceUsage_enableService := fun _ b =>
       (Returned (fun b' => (Returned tt, b')), b);
     cloudBuild_createBuild := fun _ _ b => (Pending, b);
     cloudBuild_getBuild := fun _ _ b => (Pending, b);
     logging_getEntries := fun _ _ _ b => (Pending, b);
     run_locationPath := fun p l => p;
     run_servicePath := fun p l s => s;
     run_updateService := fun _ _ b => (Pending, b);
     run_createService := fun _ _ _ _ b => (Pending, b) |}.

(** ** Two claims as the specification words them *)

(** The dry-run fallback as worded: with the bypass flag set, a dry-run
    error whose message contains an invoker-related phrase, or whose code
    is invalid-argument, makes the deployer submit a real mutation. *)
Definition fallback_as_worded : Prop :=
  forall (B : Type) checkCloudRunServiceExists (context : Context B)
         (now : Z) (projectId location serviceId imgUrl : string)
         (cb exists_ : bool) (b b1 b2 : B) (t1 t2 : list Event) (e : JsError),
    checkCloudRunServiceExists context projectId location serviceId cb b =
      (Returned exists_, b1, t1) ->
    dry_run_call context projectId location serviceId
      (initial_service serviceId now imgUrl true) exists_ b1 =
      (Thrown e, b2, t2) ->
    (exists m, message e = Some m /\ mentions_invoker m = true) \/
    code e = Some 3 ->
    real_mutations
      (events (Deployer.deployToCloudRun checkCloudRunServiceExists context
                 now projectId location serviceId imgUrl cb true b)) <>
    real_mutations t1.

(** ** More vocabulary for the retry executor *)

(** The seven waits of a retry sequence that runs to its end. *)
Definition backoff_waits : list Z :=
  [15000; 1000; 2000; 4000; 8000; 16000; 32000].

Definition total (l : list Z) : Z := fold_right Z.add 0 l.

(** ** More vocabulary for the packager *)

(** The archive entry that stands for an input item: a folder goes in
    with no destination folder, a file under its base name, a content
    item under the name it gives. *)
Definition entry_for (node : Node) (file : FileItem) (entry : ArchiveEntry)
    : Prop :=
  match file, entry with
  | ItemString s, Directory dirpath destpath =>
      dirpath = zip_path node s /\ destpath = None /\
      fs_statSync_isDirectory node (zip_path node s) = inr true
  | ItemString s, File filepath name =>
      filepath = zip_path node s /\
      name = path_basename node (zip_path node s) /\
      fs_statSync_isDirectory node (zip_path node s) = inr false
  | ItemObject (Some filename) (Some content), Append c n =>
      c = Some content /\ n = Some filename
  | _, _ => False
  end.

(** ** More backends *)

(** A backend none of whose calls gets through: each one is rejected
    with the given error. *)
Definition failing_context (e : JsError) : Context unit :=
  {| serviceUsage_getService := fun _ b => (Thrown e, b);
     serviceUsage_enableService := fun _ b => (Thrown e, b);
     cloudBuild_createBuild := fun _ _ b => (Thrown e, b);
     cloudBuild_getBuild := fun _ _ b => (Thrown e, b);
     logging_getEntries := fun _ _ _ b => (Thrown e, b);
     run_locationPath := fun p l => "projects/" +++ p +++ "/locations/" +++ l;
     run_servicePath := fun p l s =>
       "projects/" +++ p +++ "/locations/" +++ l +++ "/services/" +++ s;
     run_updateService := fun _ _ b => (Thrown e, b);
     run_createService := fun _ _ _ _ b => (Thrown e, b) |}.

Definition unavailable : JsError :=
  {| message := Some "14 UNAVAILABLE"%string; code := Some 14 |}.

(** A project all of whose APIs are enabled and whose Cloud Run backend
    accepts every call, validate-only or not. *)
Definition accepting_context : Context unit :=
  {| serviceUsage_getService := fun _ b =>
       (Returned {| state := "ENABLED" |}, b);
     serviceUsage_enableService := fun _ b =>
       (Returned (fun b' => (Returned tt, b')), b);
     cloudBuild_createBuild := fun _ _ b => (Pending, b);
     cloudBuild_getBuild := fun _ _ b => (Pending, b);
     logging_getEntries := fun _ _ _ b => (Pending, b);
     run_locationPath := fun p l => "projects/" +++ p +++ "/locations/" +++ l;
     run_servicePath := fun p l s =>
       "projects/" +++ p +++ "/locations/" +++ l +++ "/services/" +++ s;
     run_updateService := fun _ _ b =>
       (Returned (fun b' =>
          (Returned {| uri := "https://s.example.run.app" |}, b')), b);
     run_createService := fun _ _ _ _ b =>
       (Returned (fun b' =>
          (Returned {| uri := "https://s.example.run.app" |}, b')), b) |}.

(** A build record with status SUCCESS and no [results]. *)
Definition build_without_image : Build :=
  {| build_id := "build-1";
     status := "SUCCESS";
     results_images := None;
     logUrl := "https://console.example/logs/build-1" |}.

(** ** Vocabulary for the pipeline *)

(** The messages written with [console.error], in order. *)
Definition reported_errors (t : list Event) : list string :=
  flat_map (fun ev =>
    match ev with
    | Console console_error msg => [msg]
    | _ => []
    end) t.

(** A [createService] or [updateService] call on the Cloud Run client,
    validate-only or not, or the wait on the operation of one. *)
Definition is_run_call (ev : Event) : bool :=
  match ev with
  | UpdateServiceCall _ _ _ => true
  | CreateServiceCall _ _ _ _ _ => true
  | RunOperationWait _ => true
  | _ => false
  end.

(** An event that is not a [console.error] line. *)
Definition not_console_error (ev : Event) : bool :=
  match ev with
  | Console console_error _ => false
  | _ => true
  end.

(** A [getBuild] call that returned a record with status SUCCESS, and
    whether a trace has one. *)
Definition is_build_success (ev : Event) : bool :=
  match ev with
  | GetBuildCall _ _ (Returned record) => (status record =? "SUCCESS")%string
  | _ => false
  end.

Definition build_succeeded (t : list Event) : bool :=
  existsb is_build_success t.

(** The closing line of the gate, and whether a trace has it. *)
Definition is_gate_passed (ev : Event) : bool :=
  match ev with
  | Console console_log msg =>
      (msg =? "All required APIs are enabled.")%string
  | _ => false
  end.

Definition gate_passed (t : list Event) : bool := existsb is_gate_passed t.

(** In every run of [m], a [createService] or [updateService] call, or
    the wait on its operation, comes after an event that passes [test]. *)
Definition run_calls_follow {B A} (test : Event -> bool) (m : M B A) : Prop :=
  forall b t1 ev t2,
    events (m b) = t1 ++ ev :: t2 -> is_run_call ev = true ->
    existsb test t1 = true.

(** Every event of every run of [m] satisfies [P]. *)
Definition emits_only {B A} (P : Event -> bool) (m : M B A) : Prop :=
  forall b, forallb P (events (m b)) = true.

(** What [deployment_failed] emits. *)
Definition deployment_failed_events (progressCallback : bool) (e : JsError)
    : list Event :=
  Console console_error "Deployment Failed" ::
  log_events ("Deployment Failed: " +++ show_message e) progressCallback
    lvl_error.

(** ** A project in memory

    Buckets, repositories and stored objects are recorded; every API is
    enabled, a submitted build succeeds at the first poll with the given
    image name, and Cloud Run accepts every call. *)
Record Cloud : Type := {
  cloud_buckets : list string;
  cloud_repositories : list string;
  cloud_objects : list (string * string * Buffer)
}.

Definition empty_cloud : Cloud :=
  {| cloud_buckets := []; cloud_repositories := []; cloud_objects := [] |}.

Definition built (image : string) : Build :=
  {| build_id := "build-1";
     status := "SUCCESS";
     results_images := Some [image];
     logUrl := "https://console.example/logs/build-1" |}.

Definition cloud_clients (image : string) : Context Cloud :=
  {| serviceUsage_getService := fun _ b =>
       (Returned {| state := "ENABLED" |}, b);
     serviceUsage_enableService := fun _ b =>
       (Returned (fun b' => (Returned tt, b')), b);
     cloudBuild_createBuild := fun _ _ b => (Returned "build-1"%string, b);
     cloudBuild_getBuild := fun _ _ b => (Returned (built image), b);
     logging_getEntries := fun _ _ _ b => (Returned None, b);
     run_locationPath := fun p l => "projects/" +++ p +++ "/locations/" +++ l;
     run_servicePath := fun p l s =>
       "projects/" +++ p +++ "/locations/" +++ l +++ "/services/" +++ s;
     run_updateService := fun _ _ b =>
       (Returned (fun b' =>
          (Returned {| uri := "https://s.example.run.app" |}, b')), b);
     run_createService := fun _ _ _ _ b =>
       (Returned (fun b' =>
          (Returned {| uri := "https://s.example.run.app" |}, b')), b) |}.

Definition cloud_storage : StorageClient Cloud :=
  {| bucket_exists := fun name b =>
       (Returned (existsb (String.eqb name) (cloud_buckets b)), b);
     createBucket := fun name location b =>
       (Returned {| bucket_name := name |},
        {| cloud_buckets := cloud_buckets b ++ [name];
           cloud_repositories := cloud_repositories b;
           cloud_objects := cloud_objects b |});
     bucket_file_save := fun bucket blob buffer b =>
       (Returned tt,
        {| cloud_buckets := cloud_buckets b;
           cloud_repositories := cloud_repositories b;
           cloud_objects := cloud_objects b ++ [(bucket, blob, buffer)] |}) |}.

Definition cloud_registry : ArtifactRegistryClient Cloud :=
  {| repositoryPath := fun p l r =>
       "projects/" +++ p +++ "/locations/" +++ l +++ "/repositories/" +++ r;
     getRepository := fun name b =>
       if existsb (String.eqb name) (cloud_repositories b)
       then (Returned {| repo_name := name |}, b)
       else (Thrown not_found, b);
     createRepository := fun parent format repositoryId b =>
       (Returned (fun b' =>
          (Returned {| repo_name := parent +++ "/repositories/" +++
                                    repositoryId |},
           {| cloud_buckets := cloud_buckets b';
              cloud_repositories :=
                cloud_repositories b' ++
                [parent +++ "/repositories/" +++ repositoryId];
              cloud_objects := cloud_objects b' |})), b) |}.

Definition cloud_context (image : string) : DeployContext Cloud :=
  {| clients := cloud_clients image;
     storage := cloud_storage;
     artifactRegistryClient := cloud_registry |}.

(** A project whose storage rejects the creation of buckets, and one
    whose registry cannot be read. *)
Definition cloud_without_bucket_creation (e : JsError)
    : DeployContext Cloud :=
  {| clients := cloud_clients "img";
     storage :=
       {| bucket_exists := bucket_exists cloud_storage;
          createBucket := fun _ _ b => (Thrown e, b);
          bucket_file_save := fun _ _ _ b => (Thrown e, b) |};
     artifactRegistryClient :=
       {| repositoryPath := repositoryPath cloud_registry;
          getRepository := fun _ b => (Thrown e, b);
          createRepository := fun _ _ _ b => (Thrown e, b) |} |}.

(** A project whose registry has no repository and rejects the creation
    of one. *)
Definition cloud_without_repository_creation (e : JsError)
    : DeployContext Cloud :=
  {| clients := cloud_clients "img";
     storage := cloud_storage;
     artifactRegistryClient :=
       {| repositoryPath := repositoryPath cloud_registry;
          getRepository := fun _ b => (Thrown not_found, b);
          createRepository := fun _ _ _ b => (Thrown e, b) |} |}.

(** The service is reported absent, whatever the backend. *)
Definition absent {B} : Context B -> string -> string -> string -> bool ->
    M B bool :=
  fun _ _ _ _ _ => ret false.

(** An event that is not one of those [is_run_call] accepts. *)
Definition not_run_call (ev : Event) : bool := negb (is_run_call ev).

(** ** Vocabulary for the tool handlers *)

(** The texts of the pages that have one. *)
Definition kept_logs {Options} (pages : list (LogPage Options))
    : list string :=
  flat_map (fun page =>
    match logs page with
    | Some text => if truthy text then [text] else []
    | None => []
    end) pages.

(** [pages] are what successive calls of [fetch] return from backend [b]
    on, each call made with the options the page before came with, and
    the last page is the first that comes with none. *)
Fixpoint fetched_pages {B Options}
    (fetch : option Options -> M B (LogPage Options))
    (options : option Options) (b : B) (pages : list (LogPage Options))
    : Prop :=
  match pages with
  | [] => False
  | page :: rest =>
      outcome (fetch options b) = Returned page /\
      match rest with
      | [] => requestOptions page = None
      | _ :: _ =>
          requestOptions page <> None /\
          fetched_pages fetch (requestOptions page)
            (backend (fetch options b)) rest
      end
  end.

(** An item as the input schema of [deploy_file_contents] admits it: an
    object with a [filename]. *)
Definition file_object (file : FileItem) : bool :=
  match file with
  | ItemObject (Some _) _ => true
  | _ => false
  end.

(** A log service that answers from a script of pages. *)
Definition scripted_logs : string -> string -> string -> option unit ->
    M (list (Outcome (LogPage unit))) (LogPage unit) :=
  fun _ _ _ _ => scripted.

(** What the packager adds for a file given by its content. *)
Definition appended (file : FileItem) : ArchiveEntry :=
  Append (property "content" file) (property "filename" file).

(** The answer of the deploy tools on success. *)
Definition deployed_text (service : option string) (project region : string)
    (response : ServiceRecord) : string :=
  "Cloud Run service " +++ show_option service +++
  " deployed in project " +++ project +++ newline +++
  "Cloud Console: https://console.cloud.google.com/run/detail/" +++
  region +++ "/" +++ show_option service +++ "?project=" +++
  project +++ newline +++
  "Service URL: " +++ uri response.

(** A deployment: one file given by its content, and the image tag
    [deploy] requests for service [s] of project [p] in region [r]. *)
Definition sample_files : list FileItem :=
  [ItemObject (Some "Dockerfile"%string) (Some "FROM scratch"%string)].

Definition sample_image : string :=
  "r-docker.pkg.dev/p/mcp-cloud-run-deployments/s:latest".

(** * Properties *)

(** ** Strings *)

Lemma append_assoc (a b c : string) : (a +++ b) +++ c = a +++ b +++ c.
Proof.
  induction a as [|x a IH]; simpl; [reflexivity|now rewrite IH].
Qed.

Lemma prefix_append (s t : string) : String.prefix s (s +++ t) = true.
Proof.
  induction s as [|c s IH]; simpl.
  - now destruct t.
  - destruct (ascii_dec c c) as [_|n]; [exact IH|now elim n].
Qed.

Lemma includes_here (s t : string) : includes (s +++ t) s = true.
Proof.
  destruct s as [|c s]; simpl.
  - now destruct t.
  - destruct (ascii_dec c c) as [_|n]; [|now elim n].
    now rewrite prefix_append.
Qed.

Lemma includes_skip (a s sub : string) :
  includes s sub = true -> includes (a +++ s) sub = true.
Proof.
  intros H. induction a as [|c a IH]; [exact H|].
  cbn [String.append includes]. rewrite IH.
  now destruct (String.prefix sub (String c (a +++ s))).
Qed.

Lemma includes_append (a s b : string) : includes (a +++ s +++ b) s = true.
Proof. apply includes_skip, includes_here. Qed.

Lemma append_empty (s : string) : s +++ EmptyString = s.
Proof. induction s; simpl; [reflexivity|now f_equal]. Qed.

Lemma includes_refl (s : string) : includes s s = true.
Proof. rewrite <- (append_empty s) at 1. apply includes_here. Qed.

Lemma includes_suffix (a s : string) : includes (a +++ s) s = true.
Proof. apply includes_skip, includes_refl. Qed.

(** ** The retry executor *)

Section RetryFacts.

Context {B A : Type}.
Variable fn : M B A.
Variable description : string.

Import Helpers.

(** One iteration of the loop. *)
Lemma callWithRetry_loop_step (fuel : nat) (retries : Z) (b : B) :
  callWithRetry_loop (S fuel) fn description retries b =
  match fn b with
  | (Thrown e, b1, t1) =>
      if (retryable e && (retries <? maxRetries))%bool then
        let r := callWithRetry_loop fuel fn description (retries + 1) b1 in
        (outcome r, backend r,
         t1 ++ [Console console_warn (retry_warning description (retries + 1));
                Sleep (retry_wait (retries + 1))] ++ events r)
      else (Thrown e, b1, t1)
  | r => r
  end.
Proof.
  cbn [callWithRetry_loop]. unfold try_catch.
  destruct (fn b) as [[o b1] t1]. destruct o as [a|e|]; try reflexivity.
  unfold retryable.
  destruct (code_is e 7 && (retries <? maxRetries))%bool.
  - unfold bind, console, sleep, emit.
    destruct (callWithRetry_loop fuel fn description (retries + 1) b1)
      as [[o2 b2] t2].
    reflexivity.
  - unfold throw. now rewrite app_nil_r.
Qed.

Lemma attempts_length (b : B) (n : nat) : length (attempts fn b n) = n.
Proof.
  revert b. induction n as [|n IH]; intros b; simpl; [reflexivity|].
  destruct (fn b) as [[o b1] t1]. simpl. now rewrite IH.
Qed.

Lemma outcomes_S (b : B) (n : nat) :
  outcomes fn b (S n) = outcome (fn b) :: outcomes fn (backend (fn b)) n.
Proof.
  unfold outcomes. simpl. now destruct (fn b) as [[o b1] t1].
Qed.

Lemma attempts_snoc (b : B) (n : nat) :
  attempts fn b (S n) =
  attempts fn b n ++
  [(outcome (fn (after fn b n)), events (fn (after fn b n)))].
Proof.
  revert b. induction n as [|n IH]; intros b.
  - simpl. now destruct (fn b) as [[o b1] t1].
  - change (attempts fn b (S (S n)))
      with (let '(o, b', t) := fn b in (o, t) :: attempts fn b' (S n)).
    change (attempts fn b (S n))
      with (let '(o, b', t) := fn b in (o, t) :: attempts fn b' n).
    change (after fn b (S n)) with (after fn (backend (fn b)) n).
    destruct (fn b) as [[o b1] t1]. rewrite IH. reflexivity.
Qed.

Lemma after_snoc (b : B) (n : nat) :
  after fn b (S n) = backend (fn (after fn b n)).
Proof.
  revert b. induction n as [|n IH]; intros b; [reflexivity|].
  change (after fn b (S (S n))) with (after fn (backend (fn b)) (S n)).
  now rewrite IH.
Qed.

Lemma outcomes_snoc (b : B) (n : nat) :
  outcomes fn b (S n) = outcomes fn b n ++ [outcome (fn (after fn b n))].
Proof.
  unfold outcomes. rewrite attempts_snoc, map_app. reflexivity.
Qed.

(** While the operation keeps failing with the retryable class and retries
    remain, the loop emits the retry events and goes on from the backend
    those attempts left. *)
Lemma callWithRetry_loop_retrying (es : list JsError) :
  forall (fuel : nat) (retries : Z) (b : B),
    outcomes fn b (length es) = map Thrown es ->
    forallb retryable es = true ->
    0 <= retries ->
    retries + Z.of_nat (length es) <= maxRetries ->
    callWithRetry_loop (length es + fuel) fn description retries b =
    let r := callWithRetry_loop fuel fn description
               (retries + Z.of_nat (length es)) (after fn b (length es)) in
    (outcome r, backend r,
     retry_events description retries
       (map snd (attempts fn b (length es))) ++ events r).
Proof.
  induction es as [|e es IH]; intros fuel retries b Hout Hre Hr Hle.
  - cbn [length Nat.add after attempts map retry_events app].
    rewrite Z.add_0_r.
    now destruct (callWithRetry_loop fuel fn description retries b)
      as [[o b1] t1].
  - cbn [length] in *. rewrite outcomes_S in Hout. cbn [map] in Hout.
    injection Hout as Ho Hout'.
    cbn [forallb] in Hre. apply andb_true_iff in Hre as [He Hre].
    cbn [Nat.add]. rewrite callWithRetry_loop_step.
    cbn [attempts after].
    destruct (fn b) as [[o b1] t1]. unfold outcome, backend in *.
    cbn [fst snd] in *. subst o. rewrite He.
    replace (retries <? maxRetries) with true
      by (symmetry; apply Z.ltb_lt; lia).
    cbn [andb]. rewrite IH by (try assumption; lia).
    cbn [map snd retry_events]. cbv zeta.
    replace (retries + 1 + Z.of_nat (length es))
      with (retries + Z.of_nat (S (length es))) by lia.
    unfold outcome, backend, events. cbn [fst snd].
    f_equal. rewrite <- !app_assoc. reflexivity.
Qed.

End RetryFacts.

Section RetryTheorems.

Context {B A : Type}.
Variable fn : M B A.
Variable description : string.

Import Helpers.

(** The loop never needs more iterations than [callWithRetry] allows it:
    with more fuel the result is the same. *)
Lemma callWithRetry_loop_fuel (fuel : nat) (retries : Z) (b : B) :
  0 <= retries <= maxRetries ->
  (Z.to_nat (maxRetries - retries) < fuel)%nat ->
  callWithRetry_loop (S fuel) fn description retries b =
  callWithRetry_loop fuel fn description retries b.
Proof.
  revert retries b. induction fuel as [|fuel IH]; intros retries b Hr Hf.
  - lia.
  - rewrite (callWithRetry_loop_step fn description (S fuel)),
      (callWithRetry_loop_step fn description fuel).
    destruct (fn b) as [[o b1] t1]. destruct o as [a|e|]; try reflexivity.
    destruct (retryable e); cbn [andb]; [|reflexivity].
    destruct (Z.ltb_spec retries maxRetries) as [Hlt|Hge]; [|reflexivity].
    rewrite IH by lia. reflexivity.
Qed.

Lemma sleeps_app (t u : list Event) : sleeps (t ++ u) = sleeps t ++ sleeps u.
Proof.
  induction t as [|e t IH]; [reflexivity|].
  destruct e; cbn [app sleeps]; rewrite IH; reflexivity.
Qed.

Lemma sleeps_retry_events (failed : list (list Event)) :
  forall n : Z,
    Forall (fun t => sleeps t = []) failed ->
    sleeps (retry_events description n failed) =
    map (fun i => retry_wait (n + i)) (retry_numbers (length failed)).
Proof.
  unfold retry_numbers.
  induction failed as [|t failed IH]; intros n Hno; [reflexivity|].
  inversion Hno as [|? ? Ht Hrest]; subst.
  cbn [retry_events length seq map]. rewrite !sleeps_app, Ht.
  cbn [sleeps app]. rewrite (IH (n + 1) Hrest).
  f_equal. rewrite <- (seq_shift (length failed) 1), !map_map.
  apply map_ext. intros i. f_equal. lia.
Qed.

(** C3. Whatever the wrapped operation does: if it fails with the
    retryable class at most 7 times and then succeeds, [callWithRetry]
    returns that value; if its first 8 invocations all fail with the
    retryable class, [callWithRetry] throws the error of the 8th and last
    one; and if an invocation fails with an error of another class,
    [callWithRetry] throws that very error at once, with no further
    invocation. *)
Theorem callWithRetry_outcome_sequences (b : B) :
  (forall (es : list JsError) (v : A),
      Z.of_nat (length es) <= 7 ->
      forallb retryable es = true ->
      outcomes fn b (S (length es)) = map Thrown es ++ [Returned v] ->
      outcome (callWithRetry fn description b) = Returned v) /\
  (forall (es : list JsError) (e : JsError),
      length es = 7%nat ->
      forallb retryable (es ++ [e]) = true ->
      outcomes fn b 8 = map Thrown (es ++ [e]) ->
      outcome (callWithRetry fn description b) = Thrown e /\
      backend (callWithRetry fn description b) = after fn b 8) /\
  (forall (es : list JsError) (e : JsError),
      Z.of_nat (length es) <= 7 ->
      forallb retryable es = true ->
      retryable e = false ->
      outcomes fn b (S (length es)) = map Thrown es ++ [Thrown e] ->
      outcome (callWithRetry fn description b) = Thrown e /\
      backend (callWithRetry fn description b) = after fn b (S (length es))).
Proof.
  assert (Hsplit : forall (es : list JsError) (o : Outcome A),
            outcomes fn b (S (length es)) = map Thrown es ++ [o] ->
            outcomes fn b (length es) = map Thrown es /\
            outcome (fn (after fn b (length es))) = o).
  { intros es o H. rewrite outcomes_snoc in H.
    apply app_inj_tail in H. exact H. }
  assert (Hrun : forall (es : list JsError),
            Z.of_nat (length es) <= 7 ->
            forallb retryable es = true ->
            outcomes fn b (length es) = map Thrown es ->
            callWithRetry fn description b =
            let r := callWithRetry_loop (8 - length es) fn description
                       (Z.of_nat (length es)) (after fn b (length es)) in
            (outcome r, backend r,
             retry_events description 0
               (map snd (attempts fn b (length es))) ++ events r)).
  { intros es Hlen Hre Hout. unfold callWithRetry.
    replace (S (Z.to_nat maxRetries)) with (length es + (8 - length es))%nat
      by (unfold maxRetries; lia).
    rewrite (callWithRetry_loop_retrying fn description es) by
      (try assumption; unfold maxRetries; lia).
    reflexivity. }
  split; [|split].
  - intros es v Hlen Hre Hout. apply Hsplit in Hout as [Hout Hlast].
    rewrite (Hrun es Hlen Hre Hout). cbv zeta. unfold outcome at 1. cbn [fst].
    replace (8 - length es)%nat with (S (7 - length es)) by lia.
    rewrite callWithRetry_loop_step.
    destruct (fn (after fn b (length es))) as [[o b1] t1].
    unfold outcome in Hlast. cbn [fst] in Hlast. subst o. reflexivity.
  - intros es e Hlen Hre Hout.
    rewrite forallb_app in Hre. apply andb_true_iff in Hre as [Hre He].
    cbn [forallb] in He. rewrite andb_true_r in He.
    rewrite map_app in Hout. cbn [map] in Hout.
    replace 8%nat with (S (length es)) in Hout by lia.
    apply Hsplit in Hout as [Hout Hlast].
    rewrite (Hrun es ltac:(lia) Hre Hout). cbv zeta.
    unfold outcome at 1, backend at 1. cbn [fst snd].
    replace (8 - length es)%nat with 1%nat by lia.
    rewrite callWithRetry_loop_step.
    replace 8%nat with (S (length es)) by lia. rewrite after_snoc.
    destruct (fn (after fn b (length es))) as [[o b1] t1].
    unfold outcome in Hlast. cbn [fst] in Hlast. subst o. rewrite He.
    replace (Z.of_nat (length es) <? maxRetries) with false
      by (symmetry; apply Z.ltb_ge; unfold maxRetries; lia).
    split; reflexivity.
  - intros es e Hlen Hre He Hout. apply Hsplit in Hout as [Hout Hlast].
    rewrite (Hrun es Hlen Hre Hout). cbv zeta.
    unfold outcome at 1, backend at 1. cbn [fst snd].
    replace (8 - length es)%nat with (S (7 - length es)) by lia.
    rewrite callWithRetry_loop_step, after_snoc.
    destruct (fn (after fn b (length es))) as [[o b1] t1].
    unfold outcome in Hlast. cbn [fst] in Hlast. subst o. rewrite He.
    split; reflexivity.
Qed.

(** C6. The waits of [callWithRetry]. When the first [k <= 7] invocations
    fail with the retryable class and the executor stops at invocation
    [k + 1], the trace is: for each retry [n = 1 .. k], the events of
    invocation [n], the warning, and a wait of [retry_wait n] ms; then the
    events of invocation [k + 1]. So each wait comes before the operation
    is invoked again; the first is 15000 ms and retry [n], [2 <= n <= 7],
    waits [1000 * 2^(n-2)] ms. When the operation itself never waits, these
    are all the waits of the trace. *)
Theorem callWithRetry_backoff_schedule (b : B) (es : list JsError) :
  Z.of_nat (length es) <= 7 ->
  forallb retryable es = true ->
  outcomes fn b (length es) = map Thrown es ->
  (length es = 7%nat \/
   forall e, outcome (fn (after fn b (length es))) = Thrown e ->
             retryable e = false) ->
  let failed := map snd (attempts fn b (length es)) in
  let last := events (fn (after fn b (length es))) in
  events (callWithRetry fn description b) =
    retry_events description 0 failed ++ last /\
  (Forall (fun t => sleeps t = []) failed -> sleeps last = [] ->
   sleeps (events (callWithRetry fn description b)) =
     map retry_wait (retry_numbers (length es))) /\
  retry_wait 1 = 15000 /\
  (forall n, 2 <= n <= 7 -> retry_wait n = 1000 * 2 ^ (n - 2)).
Proof.
  intros Hlen Hre Hout Hstop failed last.
  assert (Hev : events (callWithRetry fn description b) =
                retry_events description 0 failed ++ last).
  { unfold callWithRetry.
    replace (S (Z.to_nat maxRetries))
      with (length es + S (7 - length es))%nat by (unfold maxRetries; lia).
    rewrite (callWithRetry_loop_retrying fn description es) by
      (try assumption; unfold maxRetries; lia).
    cbv zeta. unfold events at 1. cbn [snd]. fold failed. f_equal.
    rewrite callWithRetry_loop_step. subst last.
    destruct (fn (after fn b (length es))) as [[o b1] t1] eqn:Hfn.
    destruct o as [a|e|]; try reflexivity.
    destruct Hstop as [H7|Hother].
    - replace (0 + Z.of_nat (length es) <? maxRetries) with false
        by (symmetry; apply Z.ltb_ge; unfold maxRetries; lia).
      rewrite andb_false_r. reflexivity.
    - rewrite (Hother e eq_refl). reflexivity. }
  split; [exact Hev|]. split; [|split].
  - intros Hfailed Hlast. rewrite Hev, sleeps_app, Hlast, app_nil_r.
    rewrite sleeps_retry_events by exact Hfailed.
    subst failed. rewrite length_map, attempts_length.
    apply map_ext. intros n. reflexivity.
  - reflexivity.
  - intros n Hn. unfold retry_wait.
    destruct (Z.eqb_spec n 1) as [->|_]; [lia|reflexivity].
Qed.

End RetryTheorems.

(** ** Running computations *)

Section RunFacts.

Context {B : Type}.

Lemma run_eta {A} (r : Outcome A * B * list Event) :
  r = (outcome r, backend r, events r).
Proof. now destruct r as [[o b] t]. Qed.

Lemma prepend_nil {A} (r : Outcome A * B * list Event) : prepend [] r = r.
Proof. now destruct r as [[o b] t]. Qed.

Lemma prepend_prepend {A} t u (r : Outcome A * B * list Event) :
  prepend t (prepend u r) = prepend (t ++ u) r.
Proof. destruct r as [[o b] v]. cbn [prepend]. now rewrite app_assoc. Qed.

Lemma outcome_prepend {A} t (r : Outcome A * B * list Event) :
  outcome (prepend t r) = outcome r.
Proof. now destruct r as [[o b] v]. Qed.

Lemma backend_prepend {A} t (r : Outcome A * B * list Event) :
  backend (prepend t r) = backend r.
Proof. now destruct r as [[o b] v]. Qed.

Lemma events_prepend {A} t (r : Outcome A * B * list Event) :
  events (prepend t r) = t ++ events r.
Proof. now destruct r as [[o b] v]. Qed.

Lemma bind_returned {A C} (m : M B A) (k : A -> M B C) b a b1 t1 :
  m b = (Returned a, b1, t1) -> bind m k b = prepend t1 (k a b1).
Proof. intros H. unfold bind. now rewrite H. Qed.

Lemma bind_thrown {A C} (m : M B A) (k : A -> M B C) b e b1 t1 :
  m b = (Thrown e, b1, t1) -> bind m k b = (Thrown e, b1, t1).
Proof. intros H. unfold bind. now rewrite H. Qed.

Lemma bind_pending {A C} (m : M B A) (k : A -> M B C) b b1 t1 :
  m b = (Pending, b1, t1) -> bind m k b = (Pending, b1, t1).
Proof. intros H. unfold bind. now rewrite H. Qed.

Lemma bind_ret {A C} (a : A) (k : A -> M B C) b : bind (ret a) k b = k a b.
Proof. unfold bind, ret. now destruct (k a b) as [[o b2] t2]. Qed.

Lemma bind_emit {C} (e : Event) (k : unit -> M B C) b :
  bind (emit e) k b = prepend [e] (k tt b).
Proof. reflexivity. Qed.

Lemma bind_console {C} m msg (k : unit -> M B C) b :
  bind (console m msg) k b = prepend [Console m msg] (k tt b).
Proof. reflexivity. Qed.

Lemma bind_sleep {C} ms (k : unit -> M B C) b :
  bind (sleep ms) k b = prepend [Sleep ms] (k tt b).
Proof. reflexivity. Qed.

Lemma bind_progress {C} cb level msg (k : unit -> M B C) b :
  bind (progress cb level msg) k b =
  prepend (if cb then [Progress level msg] else []) (k tt b).
Proof.
  destruct cb; [reflexivity|]. unfold progress.
  rewrite prepend_nil. apply bind_ret.
Qed.

Lemma logAndProgress_run (msg : string) (cb : bool) (sev : Severity) (b : B) :
  logAndProgress msg cb sev b = (Returned tt, b, log_events msg cb sev).
Proof. destruct sev, cb; reflexivity. Qed.

Lemma bind_logAndProgress {C} msg cb sev (k : unit -> M B C) b :
  bind (logAndProgress msg cb sev) k b = prepend (log_events msg cb sev) (k tt b).
Proof. apply bind_returned, logAndProgress_run. Qed.

Lemma try_catch_returned {A} (m : M B A) h b a b1 t1 :
  m b = (Returned a, b1, t1) -> try_catch m h b = (Returned a, b1, t1).
Proof. intros H. unfold try_catch. now rewrite H. Qed.

Lemma try_catch_pending {A} (m : M B A) h b b1 t1 :
  m b = (Pending, b1, t1) -> try_catch m h b = (Pending, b1, t1).
Proof. intros H. unfold try_catch. now rewrite H. Qed.

Lemma try_catch_thrown {A} (m : M B A) h b e b1 t1 :
  m b = (Thrown e, b1, t1) -> try_catch m h b = prepend t1 (h e b1).
Proof. intros H. unfold try_catch. now rewrite H. Qed.

Import Helpers.

(** An operation that settles at once, or fails with an error of another
    class, is invoked once: the executor adds nothing. *)
Lemma callWithRetry_settles {A} (fn : M B A) d b a :
  outcome (fn b) = Returned a -> callWithRetry fn d b = fn b.
Proof.
  intros H. unfold callWithRetry.
  rewrite callWithRetry_loop_step. destruct (fn b) as [[o b1] t1].
  unfold outcome in H. cbn [fst] in H. now subst o.
Qed.

Lemma callWithRetry_fatal {A} (fn : M B A) d b e :
  outcome (fn b) = Thrown e -> retryable e = false ->
  callWithRetry fn d b = fn b.
Proof.
  intros H He. unfold callWithRetry.
  rewrite callWithRetry_loop_step. destruct (fn b) as [[o b1] t1].
  unfold outcome in H. cbn [fst] in H. subst o. now rewrite He.
Qed.

End RunFacts.

(** ** The activation gate *)

Section GateFacts.

Context {B : Type}.
Variable context : Context B.

Import Helpers.

Lemma fetched_app (t u : list Event) : fetched (t ++ u) = fetched t ++ fetched u.
Proof. apply flat_map_app. Qed.

Lemma enable_calls_app (t u : list Event) :
  enable_calls (t ++ u) = enable_calls t ++ enable_calls u.
Proof. apply flat_map_app. Qed.

Lemma enable_waits_app (t u : list Event) :
  enable_waits (t ++ u) = enable_waits t ++ enable_waits u.
Proof. apply flat_map_app. Qed.

(** With every remote call succeeding, one check-and-enable step applies
    [getService] and, for a state other than ENABLED, [enableService] and
    the operation it returns, to the backend. *)
Lemma checkAndEnableApi_effect (name api : string) (cb : bool) (b : B) :
  gate_calls_succeed context ->
  exists t,
    checkAndEnableApi context name api cb b =
      (Returned tt, snd (check_effect context name b), t) /\
    fetched t = [(name, fst (check_effect context name b))] /\
    enable_calls t =
      (if not_enabled (name, fst (check_effect context name b))
       then [name] else []) /\
    enable_waits t = enable_calls t.
Proof.
  intros [Hget Hen]. destruct (Hget name b) as [service Hs].
  unfold check_effect.
  destruct (serviceUsage_getService context name b) as [o b1] eqn:Hg.
  cbn [fst snd] in *. subst o.
  assert (E1 : callWithRetry
                 (invoke (GetServiceCall name)
                    (serviceUsage_getService context name))
                 ("getService " +++ api) b =
               (Returned service, b1, [GetServiceCall name (Returned service)])).
  { rewrite callWithRetry_settles with (a := service);
      unfold invoke; rewrite Hg; reflexivity. }
  unfold checkAndEnableApi, not_enabled. cbn [fst snd].
  rewrite (bind_returned _ _ _ _ _ _ E1).
  destruct (state service =? "ENABLED")%string; cbn [negb fst snd].
  - exists [GetServiceCall name (Returned service)]. repeat split.
  - destruct (Hen name b1) as [operation [Ho Hop]].
    destruct (serviceUsage_enableService context name b1) as [o b2] eqn:He.
    cbn [fst snd] in *. subst o.
    assert (E2 : callWithRetry
                   (invoke (fun r => EnableServiceCall name (forget r))
                      (serviceUsage_enableService context name))
                   ("enableService " +++ api) b1 =
                 (Returned operation, b2,
                  [EnableServiceCall name (Returned tt)])).
    { rewrite callWithRetry_settles with (a := operation);
        unfold invoke; rewrite He; reflexivity. }
    specialize (Hop b2). destruct (operation b2) as [o3 b3] eqn:Hw.
    cbn [fst snd] in *. subst o3.
    rewrite bind_console, bind_progress, (bind_returned _ _ _ _ _ _ E2).
    unfold invoke. rewrite Hw. cbn [prepend].
    eexists. split; [reflexivity|].
    destruct cb; repeat split; reflexivity.
Qed.

Lemma ensureApisEnabled_each_effect (projectId : string) (cb : bool)
    (apis : list string) :
  gate_calls_succeed context ->
  forall b, exists t,
    ensureApisEnabled_each context projectId apis cb b =
      (Returned tt, snd (gate_effect context projectId apis b), t) /\
    fetched t = fst (gate_effect context projectId apis b) /\
    enable_calls t = map fst (filter not_enabled (fetched t)) /\
    enable_waits t = enable_calls t.
Proof.
  intros Hok. induction apis as [|api rest IH]; intros b.
  - exists []. repeat split.
  - destruct (checkAndEnableApi_effect
                (api_service_name projectId api) api cb b Hok)
      as (t1 & Hrun & Hf & He & Hw).
    destruct (IH (snd (check_effect context
                         (api_service_name projectId api) b)))
      as (t2 & Hrest & Hf2 & He2 & Hw2).
    exists (t1 ++ t2). cbn [gate_effect fst snd]. split; [|split; [|split]].
    + cbn [ensureApisEnabled_each].
      erewrite bind_returned by (apply try_catch_returned; exact Hrun).
      rewrite Hrest. reflexivity.
    + rewrite fetched_app, Hf, Hf2. reflexivity.
    + rewrite enable_calls_app, fetched_app, He, He2, Hf.
      cbn [app filter].
      destruct (not_enabled
                  (api_service_name projectId api,
                   fst (check_effect context
                          (api_service_name projectId api) b)));
        reflexivity.
    + rewrite enable_waits_app, enable_calls_app, Hw, Hw2. reflexivity.
Qed.

Lemma gate_effect_names (projectId : string) (apis : list string) :
  forall b,
    map fst (fst (gate_effect context projectId apis b)) =
    map (api_service_name projectId) apis.
Proof.
  induction apis as [|api rest IH]; intros b; [reflexivity|].
  cbn [gate_effect fst map]. now rewrite IH.
Qed.


Lemma ensureApisEnabled_each_app (projectId : string) (cb : bool)
    (pre rest : list string) :
  forall b,
    ensureApisEnabled_each context projectId (pre ++ rest) cb b =
    match ensureApisEnabled_each context projectId pre cb b with
    | (Returned _, b1, t1) =>
        prepend t1 (ensureApisEnabled_each context projectId rest cb b1)
    | r => r
    end.
Proof.
  induction pre as [|api pre IH]; intros b.
  - cbn [app ensureApisEnabled_each ret]. now rewrite prepend_nil.
  - cbn [app ensureApisEnabled_each].
    match goal with |- context [bind ?m _ b] => set (step := m) end.
    destruct (step b) as [[o b1] t1] eqn:Hstep. destruct o as [[]|e|].
    2: now rewrite !(bind_thrown _ _ _ _ _ _ Hstep).
    2: now rewrite !(bind_pending _ _ _ _ _ Hstep).
    rewrite !(bind_returned _ _ _ _ _ _ Hstep), IH.
    destruct (ensureApisEnabled_each context projectId pre cb b1)
      as [[o2 b2] t2].
    destruct o2 as [[]|e|]; try reflexivity.
    now rewrite prepend_prepend.
Qed.

(** The step for one capability when its first run fails. *)
Lemma ensureApisEnabled_each_retry (projectId api : string)
    (post : list string) (cb : bool) (b1 b2 : B) (t2 : list Event)
    (e1 : JsError) :
  checkAndEnableApi context (api_service_name projectId api) api cb b1 =
    (Thrown e1, b2, t2) ->
  ensureApisEnabled_each context projectId (api :: post) cb b1 =
  prepend (t2 ++ gate_retry_notice cb api)
    (match checkAndEnableApi context (api_service_name projectId api)
             api cb b2 with
     | (Returned _, b3, t3) =>
         prepend t3 (ensureApisEnabled_each context projectId post cb b3)
     | (Thrown _, b3, t3) =>
         (Thrown (Error (gate_error api)), b3, t3 ++ gate_failure cb api)
     | (Pending, b3, t3) => (Pending, b3, t3)
     end).
Proof.
  intros Hfirst. cbn [ensureApisEnabled_each].
  fold (api_service_name projectId api). fold (gate_error api).
  unfold bind at 1.
  rewrite (try_catch_thrown _ _ _ _ _ _ Hfirst).
  rewrite bind_console, bind_progress, bind_sleep, !prepend_prepend.
  unfold try_catch.
  destruct (checkAndEnableApi context (api_service_name projectId api)
              api cb b2) as [[o3 b3] t3].
  unfold gate_retry_notice, gate_failure.
  destruct o3 as [[]|e3|].
  - cbn [prepend].
    destruct (ensureApisEnabled_each context projectId post cb b3)
      as [[o4 b4] t4].
    cbn [prepend]. f_equal. destruct cb; trace_eq.
  - rewrite bind_console, bind_progress. unfold throw.
    cbn [prepend]. f_equal. destruct cb; trace_eq.
  - cbn [prepend]. f_equal. destruct cb; trace_eq.
Qed.

(** C7. When the check-and-enable step of a capability fails, the gate
    emits its notice, waits 1000 ms and runs the whole step once more. If
    that second run fails too, [ensureApisEnabled] throws an error whose
    message names the capability, and the trace ends there: nothing is
    done for the capabilities after it. If the second run succeeds, the
    gate goes on with the rest of the list. *)
Theorem ensureApisEnabled_single_gate_retry (projectId : string)
    (pre : list string) (api : string) (post : list string) (cb : bool)
    (b b1 b2 : B) (t1 t2 : list Event) (e1 : JsError) :
  ensureApisEnabled_each context projectId pre cb b = (Returned tt, b1, t1) ->
  checkAndEnableApi context (api_service_name projectId api) api cb b1 =
    (Thrown e1, b2, t2) ->
  let retry :=
    checkAndEnableApi context (api_service_name projectId api) api cb b2 in
  let so_far := t1 ++ t2 ++ gate_retry_notice cb api ++ events retry in
  In (Sleep 1000) (gate_retry_notice cb api) /\
  (forall e2, outcome retry = Thrown e2 ->
     ensureApisEnabled context projectId (pre ++ api :: post) cb b =
       (Thrown (Error (gate_error api)), backend retry,
        gate_start cb ++ so_far ++ gate_failure cb api) /\
     includes (gate_error api) api = true) /\
  (outcome retry = Returned tt ->
     ensureApisEnabled_each context projectId (pre ++ api :: post) cb b =
     prepend so_far
       (ensureApisEnabled_each context projectId post cb (backend retry))).
Proof.
  intros Hpre Hfirst retry so_far.
  assert (Heach :
    ensureApisEnabled_each context projectId (pre ++ api :: post) cb b =
    prepend (t1 ++ t2 ++ gate_retry_notice cb api)
      (match retry with
       | (Returned _, b3, t3) =>
           prepend t3 (ensureApisEnabled_each context projectId post cb b3)
       | (Thrown _, b3, t3) =>
           (Thrown (Error (gate_error api)), b3, t3 ++ gate_failure cb api)
       | (Pending, b3, t3) => (Pending, b3, t3)
       end)).
  { rewrite ensureApisEnabled_each_app, Hpre.
    rewrite (ensureApisEnabled_each_retry _ _ _ _ _ _ _ _ Hfirst).
    rewrite prepend_prepend. reflexivity. }
  split; [|split].
  - unfold gate_retry_notice. destruct cb; cbn; tauto.
  - intros e2 He2. split; [|apply includes_append].
    subst so_far. destruct retry as [[o3 b3] t3].
    unfold outcome in He2. cbn [fst] in He2. subst o3.
    cbn [prepend] in Heach.
    unfold ensureApisEnabled.
    rewrite bind_console, bind_progress, prepend_prepend.
    rewrite (bind_thrown _ _ _ _ _ _ Heach).
    cbn [prepend]. unfold backend, events, gate_start. cbn [fst snd].
    f_equal. destruct cb; trace_eq.
  - intros Hok. rewrite Heach. subst so_far.
    destruct retry as [[o3 b3] t3].
    unfold outcome in Hok. cbn [fst] in Hok. subst o3.
    unfold backend, events. cbn [fst snd].
    rewrite prepend_prepend. f_equal. trace_eq.
Qed.

End GateFacts.

(** ** The build trigger and poller *)

Section BuildFacts.

Context {B : Type}.
Variable context : Context B.
Variables projectId buildId : string.
Variable cb : bool.

Import Helpers CloudBuild.

Lemma array_includes_In (l : list string) (s : string) :
  array_includes l s = true <-> In s l.
Proof.
  unfold array_includes. rewrite existsb_exists. split.
  - intros (x & Hin & Heq). apply String.eqb_eq in Heq. now subst.
  - intros Hin. exists s. split; [exact Hin|apply String.eqb_refl].
Qed.

Lemma getBuild_events (b : B) :
  events (getBuild_op context projectId buildId b) =
  [GetBuildCall projectId buildId
     (outcome (getBuild_op context projectId buildId b))].
Proof.
  unfold getBuild_op, invoke, events, outcome.
  now destruct (cloudBuild_getBuild context projectId buildId b).
Qed.

(** One iteration of the polling loop on a record that came back. *)
Lemma pollBuild_step (fuel : nat) (b : B) (record : Build) :
  outcome (getBuild_op context projectId buildId b) = Returned record ->
  pollBuild (S fuel) context projectId buildId cb b =
  if array_includes terminal_statuses (status record) then
    (Returned record, backend (getBuild_op context projectId buildId b),
     [GetBuildCall projectId buildId (Returned record)])
  else
    prepend (poll_round cb projectId buildId record)
      (pollBuild fuel context projectId buildId cb
         (backend (getBuild_op context projectId buildId b))).
Proof.
  intros Hget. cbn [pollBuild].
  fold (getBuild_op context projectId buildId).
  assert (E : callWithRetry (getBuild_op context projectId buildId)
                ("cloudBuild.getBuild " +++ buildId) b =
              (Returned record,
               backend (getBuild_op context projectId buildId b),
               [GetBuildCall projectId buildId (Returned record)])).
  { rewrite (callWithRetry_settles _ _ _ _ Hget).
    rewrite (run_eta (getBuild_op context projectId buildId b)) at 1.
    now rewrite getBuild_events, Hget. }
  rewrite (bind_returned _ _ _ _ _ _ E).
  destruct (array_includes terminal_statuses (status record)).
  - cbn [ret prepend]. reflexivity.
  - rewrite bind_logAndProgress, bind_sleep, !prepend_prepend.
    unfold poll_round. f_equal; trace_eq.
Qed.

(** While the records that come back are not terminal, the loop keeps
    polling. *)
Lemma pollBuild_waiting (waiting : list Build) :
  forall (fuel : nat) (b : B),
    outcomes (getBuild_op context projectId buildId) b (length waiting) =
      map Returned waiting ->
    Forall (fun r => ~ In (status r) terminal_statuses) waiting ->
    pollBuild (length waiting + fuel) context projectId buildId cb b =
    prepend (poll_events cb projectId buildId waiting)
      (pollBuild fuel context projectId buildId cb
         (after (getBuild_op context projectId buildId) b (length waiting))).
Proof.
  induction waiting as [|r waiting IH]; intros fuel b Hout Hwait.
  - cbn [length Nat.add after poll_events flat_map]. now rewrite prepend_nil.
  - cbn [length] in *. rewrite outcomes_S in Hout. cbn [map] in Hout.
    injection Hout as Hr Hout. inversion Hwait as [|? ? Hnt Hrest]; subst.
    cbn [Nat.add]. rewrite (pollBuild_step _ _ _ Hr).
    destruct (array_includes terminal_statuses (status r)) eqn:Hterm.
    { apply array_includes_In in Hterm. contradiction. }
    rewrite (IH _ _ Hout Hrest), prepend_prepend.
    reflexivity.
Qed.

(** The loop stops at the first terminal record and not before. *)
Lemma pollBuild_stops (waiting : list Build) (final : Build) (fuel : nat)
    (b : B) :
  outcomes (getBuild_op context projectId buildId) b (S (length waiting)) =
    map Returned (waiting ++ [final]) ->
  Forall (fun r => ~ In (status r) terminal_statuses) waiting ->
  (length waiting < fuel)%nat ->
  (In (status final) terminal_statuses ->
   pollBuild fuel context projectId buildId cb b =
   (Returned final,
    after (getBuild_op context projectId buildId) b (S (length waiting)),
    poll_events cb projectId buildId waiting ++
    [GetBuildCall projectId buildId (Returned final)])) /\
  (~ In (status final) terminal_statuses ->
   outcome (pollBuild (S (length waiting)) context projectId buildId cb b) =
   Pending).
Proof.
  intros Hout Hwait Hfuel.
  rewrite outcomes_snoc, map_app in Hout. cbn [map] in Hout.
  apply app_inj_tail in Hout as [Hout Hlast].
  split; intros Hterm.
  - replace fuel with (length waiting + S (fuel - S (length waiting)))%nat
      by lia.
    rewrite (pollBuild_waiting _ _ _ Hout Hwait).
    rewrite (pollBuild_step _ _ _ Hlast).
    apply array_includes_In in Hterm. rewrite Hterm.
    rewrite after_snoc. reflexivity.
  - replace (S (length waiting)) with (length waiting + 1)%nat at 1 by lia.
    rewrite (pollBuild_waiting _ _ _ Hout Hwait), outcome_prepend.
    rewrite (pollBuild_step _ _ _ Hlast).
    destruct (array_includes terminal_statuses (status final)) eqn:Hinc.
    { apply array_includes_In in Hinc. contradiction. }
    rewrite outcome_prepend. reflexivity.
Qed.

Lemma sleeps_poll_events (waiting : list Build) :
  sleeps (poll_events cb projectId buildId waiting) =
  repeat 5000 (length waiting).
Proof.
  induction waiting as [|r waiting IH]; [reflexivity|].
  cbn [poll_events flat_map length repeat]. rewrite sleeps_app.
  fold (poll_events cb projectId buildId waiting). rewrite IH.
  unfold poll_round, log_events. destruct cb; reflexivity.
Qed.

(** The run of [triggerCloudBuild] up to the end of the polling loop. *)
Lemma triggerCloudBuild_polled
    (fuel : nat) (location bucket blob repo image : string)
    (hasDockerfile : bool) (b0 b1 b2 : B) (completed : Build)
    (polled : list Event) :
  cloudBuild_createBuild context projectId
    (build_request bucket blob image hasDockerfile) b0 =
    (Returned buildId, b1) ->
  pollBuild fuel context projectId buildId cb b1 =
    (Returned completed, b2, polled) ->
  triggerCloudBuild fuel context projectId location bucket blob repo image
    hasDockerfile cb b0 =
  prepend
    (log_events
       ("Initiating Cloud Build for gs://" +++ bucket +++ "/" +++ blob +++
        " in " +++ location +++ "...") cb lvl_info ++
     [CreateBuildCall projectId
        (build_request bucket blob image hasDockerfile) (Returned buildId)] ++
     log_events "Cloud Build job started..." cb lvl_info ++ polled)
    (if (status completed =? "SUCCESS")%string then
       (logAndProgress
          ("Cloud Build job " +++ buildId +++ " completed successfully.")
          cb lvl_info ;;
        name <- first_image_name completed ;;
        logAndProgress ("Image built: " +++ name) cb lvl_info ;;
        ret completed) b2
     else
       (logAndProgress
          ("Cloud Build job " +++ buildId +++ " failed with status: " +++
           status completed) cb lvl_error ;;
        logAndProgress ("Build logs: " +++ logUrl completed) cb lvl_info ;;
        buildLogsSnippet <-
          fetchBuildLogsSnippet context buildId completed cb ;;
        throw (Error ("Build " +++ buildId +++ " failed." +++
                      buildLogsSnippet))) b2).
Proof.
  intros Hcreate Hpoll. unfold triggerCloudBuild.
  fold (build_request bucket blob image hasDockerfile).
  rewrite bind_logAndProgress.
  erewrite bind_returned.
  2:{ rewrite callWithRetry_settles with (a := buildId);
        unfold invoke; rewrite Hcreate; reflexivity. }
  rewrite bind_logAndProgress, (bind_returned _ _ _ _ _ _ Hpoll).
  rewrite !prepend_prepend.
  destruct (status completed =? "SUCCESS")%string; f_equal; trace_eq.
Qed.

(** C4. For a build observed as WORKING, WORKING, SUCCESS,
    [triggerCloudBuild] calls [getBuild] three times, waits twice, 5000 ms
    each time, and returns the third record, which carries the image. In
    general the polling loop goes past every record whose status is not
    one of SUCCESS, FAILURE, INTERNAL_ERROR, TIMEOUT, CANCELLED and stops
    at the first record whose status is one of them. *)
Theorem triggerCloudBuild_polls_until_terminal :
  (forall (fuel : nat) (location bucket blob repo image : string)
          (hasDockerfile : bool) (b0 b1 : B) (r1 r2 r3 : Build)
          (name : string) (more : list string),
      cloudBuild_createBuild context projectId
        (build_request bucket blob image hasDockerfile) b0 =
        (Returned buildId, b1) ->
      outcomes (getBuild_op context projectId buildId) b1 3 =
        [Returned r1; Returned r2; Returned r3] ->
      status r1 = "WORKING"%string ->
      status r2 = "WORKING"%string ->
      status r3 = "SUCCESS"%string ->
      results_images r3 = Some (name :: more) ->
      (3 <= fuel)%nat ->
      let r := triggerCloudBuild fuel context projectId location bucket blob
                 repo image hasDockerfile cb b0 in
      outcome r = Returned r3 /\
      sleeps (events r) = [5000; 5000] /\
      getBuild_calls (events r) =
        [(projectId, buildId); (projectId, buildId); (projectId, buildId)]) /\
  (forall (waiting : list Build) (final : Build) (fuel : nat) (b : B),
      outcomes (getBuild_op context projectId buildId) b
        (S (length waiting)) = map Returned (waiting ++ [final]) ->
      Forall (fun r => ~ In (status r) terminal_statuses) waiting ->
      (length waiting < fuel)%nat ->
      (In (status final) terminal_statuses ->
       let r := pollBuild fuel context projectId buildId cb b in
       outcome r = Returned final /\
       sleeps (events r) = repeat 5000 (length waiting) /\
       length (getBuild_calls (events r)) = S (length waiting)) /\
      (~ In (status final) terminal_statuses ->
       outcome (pollBuild (S (length waiting)) context projectId buildId cb b)
       = Pending)) /\
  (forall s : string,
      In s terminal_statuses <->
      s = "SUCCESS"%string \/ s = "FAILURE"%string \/
      s = "INTERNAL_ERROR"%string \/ s = "TIMEOUT"%string \/
      s = "CANCELLED"%string).
Proof.
  split; [|split].
  - intros fuel location bucket blob repo image hasDockerfile b0 b1 r1 r2 r3
      name more Hcreate Hout H1 H2 H3 Himg Hfuel r.
    destruct (pollBuild_stops [r1; r2] r3 fuel b1) as [Hstop _];
      [exact Hout| |exact Hfuel|].
    { repeat constructor; rewrite ?H1, ?H2; cbn;
        intuition discriminate. }
    specialize (Hstop ltac:(rewrite H3; cbn; tauto)).
    subst r.
    rewrite (triggerCloudBuild_polled _ _ _ _ _ _ _ _ _ _ _ _ Hcreate Hstop).
    rewrite H3. cbn [String.eqb Ascii.eqb Bool.eqb].
    rewrite bind_logAndProgress. unfold first_image_name. rewrite Himg.
    rewrite bind_ret, bind_logAndProgress. cbn [ret prepend].
    unfold outcome, events. cbn [fst snd].
    unfold poll_events, poll_round, log_events. cbn [flat_map].
    destruct cb; repeat split; reflexivity.
  - intros waiting final fuel b Hout Hwait Hfuel.
    destruct (pollBuild_stops waiting final fuel b Hout Hwait Hfuel)
      as [Hstop Hgo].
    split; [|exact Hgo].
    intros Hterm r. subst r. rewrite (Hstop Hterm).
    unfold outcome, events. cbn [fst snd].
    split; [reflexivity|]. split.
    + rewrite sleeps_app, sleeps_poll_events. cbn [sleeps].
      now rewrite app_nil_r.
    + unfold getBuild_calls. rewrite flat_map_app, length_app.
      cbn [flat_map length app]. rewrite Nat.add_1_r. f_equal.
      clear. induction waiting as [|w waiting IH]; [reflexivity|].
      cbn [poll_events flat_map]. rewrite flat_map_app, length_app.
      fold (poll_events cb projectId buildId waiting). rewrite IH.
      unfold poll_round, log_events. destruct cb; reflexivity.
  - intros s. unfold terminal_statuses. cbn [In]. intuition congruence.
Qed.

(** What the failure branch appends to the message, by the way the log
    fetch ends. *)
(** The run of [triggerCloudBuild] once the build was submitted, after
    whatever retries, and the polling has returned a record. *)
Lemma triggerCloudBuild_submitted
    (fuel : nat) (location bucket blob repo image : string)
    (hasDockerfile : bool) (b0 b1 b2 : B) (completed : Build)
    (submitted polled : list Event) :
  callWithRetry
    (createBuild_op context projectId
       (build_request bucket blob image hasDockerfile))
    "cloudBuild.createBuild" b0 = (Returned buildId, b1, submitted) ->
  pollBuild fuel context projectId buildId cb b1 =
    (Returned completed, b2, polled) ->
  triggerCloudBuild fuel context projectId location bucket blob repo image
    hasDockerfile cb b0 =
  prepend
    (log_events
       ("Initiating Cloud Build for gs://" +++ bucket +++ "/" +++ blob +++
        " in " +++ location +++ "...") cb lvl_info ++
     submitted ++
     log_events "Cloud Build job started..." cb lvl_info ++ polled)
    (if (status completed =? "SUCCESS")%string then
       (logAndProgress
          ("Cloud Build job " +++ buildId +++ " completed successfully.")
          cb lvl_info ;;
        name <- first_image_name completed ;;
        logAndProgress ("Image built: " +++ name) cb lvl_info ;;
        ret completed) b2
     else
       (logAndProgress
          ("Cloud Build job " +++ buildId +++ " failed with status: " +++
           status completed) cb lvl_error ;;
        logAndProgress ("Build logs: " +++ logUrl completed) cb lvl_info ;;
        buildLogsSnippet <-
          fetchBuildLogsSnippet context buildId completed cb ;;
        throw (Error ("Build " +++ buildId +++ " failed." +++
                      buildLogsSnippet))) b2).
Proof.
  intros Hcreate Hpoll. unfold triggerCloudBuild.
  fold (build_request bucket blob image hasDockerfile).
  fold (createBuild_op context projectId
          (build_request bucket blob image hasDockerfile)).
  rewrite bind_logAndProgress, (bind_returned _ _ _ _ _ _ Hcreate).
  rewrite bind_logAndProgress, (bind_returned _ _ _ _ _ _ Hpoll).
  rewrite !prepend_prepend.
  destruct (status completed =? "SUCCESS")%string; f_equal; trace_eq.
Qed.

Lemma fetchBuildLogsSnippet_outcome (completed : Build) (b : B) :
  outcome (fetchBuildLogsSnippet context buildId completed cb b) =
  match outcome
          (callWithRetry (getEntries_op context buildId)
             ("logging.getEntries for build " +++ buildId) b) with
  | Returned (Some (entry :: entries)) =>
      Returned (logs_snippet buildId (entry :: entries))
  | Returned _ => Returned (url_fallback completed)
  | Thrown _ => Returned (url_fallback completed)
  | Pending => Pending
  end.
Proof.
  unfold fetchBuildLogsSnippet, try_catch.
  rewrite bind_logAndProgress, bind_sleep, prepend_prepend.
  unfold bind at 1.
  match goal with |- context [callWithRetry ?f ?d b] =>
    change (callWithRetry f d b)
      with (callWithRetry (getEntries_op context buildId)
              ("logging.getEntries for build " +++ buildId) b)
  end.
  destruct (callWithRetry (getEntries_op context buildId)
              ("logging.getEntries for build " +++ buildId) b)
    as [[o b3] t3].
  unfold outcome at 2. cbn [fst].
  destruct o as [[[|entry entries]|]|e|]; cbn [prepend].
  - rewrite bind_logAndProgress. reflexivity.
  - replace (0 <? Z.of_nat (length (map entry_line (rev (entry :: entries)))))
      with true
      by (symmetry; apply Z.ltb_lt; rewrite length_map, length_rev;
          cbn [length]; lia).
    rewrite bind_logAndProgress. cbn [ret prepend].
    unfold outcome, logs_snippet, log_lines. cbn [fst].
    now rewrite length_map, length_rev.
  - rewrite bind_logAndProgress. reflexivity.
  - rewrite bind_console, bind_logAndProgress. reflexivity.
  - reflexivity.
Qed.

(** C2. For every build that was submitted, at the first attempt or
    after retries, and for which the polling loop ends on a record whose
    status is not SUCCESS, [triggerCloudBuild] throws an error whose
    message contains the build identifier; it contains the fetched lines
    when the log fetch returns at least one entry, and the log URL when
    the fetch fails or returns no entry. *)
Theorem triggerCloudBuild_failure_message
    (fuel : nat) (location bucket blob repo image : string)
    (hasDockerfile : bool) (b0 b1 b2 : B) (completed : Build)
    (submitted polled : list Event) :
  callWithRetry
    (createBuild_op context projectId
       (build_request bucket blob image hasDockerfile))
    "cloudBuild.createBuild" b0 = (Returned buildId, b1, submitted) ->
  pollBuild fuel context projectId buildId cb b1 =
    (Returned completed, b2, polled) ->
  status completed <> "SUCCESS"%string ->
  let logs :=
    callWithRetry (getEntries_op context buildId)
      ("logging.getEntries for build " +++ buildId) b2 in
  let r := triggerCloudBuild fuel context projectId location bucket blob
             repo image hasDockerfile cb b0 in
  (forall entries,
      outcome logs = Returned (Some entries) -> entries <> [] ->
      outcome r =
        Thrown (Error ("Build " +++ buildId +++ " failed." +++
                       logs_snippet buildId entries)) /\
      includes ("Build " +++ buildId +++ " failed." +++
                logs_snippet buildId entries) buildId = true /\
      includes ("Build " +++ buildId +++ " failed." +++
                logs_snippet buildId entries) (log_lines entries) = true) /\
  ((exists e, outcome logs = Thrown e) \/
   outcome logs = Returned None \/ outcome logs = Returned (Some []) ->
   outcome r =
     Thrown (Error ("Build " +++ buildId +++ " failed." +++
                    url_fallback completed)) /\
   includes ("Build " +++ buildId +++ " failed." +++ url_fallback completed)
     buildId = true /\
   includes ("Build " +++ buildId +++ " failed." +++ url_fallback completed)
     (logUrl completed) = true).
Proof.
  intros Hcreate Hpoll Hstatus logs r.
  assert (Hr : outcome r =
               match outcome (fetchBuildLogsSnippet context buildId
                                completed cb b2) with
               | Returned snippet =>
                   Thrown (Error ("Build " +++ buildId +++ " failed." +++
                                  snippet))
               | Thrown e => Thrown e
               | Pending => Pending
               end).
  { subst r.
    rewrite (triggerCloudBuild_submitted _ _ _ _ _ _ _ _ _ _ _ _ _
               Hcreate Hpoll).
    apply String.eqb_neq in Hstatus. rewrite Hstatus, outcome_prepend.
    rewrite !bind_logAndProgress, !outcome_prepend. unfold bind.
    destruct (fetchBuildLogsSnippet context buildId completed cb b2)
      as [[o b3] t3].
    destruct o; reflexivity. }
  rewrite fetchBuildLogsSnippet_outcome in Hr. fold logs in Hr.
  split.
  - intros entries Hlogs Hne. rewrite Hlogs in Hr.
    destruct entries as [|entry entries]; [contradiction|].
    split; [exact Hr|]. split.
    + apply includes_append.
    + unfold logs_snippet. repeat apply includes_skip. apply includes_refl.
  - intros Hcases.
    assert (Hfall : outcome r =
                    Thrown (Error ("Build " +++ buildId +++ " failed." +++
                                   url_fallback completed))).
    { destruct Hcases as [[e He]|[Hn|He]]; rewrite Hr;
        [rewrite He|rewrite Hn|rewrite He]; reflexivity. }
    split; [exact Hfall|]. split.
    + apply includes_append.
    + unfold url_fallback. repeat apply includes_skip. apply includes_refl.
Qed.

End BuildFacts.

(** ** The service deployer *)

Section DeployFacts.

Context {B : Type}.
Variable checkCloudRunServiceExists :
  Context B -> string -> string -> string -> bool -> M B bool.
Variable context : Context B.
Variable now : Z.
Variables projectId location serviceId imgUrl : string.
Variable cb : bool.

Import Helpers Deployer.

Lemma real_mutations_app (t u : list Event) :
  real_mutations (t ++ u) = real_mutations t ++ real_mutations u.
Proof. apply flat_map_app. Qed.

Lemma real_mutations_log_events msg sev :
  real_mutations (log_events msg cb sev) = [].
Proof. unfold log_events. destruct cb; reflexivity. Qed.

(** Every event of a run of the retry loop is an event of the operation,
    a console line or a wait. *)
Lemma callWithRetry_loop_events {A} (P : Event -> Prop) (fn : M B A)
    (d : string) :
  (forall b, Forall P (events (fn b))) ->
  (forall m msg, P (Console m msg)) ->
  (forall ms, P (Sleep ms)) ->
  forall fuel retries b,
    Forall P (events (callWithRetry_loop fuel fn d retries b)).
Proof.
  intros Hfn Hc Hs. induction fuel as [|fuel IH]; intros retries b.
  - constructor.
  - rewrite callWithRetry_loop_step. specialize (Hfn b).
    destruct (fn b) as [[o b1] t1]. unfold events in Hfn. cbn [snd] in Hfn.
    destruct o as [a|e|]; try exact Hfn.
    destruct (retryable e && (retries <? maxRetries))%bool; [|exact Hfn].
    cbv zeta. unfold events at 1. cbn [snd].
    apply Forall_app. split; [exact Hfn|].
    repeat constructor; [apply Hc|apply Hs|apply IH].
Qed.

Lemma real_mutations_none (t : list Event) :
  Forall (fun ev => real_mutations [ev] = []) t -> real_mutations t = [].
Proof.
  induction 1 as [|ev t Hev _ IH]; [reflexivity|].
  change (ev :: t) with ([ev] ++ t). now rewrite real_mutations_app, Hev, IH.
Qed.

(** The dry run submits validate-only calls only. *)
Lemma dry_run_call_no_mutation (service : Service) (exists_ : bool) (b : B) :
  real_mutations
    (events (dry_run_call context projectId location serviceId service
               exists_ b)) = [].
Proof.
  apply real_mutations_none. unfold dry_run_call, callWithRetry.
  destruct exists_;
    (apply callWithRetry_loop_events;
     [intros b0; unfold invoke, events;
      match goal with |- context [let '(_, _) := ?m b0 in _] =>
        destruct (m b0) as [r0 b3] end;
      repeat constructor
     |intros; reflexivity
     |intros; reflexivity]).
Qed.

(** A real mutation starts by submitting its call. *)
Lemma real_mutation_first_event (service : Service) (exists_ : bool) (b : B) :
  exists r rest,
    events (real_mutation context projectId location serviceId service
              exists_ b) =
    mutation_event context projectId location serviceId service exists_ r
    :: rest.
Proof.
  unfold real_mutation, mutation_event, callWithRetry.
  destruct exists_; rewrite callWithRetry_loop_step; unfold invoke at 1;
    match goal with |- context [let '(_, _) := ?m b in _] =>
      destruct (m b) as [r b3] end;
    (destruct r as [a|e|];
     [eexists; eexists; reflexivity
     |destruct (retryable e && (0 <? maxRetries))%bool;
        eexists; eexists; reflexivity
     |eexists; eexists; reflexivity]).
Qed.

Lemma try_catch_prepend {A} (m : M B A) h b t (x : Outcome A * B * list Event) :
  m b = prepend t x ->
  try_catch m h b =
  prepend t (match x with
             | (Thrown e, b1, t1) => prepend t1 (h e b1)
             | r => r
             end).
Proof.
  intros H. unfold try_catch. rewrite H. destruct x as [[o b1] t1].
  destruct o as [a|e|]; cbn [prepend]; try reflexivity.
  destruct (h e b1) as [[o2 b2] t2]. cbn [prepend]. now rewrite app_assoc.
Qed.

(** [deployToCloudRun] from a failed dry run on. *)
Lemma deployToCloudRun_dry_run_failed (skipIamCheck exists_ : bool)
    (b b1 b2 : B) (t1 t2 : list Event) (e : JsError) :
  checkCloudRunServiceExists context projectId location serviceId cb b =
    (Returned exists_, b1, t1) ->
  dry_run_call context projectId location serviceId
    (initial_service serviceId now imgUrl skipIamCheck) exists_ b1 =
    (Thrown e, b2, t2) ->
  deployToCloudRun checkCloudRunServiceExists context now projectId location
    serviceId imgUrl cb skipIamCheck b =
  prepend (t1 ++ dry_run_failed_events serviceId cb t2 e)
    (if invoker_flag_rejected skipIamCheck e then
       prepend
         (log_events
            fallback_notice
            cb lvl_warn)
         (try_catch
            (deploy_finish context projectId location serviceId cb exists_
               (delete_invokerIamDisabled
                  (initial_service serviceId now imgUrl skipIamCheck)))
            (deploy_failure serviceId cb) b2)
     else
       (Thrown (Error (dry_run_failure serviceId e)), b2,
        log_events (dry_run_failure serviceId e) cb lvl_error ++
        [Console console_error
           ("Error deploying/updating service " +++ serviceId +++ ":")] ++
        log_events
          ("Error deploying/updating service " +++ serviceId +++ ": " +++
           dry_run_failure serviceId e) cb lvl_error)).
Proof.
  intros Hexists Hdry. unfold deployToCloudRun.
  fold (initial_service serviceId now imgUrl skipIamCheck).
  set (service := initial_service serviceId now imgUrl skipIamCheck) in *.
  assert (Hcall : forall C (k : Operation B ServiceRecord -> M B C),
            bind
              (if exists_
               then
                 callWithRetry
                   (invoke
                      (fun r => UpdateServiceCall
                         (set_name service
                            (run_servicePath context projectId location
                               serviceId)) true (forget r))
                      (run_updateService context
                         (set_name service
                            (run_servicePath context projectId location
                               serviceId)) true))
                   ("updateService (dry run) " +++ serviceId)
               else
                 callWithRetry
                   (invoke
                      (fun r => CreateServiceCall
                         (run_locationPath context projectId location)
                         service serviceId true (forget r))
                      (run_createService context
                         (run_locationPath context projectId location)
                         service serviceId true))
                   ("createService (dry run) " +++ serviceId)) k b1 =
            (Thrown e, b2, t2)).
  { intros C k. apply bind_thrown. rewrite <- Hdry. unfold dry_run_call.
    destruct exists_; reflexivity. }
  rewrite (try_catch_prepend _ _ _
             (t1 ++ dry_run_failed_events serviceId cb t2 e)
             (if invoker_flag_rejected skipIamCheck e then
                prepend
                  (log_events
                     fallback_notice
                     cb lvl_warn)
                  (deploy_finish context projectId location serviceId cb
                     exists_ (delete_invokerIamDisabled service) b2)
              else
                (Thrown (Error (dry_run_failure serviceId e)), b2,
                 log_events (dry_run_failure serviceId e) cb lvl_error))).
  2:{ rewrite (bind_returned _ _ _ _ _ _ Hexists).
      unfold bind at 1. unfold try_catch at 1.
      rewrite bind_logAndProgress, Hcall. cbn [prepend].
      rewrite bind_logAndProgress.
      unfold dry_run_failed_events, dry_run_failure.
      destruct (invoker_flag_rejected skipIamCheck e).
      - rewrite bind_logAndProgress. cbn [ret prepend].
        unfold deploy_finish, real_mutation.
        destruct exists_;
          match goal with |- context [bind ?m ?k b2] =>
            destruct (bind m k b2) as [[o3 b3] t3] end;
          cbn [prepend]; f_equal; trace_eq.
      - rewrite bind_logAndProgress. unfold throw. cbn [prepend].
        f_equal. trace_eq. }
  unfold dry_run_failed_events, dry_run_failure.
  destruct (invoker_flag_rejected skipIamCheck e).
  - f_equal. unfold try_catch.
    destruct (deploy_finish context projectId location serviceId cb exists_
                (delete_invokerIamDisabled service) b2) as [[o3 b3] t3].
    destruct o3 as [a|e3|]; cbn [prepend]; try reflexivity.
    fold (@deploy_failure B serviceId cb e3).
    destruct (deploy_failure serviceId cb e3 b3) as [[o4 b4] t4].
    cbn [prepend]. f_equal. trace_eq.
  - f_equal. rewrite bind_console, bind_logAndProgress. unfold throw.
    cbn [prepend]. f_equal. trace_eq.
Qed.

Lemma invoker_flag_rejected_spec (e : JsError) :
  invoker_flag_rejected true e = true <-> invoker_rejection e.
Proof.
  unfold invoker_flag_rejected, invoker_rejection, mentions_invoker, code_is.
  cbn [andb]. destruct (message e) as [m|].
  - split.
    + intros H. apply andb_true_iff in H as [Hm H]. exists m.
      split; [reflexivity|]. split; [now destruct m|].
      apply orb_true_iff in H as [H|H]; [now left|right].
      destruct (code e) as [c|]; [|discriminate].
      apply Z.eqb_eq in H. now subst.
    + intros (m' & Heq & Hne & H). injection Heq as <-.
      apply andb_true_iff. split; [now destruct m|].
      apply orb_true_iff. destruct H as [H|H]; [now left|right].
      rewrite H. reflexivity.
  - split; [discriminate|]. intros (m' & Heq & _). discriminate.
Qed.

(** A dry-run failure the heuristic does not recognise is fatal: the
    error names the service and nothing is submitted after the dry run. *)
Lemma deployToCloudRun_aborts (skipIamCheck exists_ : bool)
    (b b1 b2 : B) (t1 t2 : list Event) (e : JsError) :
  checkCloudRunServiceExists context projectId location serviceId cb b =
    (Returned exists_, b1, t1) ->
  dry_run_call context projectId location serviceId
    (initial_service serviceId now imgUrl skipIamCheck) exists_ b1 =
    (Thrown e, b2, t2) ->
  invoker_flag_rejected skipIamCheck e = false ->
  let r := deployToCloudRun checkCloudRunServiceExists context now projectId
             location serviceId imgUrl cb skipIamCheck b in
  outcome r = Thrown (Error (dry_run_failure serviceId e)) /\
  includes (dry_run_failure serviceId e) serviceId = true /\
  backend r = b2 /\
  real_mutations (events r) = real_mutations t1.
Proof.
  intros Hexists Hdry Hrej r. subst r.
  rewrite (deployToCloudRun_dry_run_failed _ _ _ _ _ _ _ _ Hexists Hdry), Hrej.
  cbn [prepend]. unfold outcome, backend, events. cbn [fst snd].
  split; [reflexivity|]. split; [apply includes_append|].
  split; [reflexivity|].
  unfold dry_run_failed_events.
  rewrite !real_mutations_app, !real_mutations_log_events.
  replace t2 with
    (events (dry_run_call context projectId location serviceId
               (initial_service serviceId now imgUrl skipIamCheck)
               exists_ b1)) by now rewrite Hdry.
  rewrite dry_run_call_no_mutation. cbn [app real_mutations flat_map].
  now rewrite !app_nil_r.
Qed.

(** C1, as the code has it. With the invoker-bypass flag set, when the dry
    run fails with an error whose message is not empty and either contains
    an invoker-related phrase or comes with the invalid-argument code, the
    deployer goes on and submits the real create-or-update call with
    [invokerIamDisabled] removed from the service definition. On any other
    dry-run failure it throws an error naming the service and submits no
    real mutation. *)
Theorem deployToCloudRun_dry_run_fallback (exists_ : bool)
    (b b1 b2 : B) (t1 t2 : list Event) (e : JsError) :
  checkCloudRunServiceExists context projectId location serviceId cb b =
    (Returned exists_, b1, t1) ->
  dry_run_call context projectId location serviceId
    (initial_service serviceId now imgUrl true) exists_ b1 =
    (Thrown e, b2, t2) ->
  let r := deployToCloudRun checkCloudRunServiceExists context now projectId
             location serviceId imgUrl cb true b in
  let adjusted :=
    delete_invokerIamDisabled (initial_service serviceId now imgUrl true) in
  (invoker_rejection e ->
   exists before submitted o after,
     events r =
       before ++
       mutation_event context projectId location serviceId adjusted exists_ o
       :: after /\
     real_mutations before = real_mutations t1 /\
     real_mutations
       [mutation_event context projectId location serviceId adjusted
          exists_ o] = [submitted] /\
     invokerIamDisabled submitted = None) /\
  (~ invoker_rejection e ->
   outcome r = Thrown (Error (dry_run_failure serviceId e)) /\
   includes (dry_run_failure serviceId e) serviceId = true /\
   backend r = b2 /\
   real_mutations (events r) = real_mutations t1).
Proof.
  intros Hexists Hdry r adjusted. split.
  - intros Hrej. apply invoker_flag_rejected_spec in Hrej. subst r.
    rewrite (deployToCloudRun_dry_run_failed _ _ _ _ _ _ _ _ Hexists Hdry).
    rewrite Hrej, prepend_prepend, events_prepend. fold adjusted.
    destruct (real_mutation_first_event adjusted exists_ b2)
      as (o & rest & Hfirst).
    assert (Hfinish : exists tail,
              events (try_catch
                        (deploy_finish context projectId location serviceId
                           cb exists_ adjusted)
                        (deploy_failure serviceId cb) b2) =
              log_events
                (if exists_
                 then "Updating existing service " +++ serviceId +++ "..."
                 else "Creating new service " +++ serviceId +++ "...")
                cb lvl_info ++
              (mutation_event context projectId location serviceId adjusted
                 exists_ o :: rest) ++ tail).
    { unfold try_catch, deploy_finish. unfold bind at 1.
      rewrite bind_logAndProgress.
      destruct (real_mutation context projectId location serviceId adjusted
                  exists_ b2) as [[o3 b3] t3].
      unfold events in Hfirst. cbn [snd] in Hfirst. subst t3.
      cbn [prepend]. destruct o3 as [op|e3|].
      - match goal with |- context [bind ?m ?k b3] =>
          destruct (bind m k b3) as [[o4 b4] t4] end.
        destruct o4 as [a|e4|].
        + exists t4. unfold events. cbn [snd]. trace_eq.
        + destruct (deploy_failure serviceId cb e4 b4) as [[o5 b5] t5].
          exists (t4 ++ t5). unfold events. cbn [snd]. trace_eq.
        + exists t4. unfold events. cbn [snd]. trace_eq.
      - destruct (deploy_failure serviceId cb e3 b3) as [[o5 b5] t5].
        exists t5. unfold events. cbn [snd]. trace_eq.
      - exists []. unfold events. cbn [snd]. trace_eq. }
    destruct Hfinish as [tail Hfinish]. rewrite Hfinish.
    exists ((t1 ++ dry_run_failed_events serviceId cb t2 e) ++
            log_events
              fallback_notice
              cb lvl_warn ++
            log_events
              (if exists_
               then "Updating existing service " +++ serviceId +++ "..."
               else "Creating new service " +++ serviceId +++ "...")
              cb lvl_info).
    exists (if exists_
            then set_name adjusted
                   (run_servicePath context projectId location serviceId)
            else adjusted).
    exists o, (rest ++ tail).
    split; [trace_eq|].
    split.
    + unfold dry_run_failed_events.
      rewrite !real_mutations_app, !real_mutations_log_events.
      replace t2 with
        (events (dry_run_call context projectId location serviceId
                   (initial_service serviceId now imgUrl true) exists_ b1))
        by now rewrite Hdry.
      rewrite dry_run_call_no_mutation. cbn [app]. now rewrite !app_nil_r.
    + unfold mutation_event. destruct exists_; split; reflexivity.
  - intros Hrej.
    apply (deployToCloudRun_aborts true exists_ b b1 b2 t1 t2 e Hexists Hdry).
    destruct (invoker_flag_rejected true e) eqn:H; [|reflexivity].
    apply invoker_flag_rejected_spec in H. contradiction.
Qed.

(** C10. With the invoker-bypass flag set, a dry-run failure with the
    invalid-argument code whose message is empty or absent does not
    trigger the fallback: the deployer throws the dry-run validation error
    and submits no real mutation. *)
Theorem deployToCloudRun_code_without_message (exists_ : bool)
    (b b1 b2 : B) (t1 t2 : list Event) (e : JsError) :
  checkCloudRunServiceExists context projectId location serviceId cb b =
    (Returned exists_, b1, t1) ->
  dry_run_call context projectId location serviceId
    (initial_service serviceId now imgUrl true) exists_ b1 =
    (Thrown e, b2, t2) ->
  code e = Some 3 ->
  message e = None \/ message e = Some EmptyString ->
  let r := deployToCloudRun checkCloudRunServiceExists context now projectId
             location serviceId imgUrl cb true b in
  outcome r = Thrown (Error (dry_run_failure serviceId e)) /\
  includes (dry_run_failure serviceId e) serviceId = true /\
  backend r = b2 /\
  real_mutations (events r) = real_mutations t1.
Proof.
  intros Hexists Hdry Hcode Hmsg.
  apply (deployToCloudRun_aborts true exists_ b b1 b2 t1 t2 e Hexists Hdry).
  unfold invoker_flag_rejected.
  destruct Hmsg as [-> | ->]; reflexivity.
Qed.

End DeployFacts.

(** ** The packager *)

Section ZipFacts.

Context {B : Type}.
Variable node : Node.

Import Archive.

Lemma startsWith_c (s : string) :
  startsWith s "/c" = true ->
  exists rest, s = "/c" +++ rest /\ "/mnt" +++ s = "/mnt/c" +++ rest.
Proof.
  unfold startsWith. intros H.
  destruct s as [|c1 s]; cbn [String.prefix] in H; [discriminate|].
  destruct (ascii_dec "/" c1) as [<-|]; [|discriminate].
  destruct s as [|c2 rest]; cbn [String.prefix] in H; [discriminate|].
  destruct (ascii_dec "c" c2) as [<-|]; [|discriminate].
  exists rest. split; reflexivity.
Qed.

(** What the packager does with one item that is not [null]. *)
Lemma zipFiles_item_cases (file : FileItem) :
  (forall s, file = ItemString s ->
     (fs_existsSync node (zip_path node s) = false ->
      zipFiles_item node file =
      Thrown (Error ("File or directory not found: " +++ zip_path node s))) /\
     (fs_existsSync node (zip_path node s) = true ->
      fs_statSync_isDirectory node (zip_path node s) = inr true ->
      zipFiles_item node file = Returned (Directory (zip_path node s) None))) /\
  (neither_shape file -> file <> ItemNull ->
   zipFiles_item node file =
   Thrown (Error ("Invalid file format: " +++ JSON_stringify node file))).
Proof.
  split.
  - intros s ->. unfold zipFiles_item, zip_path, is_file_object.
    cbn [typeof String.eqb]. split.
    + intros ->. reflexivity.
    + intros -> ->. reflexivity.
  - intros Hshape Hnull.
    destruct file as [s|[f|] [c|]| | | |]; cbn in Hshape;
      try contradiction; try reflexivity.
Qed.

(** The items before the first one that throws are added in order; the
    error of that one is the error of the whole operation. *)
Lemma zipFiles_forEach_app (pre post : list FileItem) :
  forall archive,
    zipFiles_forEach node (pre ++ post) archive =
    match zipFiles_forEach node pre archive with
    | Returned archive' => zipFiles_forEach node post archive'
    | r => r
    end.
Proof.
  induction pre as [|file pre IH]; intros archive; [reflexivity|].
  cbn [app zipFiles_forEach].
  destruct (zipFiles_item node file); try reflexivity. apply IH.
Qed.

Lemma zipFiles_throws (pre post : list FileItem) (file : FileItem)
    (archive : list ArchiveEntry) (e : JsError) (cb : bool) (b : B) :
  zipFiles_forEach node pre [] = Returned archive ->
  zipFiles_item node file = Thrown e ->
  outcome (zipFiles node (pre ++ file :: post) cb b) = Thrown e.
Proof.
  intros Hpre Hitem. unfold zipFiles.
  rewrite bind_logAndProgress, outcome_prepend.
  rewrite zipFiles_forEach_app, Hpre. cbn [zipFiles_forEach].
  rewrite Hitem. reflexivity.
Qed.

(** C8, where the code departs from it. A [null] item is neither a
    string nor an object bearing both properties, yet the operation does
    not fail with "Invalid file format": [typeof null] is "object", so the
    test ['filename' in file] is evaluated and throws a TypeError. *)
Theorem zipFiles_null_item (cb : bool) (b : B) :
  neither_shape ItemNull /\
  outcome (zipFiles node [ItemNull] cb b) =
    Thrown (TypeError
      "Cannot use 'in' operator to search for 'filename' in null") /\
  includes "Cannot use 'in' operator to search for 'filename' in null"
    "Invalid file format" = false.
Proof.
  split; [exact I|]. split; [|reflexivity].
  apply (zipFiles_throws [] [] ItemNull []); reflexivity.
Qed.

(** For the other items the packager does what C8 says: on reaching a
    string item it resolves the path with a leading "/c" rewritten to
    "/mnt/c" and fails with "File or directory not found" when the path
    does not exist; a directory is added with no destination folder; an
    item of neither shape fails with "Invalid file format". *)
Lemma zipFiles_items (pre post : list FileItem) (file : FileItem)
    (archive : list ArchiveEntry) (cb : bool) (b : B) :
  zipFiles_forEach node pre [] = Returned archive ->
  (forall s, file = ItemString s ->
     (startsWith s "/c" = true ->
      exists rest, s = "/c" +++ rest /\
                   zip_path node s = path_resolve node ("/mnt/c" +++ rest)) /\
     (fs_existsSync node (zip_path node s) = false ->
      outcome (zipFiles node (pre ++ file :: post) cb b) =
      Thrown (Error ("File or directory not found: " +++ zip_path node s))) /\
     (fs_existsSync node (zip_path node s) = true ->
      fs_statSync_isDirectory node (zip_path node s) = inr true ->
      zipFiles_forEach node (pre ++ [file]) [] =
      Returned (archive ++ [Directory (zip_path node s) None]))) /\
  (neither_shape file -> file <> ItemNull ->
   exists m,
     outcome (zipFiles node (pre ++ file :: post) cb b) = Thrown (Error m) /\
     includes m "Invalid file format" = true).
Proof.
  intros Hpre. destruct (zipFiles_item_cases file) as [Hstr Hinv]. split.
  - intros s Hs. destruct (Hstr s Hs) as [Hmissing Hdir]. split; [|split].
    + intros Hc. destruct (startsWith_c s Hc) as (rest & Heq & Hmnt).
      exists rest. split; [exact Heq|]. unfold zip_path. now rewrite Hc, Hmnt.
    + intros Hno. apply (zipFiles_throws pre post file archive); auto.
    + intros Hyes Hisdir. rewrite zipFiles_forEach_app, Hpre.
      cbn [zipFiles_forEach]. now rewrite (Hdir Hyes Hisdir).
  - intros Hshape Hnull.
    exists ("Invalid file format: " +++ JSON_stringify node file). split.
    + apply (zipFiles_throws pre post file archive); auto.
    + change (includes
                ("Invalid file format" +++ ": " +++ JSON_stringify node file)
                "Invalid file format" = true).
      apply includes_here.
Qed.

End ZipFacts.

(** ** The Dockerfile detection of [deploy] *)

Section DetectionFacts.

Variable node : Node.

Import Deployer Archive.

Lemma hasDockerfile_in_list_spec (files : list FileItem) :
  ~ In ItemNull files ->
  hasDockerfile_in_list node files =
  Returned (existsb (dockerfile_item node) files).
Proof.
  induction files as [|file files IH]; intros Hnull; [reflexivity|].
  assert (Hrest : ~ In ItemNull files) by (intros H; apply Hnull; now right).
  assert (Hfile : file <> ItemNull) by (intros ->; apply Hnull; now left).
  specialize (IH Hrest). cbn [hasDockerfile_in_list existsb].
  unfold dockerfile_item at 1.
  destruct file as [s|[f|] c| | | |]; cbn [item_name typeof String.eqb Ascii.eqb Bool.eqb get_filename orb];
    try exact IH; try contradiction.
  - destruct (toLowerCase (path_basename node s) =? "dockerfile")%string;
      [reflexivity|exact IH].
  - destruct (truthy f); [|exact IH].
    destruct (toLowerCase (path_basename node f) =? "dockerfile")%string;
      [reflexivity|exact IH].
Qed.

Lemma deploy_hasDockerfile_list (files : list FileItem) :
  explicit_file_list node files ->
  ~ In ItemNull files ->
  deploy_hasDockerfile node files =
  Returned (existsb (dockerfile_item node) files).
Proof.
  intros Hlist Hnull. unfold deploy_hasDockerfile.
  destruct files as [|file [|file2 rest]];
    [apply hasDockerfile_in_list_spec; exact Hnull| |
     destruct file; apply hasDockerfile_in_list_spec; exact Hnull].
  destruct file as [dir| | | | |];
    try (apply hasDockerfile_in_list_spec; exact Hnull).
  rewrite (Hlist dir eq_refl).
  apply hasDockerfile_in_list_spec; exact Hnull.
Qed.

End DetectionFacts.

Lemma detected_spec (o : Outcome bool) (flag : bool) :
  detected o flag = true -> o = Returned flag.
Proof.
  destruct o as [found| |]; try discriminate. cbn [detected].
  intros H. apply Bool.eqb_prop in H. now subst.
Qed.

(** A letter is among the ways of writing its lower-case form. *)
Lemma letter_spelled (c : ascii) :
  In c (if Ascii.eqb (lower_ascii (lower_ascii c))
            (upper_ascii (lower_ascii c))
        then [lower_ascii c]
        else [lower_ascii (lower_ascii c); upper_ascii (lower_ascii c)]).
Proof.
  destruct c as [[] [] [] [] [] [] [] []]; vm_compute; tauto.
Qed.

(** A name is among the spellings of its lower-case form. *)
Lemma spellings_lower (name : string) :
  In name (spellings (toLowerCase name)).
Proof.
  induction name as [|c rest IH]; [left; reflexivity|].
  cbn [toLowerCase spellings]. apply in_flat_map.
  exists rest. split; [exact IH|].
  pose proof (letter_spelled c) as Hc.
  destruct (Ascii.eqb (lower_ascii (lower_ascii c))
              (upper_ascii (lower_ascii c))) eqn:Hcase.
  - destruct Hc as [Hc|[]]. left. now rewrite Hc.
  - destruct Hc as [Hc|[Hc|[]]]; [left | right; left]; now rewrite Hc.
Qed.

(** C9. The detection is not case-insensitive for a single-directory
    input. On a case-sensitive file system, a directory whose one file
    has a name that case-insensitively equals "dockerfile" but is
    written in another way than "Dockerfile" and "dockerfile"
    (DOCKERFILE, DockerFile, ...) is not detected; the same file given
    in an explicit list is detected, and so is the directory on a file
    system that is not case-sensitive. For an explicit list of path
    strings and file objects the detection is as claimed: true exactly
    when the base name of some item, lower-cased, is "dockerfile". *)
Theorem deploy_hasDockerfile_directory_spelling :
  (forall name,
      toLowerCase name = "dockerfile"%string ->
      name <> "Dockerfile"%string -> name <> "dockerfile"%string ->
      Deployer.deploy_hasDockerfile (app_with true name)
        [ItemString "/app"] = Returned false /\
      Deployer.deploy_hasDockerfile (app_with true name)
        [ItemString ("/app/" +++ name)] = Returned true /\
      Deployer.deploy_hasDockerfile (app_with false name)
        [ItemString "/app"] = Returned true) /\
  (forall (node : Node) (files : list FileItem),
      explicit_file_list node files ->
      ~ In ItemNull files ->
      Deployer.deploy_hasDockerfile node files =
      Returned (existsb (dockerfile_item node) files)).
Proof.
  split; [|intros node files; apply deploy_hasDockerfile_list].
  assert (Hall : forallb
                   (fun name =>
                      (name =? "Dockerfile")%string ||
                      (name =? "dockerfile")%string ||
                      spelling_missed name)
                   (spellings "dockerfile") = true)
    by (vm_compute; reflexivity).
  intros name Hlowered Hupper Hlower.
  assert (Hin : In name (spellings "dockerfile"))
    by (rewrite <- Hlowered; apply spellings_lower).
  pose proof (proj1 (forallb_forall _ _) Hall name Hin) as H.
  cbv beta in H.
  apply String.eqb_neq in Hupper, Hlower. rewrite Hupper, Hlower in H.
  cbn [orb] in H. unfold spelling_missed in H.
  apply andb_prop in H as [H Hinsensitive].
  apply andb_prop in H as [H Hlisted].
  apply andb_prop in H as [_ Hmissed].
  repeat split; now apply detected_spec.
Qed.

(** * The properties on concrete runs *)

Import Helpers.

Lemma callWithRetry_outcome_sequences_witness :
  outcome
    (callWithRetry scripted "getService"
       [Thrown permission_denied; Thrown permission_denied; Returned 42%nat]) =
    Returned 42%nat /\
  outcome
    (callWithRetry scripted "getService"
       (repeat (Thrown permission_denied) 8 ++ [Returned 42%nat])) =
    Thrown permission_denied /\
  outcome
    (callWithRetry scripted "getService"
       [Thrown permission_denied; Thrown not_found; Returned 42%nat]) =
    Thrown not_found.
Proof.
  split; [|split].
  - apply (proj1 (callWithRetry_outcome_sequences scripted "getService" _)
             [permission_denied; permission_denied] 42%nat);
      [cbn; lia|reflexivity|reflexivity].
  - apply (proj1 (proj2 (callWithRetry_outcome_sequences scripted
                           "getService" _))
             (repeat permission_denied 7) permission_denied);
      reflexivity.
  - apply (proj2 (proj2 (callWithRetry_outcome_sequences scripted
                           "getService" _))
             [permission_denied] not_found);
      [cbn; lia|reflexivity|reflexivity|reflexivity].
Defined.

Lemma callWithRetry_backoff_schedule_witness :
  sleeps
    (events
       (callWithRetry scripted "getService"
          (repeat (Thrown permission_denied) 7 ++ [Returned 42%nat]))) =
  [15000; 1000; 2000; 4000; 8000; 16000; 32000].
Proof.
  apply (proj1 (proj2
           (callWithRetry_backoff_schedule scripted "getService"
              (repeat (Thrown permission_denied) 7 ++ [Returned 42%nat])
              (repeat permission_denied 7)
              ltac:(cbn; lia) eq_refl eq_refl (or_introl eq_refl)))).
  - repeat constructor.
  - reflexivity.
Defined.

Lemma project_context_succeeds : gate_calls_succeed project_context.
Proof.
  split.
  - intros name b. eexists. reflexivity.
  - intros name b. eexists. split; [reflexivity|]. intros b'. reflexivity.
Defined.


Lemma ensureApisEnabled_single_gate_retry_witness :
  ensureApisEnabled gate_context "p"
    ["run.googleapis.com"; "iam.googleapis.com"]%string false
    [Thrown not_found; Thrown not_found;
     Returned {| state := "ENABLED" |}] =
  (Thrown
     (Error
        "Failed to ensure API [run.googleapis.com] is enabled after retry. Please check manually."),
   [Returned {| state := "ENABLED" |}],
   [Console console_log "Checking and enabling required APIs...";
    GetServiceCall "projects/p/services/run.googleapis.com" (Thrown not_found);
    Console console_warn
      "Failed to check/enable run.googleapis.com, retrying in 1s...";
    Sleep 1000;
    GetServiceCall "projects/p/services/run.googleapis.com" (Thrown not_found);
    Console console_error
      "Failed to ensure API [run.googleapis.com] is enabled after retry. Please check manually."]).
Proof.
  apply (proj1 (proj2
           (ensureApisEnabled_single_gate_retry gate_context "p" []
              "run.googleapis.com" ["iam.googleapis.com"%string] false
              [Thrown not_found; Thrown not_found;
               Returned {| state := "ENABLED" |}]
              _ _ [] _ not_found eq_refl eq_refl)) not_found).
  reflexivity.
Defined.

Import CloudBuild.

Lemma triggerCloudBuild_polls_until_terminal_witness :
  (let r := triggerCloudBuild 3 (build_context Pending) "p" "r" "p-source-bucket"
              "source.zip" "repo" "r-docker.pkg.dev/p/repo/s:latest" true false
              [Returned (build_with "WORKING");
               Returned (build_with "WORKING");
               Returned (build_with "SUCCESS")] in
   outcome r = Returned (build_with "SUCCESS") /\
   sleeps (events r) = [5000; 5000] /\
   getBuild_calls (events r) =
     [("p", "build-1"); ("p", "build-1"); ("p", "build-1")]%string) /\
  (let r := pollBuild 2 (build_context Pending) "p" "build-1" false
              [Returned (build_with "QUEUED");
               Returned (build_with "TIMEOUT")] in
   outcome r = Returned (build_with "TIMEOUT") /\
   sleeps (events r) = repeat 5000 1 /\
   length (getBuild_calls (events r)) = 2%nat).
Proof.
  split.
  - apply (proj1 (triggerCloudBuild_polls_until_terminal
                    (build_context Pending) "p" "build-1" false)
             3%nat "r"%string "p-source-bucket"%string "source.zip"%string
             "repo"%string "r-docker.pkg.dev/p/repo/s:latest"%string true
             [Returned (build_with "WORKING");
              Returned (build_with "WORKING");
              Returned (build_with "SUCCESS")]
             [Returned (build_with "WORKING");
              Returned (build_with "WORKING");
              Returned (build_with "SUCCESS")]
             (build_with "WORKING") (build_with "WORKING")
             (build_with "SUCCESS") _ []
             eq_refl eq_refl eq_refl eq_refl eq_refl eq_refl (le_n 3)).
  - apply (proj1 (proj2 (triggerCloudBuild_polls_until_terminal
                           (build_context Pending) "p" "build-1" false))
             [build_with "QUEUED"] (build_with "TIMEOUT") 2%nat
             [Returned (build_with "QUEUED");
              Returned (build_with "TIMEOUT")]
             eq_refl).
    + repeat constructor. cbn. intuition discriminate.
    + apply le_n.
    + cbn. tauto.
Defined.

Lemma triggerCloudBuild_failure_message_witness :
  outcome
    (triggerCloudBuild 1
       (scripted_build_context
          (Returned (Some [ {| data := Some (Text "log line 2") |};
                            {| data := Some (Structured "[object Object]") |};
                            {| data := Some (Text "log line 1") |} ])))
       "p" "r" "p-source-bucket" "source.zip" "repo"
       "r-docker.pkg.dev/p/repo/s:latest" true false
       {| submissions := [Thrown permission_denied; Returned "build-1"%string];
          records := [Returned (build_with "FAILURE")] |}) =
    Thrown
      (Error
         ("Build build-1 failed." +++ newline +++ newline +++
          "Last 3 log lines from build build-1:" +++ newline +++
          "log line 1" +++ newline +++ "[object Object]" +++ newline +++
          "log line 2")) /\
  outcome
    (triggerCloudBuild 1 (build_context (Thrown not_found))
       "p" "r" "p-source-bucket" "source.zip" "repo"
       "r-docker.pkg.dev/p/repo/s:latest" true false
       [Returned (build_with "FAILURE")]) =
    Thrown
      (Error
         ("Build build-1 failed." +++ newline +++ newline +++
          "Refer to Log URL for full details: https://console.example/logs/build-1")).
Proof.
  split.
  - apply (proj1
             (triggerCloudBuild_failure_message
                (scripted_build_context
                   (Returned
                      (Some [ {| data := Some (Text "log line 2") |};
                              {| data :=
                                   Some (Structured "[object Object]") |};
                              {| data := Some (Text "log line 1") |} ])))
                "p" "build-1" false 1 "r" "p-source-bucket" "source.zip"
                "repo" "r-docker.pkg.dev/p/repo/s:latest" true
                {| submissions :=
                     [Thrown permission_denied; Returned "build-1"%string];
                   records := [Returned (build_with "FAILURE")] |}
                {| submissions := [];
                   records := [Returned (build_with "FAILURE")] |}
                {| submissions := []; records := [] |}
                (build_with "FAILURE")
                [CreateBuildCall "p"
                   (build_request "p-source-bucket" "source.zip"
                      "r-docker.pkg.dev/p/repo/s:latest" true)
                   (Thrown permission_denied);
                 Console console_warn
                   (retry_warning "cloudBuild.createBuild" 1);
                 Sleep 15000;
                 CreateBuildCall "p"
                   (build_request "p-source-bucket" "source.zip"
                      "r-docker.pkg.dev/p/repo/s:latest" true)
                   (Returned "build-1"%string)]
                [GetBuildCall "p" "build-1" (Returned (build_with "FAILURE"))]
                eq_refl eq_refl
                ltac:(discriminate))
             [ {| data := Some (Text "log line 2") |};
               {| data := Some (Structured "[object Object]") |};
               {| data := Some (Text "log line 1") |} ]
             eq_refl ltac:(discriminate)).
  - apply (proj2
             (triggerCloudBuild_failure_message
                (build_context (Thrown not_found))
                "p" "build-1" false 1 "r" "p-source-bucket" "source.zip"
                "repo" "r-docker.pkg.dev/p/repo/s:latest" true
                [Returned (build_with "FAILURE")]
                [Returned (build_with "FAILURE")] []
                (build_with "FAILURE")
                [CreateBuildCall "p"
                   (build_request "p-source-bucket" "source.zip"
                      "r-docker.pkg.dev/p/repo/s:latest" true)
                   (Returned "build-1"%string)]
                [GetBuildCall "p" "build-1" (Returned (build_with "FAILURE"))]
                eq_refl eq_refl
                ltac:(discriminate))
             (or_introl (ex_intro _ not_found eq_refl))).
Defined.

Import Deployer Archive.

Lemma deployToCloudRun_dry_run_fallback_witness :
  (exists before submitted o after,
     events
       (deployToCloudRun service_absent
          (rejecting_context
             (invalid_argument
                (Some "Field invokerIamDisabled is not allowed"%string)))
          1700000000000 "p" "r" "s" "img" false true tt) =
     before ++
     CreateServiceCall "projects/p/locations/r"
       (delete_invokerIamDisabled
          (initial_service "s" 1700000000000 "img" true)) "s" false o
     :: after /\
     real_mutations before = [] /\
     submitted =
       delete_invokerIamDisabled
         (initial_service "s" 1700000000000 "img" true) /\
     invokerIamDisabled submitted = None) /\
  outcome
    (deployToCloudRun service_absent (rejecting_context not_found)
       1700000000000 "p" "r" "s" "img" false true tt) =
  Thrown (Error "Dry run validation failed for service s: 5 NOT_FOUND").
Proof.
  split.
  - destruct (proj1
                (deployToCloudRun_dry_run_fallback service_absent
                   (rejecting_context
                      (invalid_argument
                         (Some "Field invokerIamDisabled is not allowed"%string)))
                   1700000000000 "p" "r" "s" "img" false false tt tt tt []
                   _ _ eq_refl eq_refl))
      as (before & submitted & o & after & Hev & Hbefore & Hsub & Hflag).
    + exists "Field invokerIamDisabled is not allowed"%string.
      split; [reflexivity|]. split; [discriminate|]. left. reflexivity.
    + exists before, submitted, o, after.
      split; [exact Hev|]. split; [exact Hbefore|].
      split; [now injection Hsub|exact Hflag].
  - apply (proj2
             (deployToCloudRun_dry_run_fallback service_absent
                (rejecting_context not_found)
                1700000000000 "p" "r" "s" "img" false false tt tt tt []
                _ _ eq_refl eq_refl)).
    intros (m & Hm & _ & [H|H]).
    + injection Hm as <-. discriminate H.
    + discriminate H.
Defined.

Lemma deployToCloudRun_code_without_message_witness :
  outcome
    (deployToCloudRun service_absent
       (rejecting_context (invalid_argument None))
       1700000000000 "p" "r" "s" "img" false true tt) =
    Thrown (Error "Dry run validation failed for service s: undefined") /\
  real_mutations
    (events
       (deployToCloudRun service_absent
          (rejecting_context (invalid_argument (Some EmptyString)))
          1700000000000 "p" "r" "s" "img" false true tt)) = [].
Proof.
  split.
  - apply (deployToCloudRun_code_without_message service_absent
             (rejecting_context (invalid_argument None))
             1700000000000 "p" "r" "s" "img" false false tt tt tt []
             _ _ eq_refl eq_refl eq_refl (or_introl eq_refl)).
  - apply (deployToCloudRun_code_without_message service_absent
             (rejecting_context (invalid_argument (Some EmptyString)))
             1700000000000 "p" "r" "s" "img" false false tt tt tt []
             _ _ eq_refl eq_refl eq_refl (or_intror eq_refl)).
Defined.

(** C1 as worded does not hold: an invalid-argument dry-run error whose
    message is absent falls under its condition, and the deployer
    submits no real mutation. *)
Lemma fallback_as_worded_counterexample : ~ fallback_as_worded.
Proof.
  intros H.
  apply (H unit service_absent (rejecting_context (invalid_argument None))
           1700000000000 "p"%string "r"%string "s"%string "img"%string
           false false tt tt tt []
           [CreateServiceCall "projects/p/locations/r"
              (initial_service "s" 1700000000000 "img" true) "s" true
              (Thrown (invalid_argument None))]
           (invalid_argument None) eq_refl eq_refl (or_intror eq_refl)).
  reflexivity.
Qed.

Lemma deploy_hasDockerfile_directory_spelling_witness :
  Deployer.deploy_hasDockerfile (posix_node ["/app"%string]
                                   ["/app/DOCKERFILE"%string])
    [ItemString "/app"] = Returned false /\
  Deployer.deploy_hasDockerfile (posix_node ["/app"%string]
                                   ["/app/DOCKERFILE"%string])
    [ItemString "/app/DOCKERFILE"] = Returned true /\
  Deployer.deploy_hasDockerfile
    (file_system_node false "/" ["/app"%string] ["/app/DOCKERFILE"%string])
    [ItemString "/app"] = Returned true.
Proof.
  apply (proj1 deploy_hasDockerfile_directory_spelling "DOCKERFILE"%string).
  - reflexivity.
  - discriminate.
  - discriminate.
Defined.

(** ** The cases of the repository's tests for [triggerCloudBuild] *)

(** "should poll for build status until completion": WORKING, then
    SUCCESS; two [getBuild] calls and one wait of 5000 ms. *)
Example trigger_polls_until_completion :
  let r := triggerCloudBuild 2 (build_context Pending) "mock-project"
             "mock-location" "mock-bucket" "mock-blob" "mock-repo"
             "gcr.io/mock-project/mock-image" true true
             [Returned (build_with "WORKING");
              Returned (build_with "SUCCESS")] in
  outcome r = Returned (build_with "SUCCESS") /\
  length (getBuild_calls (events r)) = 2%nat /\
  sleeps (events r) = [5000].
Proof. repeat split. Qed.

(** "should handle failed build when no logs are found": the message
    keeps the log URL and has no fetched lines; one wait of 10000 ms
    before the single log fetch. *)
Example trigger_failed_build_without_logs :
  let r := triggerCloudBuild 1 (build_context (Returned (Some [])))
             "mock-project" "mock-location" "mock-bucket" "mock-blob"
             "mock-repo" "gcr.io/mock-project/mock-image" true true
             [Returned (build_with "FAILURE")] in
  outcome r =
    Thrown (Error ("Build build-1 failed." +++ newline +++ newline +++
                   "Refer to Log URL for full details: " +++
                   "https://console.example/logs/build-1")) /\
  sleeps (events r) = [10000] /\
  length (getEntries_calls (events r)) = 1%nat.
Proof. repeat split. Qed.

(** A status outside the terminal list keeps the loop polling: the model
    is still running when its fuel is spent. *)
Example trigger_keeps_polling :
  outcome
    (triggerCloudBuild 3 (build_context Pending) "p" "r" "b" "source.zip"
       "repo" "img" false false
       [Returned (build_with "QUEUED"); Returned (build_with "WORKING");
        Returned (build_with "EXPIRED"); Returned (build_with "SUCCESS")]) =
  Pending.
Proof. reflexivity. Qed.

(** ** Base names and letter case *)

Example basename_of_path :
  posix_basename "/app/src/Dockerfile" = "Dockerfile"%string /\
  posix_basename "Dockerfile" = "Dockerfile"%string /\
  posix_basename "/app/" = "app"%string.
Proof. repeat split. Qed.

Example lower_case_of_name :
  toLowerCase "DockerFile.Prod-1" = "dockerfile.prod-1"%string.
Proof. reflexivity. Qed.

Example joined_and_resolved_paths :
  posix_join "/app/" "Dockerfile" = "/app/Dockerfile"%string /\
  posix_join "/app" "Dockerfile" = "/app/Dockerfile"%string /\
  posix_join "app/../src" "./main.go" = "src/main.go"%string /\
  posix_resolve "/home/me" "app/./src/.." = "/home/me/app"%string /\
  posix_resolve "/home/me" "/app/" = "/app"%string.
Proof. repeat split. Qed.

Example wsl_prefix :
  zip_path (posix_node [] []) "/c/Users/me/app" = "/mnt/c/Users/me/app"%string /\
  zip_path (posix_node [] []) "/home/me/app" = "/home/me/app"%string.
Proof. split; reflexivity. Qed.

(** ** Packaging a folder and a file given by its content *)

Example zip_folder_and_content :
  zipFiles_forEach (posix_node ["/app"%string] ["/app/main.go"%string])
    [ItemString "/app"; ItemString "/app/main.go";
     ItemObject (Some "Dockerfile"%string) (Some "FROM scratch"%string)] [] =
  Returned
    [Directory "/app" None; File "/app/main.go" "main.go";
     Append (Some "FROM scratch"%string) (Some "Dockerfile"%string)].
Proof. reflexivity. Qed.

Example zip_missing_path :
  zipFiles_forEach (posix_node ["/app"%string] []) [ItemString "/c/app"] [] =
  Thrown (Error "File or directory not found: /mnt/c/app").
Proof. reflexivity. Qed.

Example zip_invalid_item :
  zipFiles_forEach (posix_node [] [])
    [ItemObject (Some "main.go"%string) None] [] =
  Thrown (Error ("Invalid file format: {" +++ dquote +++ "filename" +++
                 dquote +++ ":" +++ dquote +++ "main.go" +++ dquote +++ "}")).
Proof. reflexivity. Qed.

(** * Further properties *)

(** ** The retry executor, whatever the operation does *)

Section RetryRuns.

Context {B A : Type}.
Variable fn : M B A.
Variable description : string.

(** The shape of every run of the loop that starts with [n] retries
    left: [k <= n] failed invocations of the retryable class, each followed
    by its warning and wait, then one last invocation whose outcome is the
    outcome of the loop. *)
Lemma callWithRetry_loop_shape (n : nat) :
  (n <= 7)%nat ->
  forall b : B,
  exists (k : nat) (es : list JsError),
    (k <= n)%nat /\ length es = k /\
    outcomes fn b k = map Thrown es /\
    forallb retryable es = true /\
    callWithRetry_loop (S n) fn description (7 - Z.of_nat n) b =
      (outcome (fn (after fn b k)), after fn b (S k),
       retry_events description (7 - Z.of_nat n)
         (map snd (attempts fn b k)) ++
       events (fn (after fn b k))) /\
    (k = n \/
     forall e, outcome (fn (after fn b k)) = Thrown e -> retryable e = false).
Proof.
  induction n as [|n IH]; intros Hn b.
  - exists 0%nat, []. repeat split; try reflexivity; [|now left].
    rewrite callWithRetry_loop_step. cbn [after attempts map retry_events app].
    destruct (fn b) as [[o b1] t1] eqn:Hfn.
    unfold outcome, backend, events. cbn [fst snd].
    destruct o as [a|e|]; try reflexivity.
    replace (7 - Z.of_nat 0 <? maxRetries) with false by reflexivity.
    now rewrite andb_false_r.
  - rewrite callWithRetry_loop_step.
    destruct (fn b) as [[o b1] t1] eqn:Hfn.
    assert (Hstop : forall o' : Outcome A,
              o = o' ->
              (forall e, o' = Thrown e -> retryable e = false) ->
              exists (k : nat) (es : list JsError),
                (k <= S n)%nat /\ length es = k /\
                outcomes fn b k = map Thrown es /\
                forallb retryable es = true /\
                (o, b1, t1) =
                  (outcome (fn (after fn b k)), after fn b (S k),
                   retry_events description (7 - Z.of_nat (S n))
                     (map snd (attempts fn b k)) ++
                   events (fn (after fn b k))) /\
                (k = S n \/
                 forall e, outcome (fn (after fn b k)) = Thrown e ->
                           retryable e = false)).
    { intros o' <- Hnot. exists 0%nat, [].
      cbn [after attempts map retry_events app length outcomes forallb].
      rewrite Hfn. unfold outcome, backend, events. cbn [fst snd].
      repeat split; try reflexivity; try lia. right. exact Hnot. }
    destruct o as [a|e|].
    + apply (Hstop (Returned a) eq_refl). discriminate.
    + destruct (retryable e) eqn:He.
      * replace (7 - Z.of_nat (S n) <? maxRetries) with true
          by (symmetry; apply Z.ltb_lt; unfold maxRetries; lia).
        cbn [andb].
        replace (7 - Z.of_nat (S n) + 1) with (7 - Z.of_nat n) by lia.
        destruct (IH ltac:(lia) b1) as (k & es & Hk & Hlen & Hout & Hre & Hrun
                                        & Hlast).
        exists (S k), (e :: es).
        assert (Hb1 : backend (fn b) = b1) by now rewrite Hfn.
        split; [lia|]. split; [cbn; lia|]. split.
        { rewrite outcomes_S, Hfn. unfold outcome, backend. cbn [fst snd map].
          now rewrite Hout. }
        split; [cbn [forallb]; now rewrite He, Hre|]. split.
        { rewrite Hrun. cbv zeta. unfold outcome at 1, backend at 1, events at 1.
          cbn [fst snd].
          change (after fn b (S k)) with (after fn (backend (fn b)) k).
          change (after fn b (S (S k)))
            with (after fn (backend (fn b)) (S k)).
          rewrite Hb1. cbn [attempts]. rewrite Hfn.
          cbn [map snd retry_events].
          replace (7 - Z.of_nat (S n) + 1) with (7 - Z.of_nat n) by lia.
          f_equal. trace_eq. }
        destruct Hlast as [-> | Hlast]; [now left|right].
        change (after fn b (S k)) with (after fn (backend (fn b)) k).
        now rewrite Hb1.
      * cbn [andb]. apply (Hstop (Thrown e) eq_refl).
        intros e' He'. injection He' as <-. exact He.
    + apply (Hstop Pending eq_refl). discriminate.
Qed.

(** X1. Whatever the wrapped operation does, [callWithRetry] invokes it
    at most 8 times: it goes through [k <= 7] failures of the retryable
    class and ends as invocation [k + 1] ends, on the backend that
    invocation left; it never stops on a retryable failure while retries
    remain, and it is pending only if that last invocation is. *)
Theorem callWithRetry_at_most_eight_invocations (b : B) :
  exists (k : nat) (es : list JsError),
    (k <= 7)%nat /\ length es = k /\
    outcomes fn b k = map Thrown es /\
    forallb retryable es = true /\
    outcome (callWithRetry fn description b) = outcome (fn (after fn b k)) /\
    backend (callWithRetry fn description b) = after fn b (S k) /\
    events (callWithRetry fn description b) =
      retry_events description 0 (map snd (attempts fn b k)) ++
      events (fn (after fn b k)) /\
    (k = 7%nat \/
     forall e, outcome (fn (after fn b k)) = Thrown e -> retryable e = false).
Proof.
  destruct (callWithRetry_loop_shape 7 (le_n 7) b)
    as (k & es & Hk & Hlen & Hout & Hre & Hrun & Hlast).
  exists k, es. unfold callWithRetry.
  change (S (Z.to_nat maxRetries)) with 8%nat.
  change (7 - Z.of_nat 7) with 0 in Hrun. rewrite Hrun.
  repeat split; assumption.
Qed.

Lemma total_firstn_backoff (k : nat) :
  total (firstn k backoff_waits) <= 78000.
Proof.
  do 8 (destruct k as [|k]; [cbv; discriminate|]). cbv. discriminate.
Qed.

(** X2. When the operation itself never waits, the waits of a run of
    [callWithRetry] are the first [k <= 7] waits of the schedule 15000,
    1000, 2000, 4000, 8000, 16000, 32000: at most seven waits and at most
    78000 ms in all. *)
Theorem callWithRetry_total_wait (b : B) :
  (forall b', sleeps (events (fn b')) = []) ->
  exists k : nat,
    (k <= 7)%nat /\
    sleeps (events (callWithRetry fn description b)) =
      firstn k backoff_waits /\
    total (sleeps (events (callWithRetry fn description b))) <= 78000.
Proof.
  intros Hquiet.
  destruct (callWithRetry_loop_shape 7 (le_n 7) b)
    as (k & es & Hk & Hlen & Hout & Hre & Hrun & Hlast).
  exists k. split; [exact Hk|].
  assert (Hs : sleeps (events (callWithRetry fn description b)) =
               firstn k backoff_waits).
  { unfold callWithRetry. change (S (Z.to_nat maxRetries)) with 8%nat.
    change (7 - Z.of_nat 7) with 0 in Hrun. rewrite Hrun.
    unfold events at 1. cbn [snd].
    rewrite sleeps_app, Hquiet, app_nil_r.
    rewrite sleeps_retry_events.
    - rewrite length_map, attempts_length. clear - Hk.
      do 8 (destruct k as [|k]; [reflexivity|]). lia.
    - apply Forall_forall. intros t Hin.
      apply in_map_iff in Hin as ((o & t') & <- & Hin).
      cbn [snd]. clear - Hquiet Hin. revert b Hin.
      induction k as [|k IH]; intros b Hin; [contradiction|].
      cbn [attempts] in Hin. specialize (Hquiet b).
      destruct (fn b) as [[o1 b1] u1]. unfold events in Hquiet.
      cbn [snd] in Hquiet. destruct Hin as [Heq|Hin].
      + now injection Heq as _ <-.
      + exact (IH b1 Hin). }
  split; [exact Hs|]. rewrite Hs. apply total_firstn_backoff.
Qed.

End RetryRuns.

(** ** The activation gate, whatever the backend answers *)

Section GateRuns.

Context {B : Type}.
Variable context : Context B.
Variable projectId : string.
Variable cb : bool.

Lemma ensureApisEnabled_each_thrown (apis : list string) :
  forall (b : B) (e : JsError),
    outcome (ensureApisEnabled_each context projectId apis cb b) = Thrown e ->
    exists api, In api apis /\ e = Error (gate_error api).
Proof.
  induction apis as [|api rest IH]; intros b e Hthrown.
  - discriminate Hthrown.
  - assert (Hrest : forall b' t,
              outcome
                (prepend t
                   (ensureApisEnabled_each context projectId rest cb b')) =
              Thrown e ->
              exists api', In api' (api :: rest) /\ e = Error (gate_error api')).
    { intros b' t H. rewrite outcome_prepend in H.
      destruct (IH b' e H) as (api' & Hin & ->).
      exists api'. split; [now right|reflexivity]. }
    destruct (checkAndEnableApi context (api_service_name projectId api)
                api cb b) as [[o1 b1] t1] eqn:Hfirst.
    destruct o1 as [[]|e1|].
    + cbn [ensureApisEnabled_each] in Hthrown.
      erewrite bind_returned in Hthrown
        by (apply try_catch_returned; exact Hfirst).
      exact (Hrest _ _ Hthrown).
    + rewrite (ensureApisEnabled_each_retry context projectId api rest cb
                 b b1 t1 e1 Hfirst) in Hthrown.
      rewrite outcome_prepend in Hthrown.
      destruct (checkAndEnableApi context (api_service_name projectId api)
                  api cb b1) as [[o2 b2] t2].
      destruct o2 as [[]|e2|].
      * exact (Hrest _ _ Hthrown).
      * unfold outcome in Hthrown. cbn [fst] in Hthrown.
        injection Hthrown as <-. exists api. split; [now left|reflexivity].
      * discriminate Hthrown.
    + cbn [ensureApisEnabled_each] in Hthrown.
      erewrite bind_pending in Hthrown
        by (apply try_catch_pending; exact Hfirst).
      discriminate Hthrown.
Qed.

(** X3. The gate never lets a backend error through: whatever
    [getService], [enableService] or the operation throw, an error thrown
    by [ensureApisEnabled] is the gate's own error for one capability of
    the list, with the fixed message naming it. *)
Theorem ensureApisEnabled_throws_its_own_error (apis : list string) (b : B)
    (e : JsError) :
  outcome (ensureApisEnabled context projectId apis cb b) = Thrown e ->
  exists api,
    In api apis /\
    e = Error ("Failed to ensure API [" +++ api +++
               "] is enabled after retry. Please check manually.").
Proof.
  intros Hthrown. unfold ensureApisEnabled in Hthrown.
  rewrite bind_console, bind_progress, prepend_prepend, outcome_prepend
    in Hthrown.
  destruct (ensureApisEnabled_each context projectId apis cb b)
    as [[o1 b1] t1] eqn:Heach.
  destruct o1 as [[]|e1|].
  - rewrite (bind_returned _ _ _ _ _ _ Heach) in Hthrown.
    rewrite outcome_prepend, bind_console, outcome_prepend in Hthrown.
    unfold progress in Hthrown. destruct cb; discriminate Hthrown.
  - rewrite (bind_thrown _ _ _ _ _ _ Heach) in Hthrown.
    unfold outcome in Hthrown. cbn [fst] in Hthrown. injection Hthrown as <-.
    apply (ensureApisEnabled_each_thrown apis b e1). now rewrite Heach.
  - rewrite (bind_pending _ _ _ _ _ Heach) in Hthrown. discriminate Hthrown.
Qed.

Lemma checkAndEnableApi_when_enabled (name api : string) (b b1 : B)
    (service : ApiService) :
  serviceUsage_getService context name b = (Returned service, b1) ->
  state service = "ENABLED"%string ->
  checkAndEnableApi context name api cb b =
  (Returned tt, b1, [GetServiceCall name (Returned service)]).
Proof.
  intros Hget Hstate. unfold checkAndEnableApi.
  erewrite bind_returned.
  2:{ rewrite callWithRetry_settles with (a := service);
        unfold invoke; rewrite Hget; reflexivity. }
  rewrite Hstate. reflexivity.
Qed.

(** X4. When every capability of the list is fetched as ENABLED, the gate
    only reads: it returns after one [getService] per capability and calls
    [enableService] for none, whether or not enabling would work. *)
Theorem ensureApisEnabled_only_reads_when_enabled (apis : list string)
    (b : B) :
  (forall name b', exists service,
      fst (serviceUsage_getService context name b') = Returned service /\
      state service = "ENABLED"%string) ->
  let r := ensureApisEnabled context projectId apis cb b in
  outcome r = Returned tt /\
  enable_calls (events r) = [] /\
  map fst (fetched (events r)) = map (api_service_name projectId) apis.
Proof.
  intros Hget r.
  assert (Heach : forall apis' b',
            exists b'' t,
              ensureApisEnabled_each context projectId apis' cb b' =
                (Returned tt, b'', t) /\
              enable_calls t = [] /\
              map fst (fetched t) = map (api_service_name projectId) apis').
  { induction apis' as [|api rest IH]; intros b'.
    - exists b', []. repeat split.
    - destruct (Hget (api_service_name projectId api) b')
        as (service & Hs & Hstate).
      destruct (serviceUsage_getService context
                  (api_service_name projectId api) b') as [o b1] eqn:Hcall.
      cbn [fst] in Hs. subst o.
      destruct (IH b1) as (b2 & t2 & Hrest & Hen & Hf).
      exists b2. eexists. split; [|split].
      + cbn [ensureApisEnabled_each].
        erewrite bind_returned.
        2:{ apply try_catch_returned.
            exact (checkAndEnableApi_when_enabled _ api _ _ _ Hcall Hstate). }
        rewrite Hrest. reflexivity.
      + exact Hen.
      + cbn [app fetched flat_map map fst]. f_equal. exact Hf. }
  destruct (Heach apis b) as (b' & t & Hrun & Hen & Hf).
  assert (Hr : r = (Returned tt, b',
                    gate_start cb ++ t ++
                    log_events "All required APIs are enabled." cb lvl_info)).
  { subst r. unfold ensureApisEnabled.
    rewrite bind_console, bind_progress, (bind_returned _ _ _ _ _ _ Hrun).
    rewrite bind_console. unfold progress, gate_start, log_events.
    destruct cb; cbn [prepend emit ret app]; rewrite ?app_nil_r; reflexivity. }
  rewrite Hr. unfold outcome, events. cbn [fst snd].
  rewrite !fetched_app, !enable_calls_app, Hen.
  split; [reflexivity|].
  unfold gate_start, log_events.
  destruct cb; cbn [app enable_calls fetched flat_map];
    rewrite ?app_nil_r; split; try reflexivity; exact Hf.
Qed.

End GateRuns.

(** ** The build trigger, whatever the backend answers *)

Section BuildRuns.

Context {B : Type}.
Variable context : Context B.
Variable cb : bool.

Lemma bind_returned_inv {A C} (m : M B A) (k : A -> M B C) (b : B) (c : C) :
  outcome (bind m k b) = Returned c ->
  exists a b1 t1, m b = (Returned a, b1, t1) /\
                  outcome (k a b1) = Returned c.
Proof.
  unfold bind. destruct (m b) as [[o b1] t1].
  destruct o as [a|e|]; try discriminate.
  intros H. exists a, b1, t1. split; [reflexivity|].
  destruct (k a b1) as [[o2 b2] t2]. exact H.
Qed.

(** The polling loop returns terminal records only. *)
Lemma pollBuild_returns_terminal (projectId buildId : string) (fuel : nat) :
  forall (b : B) (record : Build),
    outcome (pollBuild fuel context projectId buildId cb b) = Returned record ->
    In (status record) terminal_statuses.
Proof.
  induction fuel as [|fuel IH]; intros b record Hret.
  - discriminate Hret.
  - cbn [pollBuild] in Hret.
    apply bind_returned_inv in Hret as (r & b1 & t1 & _ & Hret).
    destruct (array_includes terminal_statuses (status r)) eqn:Hterm.
    + unfold ret, outcome in Hret. cbn [fst] in Hret. injection Hret as <-.
      now apply array_includes_In.
    + rewrite bind_logAndProgress, bind_sleep, !outcome_prepend in Hret.
      exact (IH b1 record Hret).
Qed.

(** X5. [triggerCloudBuild] returns successful builds only: a record it
    returns has status SUCCESS and names at least one image. A build that
    ended in any other status, or a SUCCESS record without image, never
    comes back as a result. *)
Theorem triggerCloudBuild_returns_success_only (fuel : nat)
    (projectId location bucket blob repo image : string)
    (hasDockerfile : bool) (b : B) (record : Build) :
  outcome (triggerCloudBuild fuel context projectId location bucket blob repo
             image hasDockerfile cb b) = Returned record ->
  status record = "SUCCESS"%string /\
  exists name more, results_images record = Some (name :: more).
Proof.
  intros Hret. unfold triggerCloudBuild in Hret.
  rewrite bind_logAndProgress, outcome_prepend in Hret.
  apply bind_returned_inv in Hret as (buildId & b1 & t1 & _ & Hret).
  rewrite bind_logAndProgress, outcome_prepend in Hret.
  apply bind_returned_inv in Hret as (completed & b2 & t2 & _ & Hret).
  destruct (status completed =? "SUCCESS")%string eqn:Hstatus.
  - apply String.eqb_eq in Hstatus.
    rewrite bind_logAndProgress, outcome_prepend in Hret.
    apply bind_returned_inv in Hret as (name & b3 & t3 & Hname & Hret).
    rewrite bind_logAndProgress, outcome_prepend in Hret.
    unfold ret, outcome in Hret. cbn [fst] in Hret. injection Hret as <-.
    split; [exact Hstatus|].
    unfold first_image_name in Hname.
    destruct (results_images completed) as [[|n more]|]; try discriminate.
    exists n, more. reflexivity.
  - rewrite !bind_logAndProgress, !outcome_prepend in Hret.
    unfold bind in Hret.
    destruct (fetchBuildLogsSnippet context buildId completed cb b2)
      as [[o3 b3] t3].
    destruct o3; discriminate Hret.
Qed.

(** X6. When submitting the build fails, [triggerCloudBuild] throws that
    error at once: it logs the start, makes the [createBuild] call, and
    does nothing more. *)
Theorem triggerCloudBuild_submission_failure (fuel : nat)
    (projectId location bucket blob repo image : string)
    (hasDockerfile : bool) (b b1 : B) (t1 : list Event) (e : JsError) :
  callWithRetry
    (invoke
       (CreateBuildCall projectId
          (build_request bucket blob image hasDockerfile))
       (cloudBuild_createBuild context projectId
          (build_request bucket blob image hasDockerfile)))
    "cloudBuild.createBuild" b = (Thrown e, b1, t1) ->
  triggerCloudBuild fuel context projectId location bucket blob repo image
    hasDockerfile cb b =
  (Thrown e, b1,
   log_events
     ("Initiating Cloud Build for gs://" +++ bucket +++ "/" +++ blob +++
      " in " +++ location +++ "...") cb lvl_info ++ t1).
Proof.
  intros Hcreate. unfold triggerCloudBuild.
  fold (build_request bucket blob image hasDockerfile).
  rewrite bind_logAndProgress, (bind_thrown _ _ _ _ _ _ Hcreate).
  reflexivity.
Qed.

(** X7. When the build was submitted, at the first attempt or after
    retries, a polled record with status SUCCESS that names no image
    makes [triggerCloudBuild] throw a TypeError after the success
    message: the record is not returned. *)
Theorem triggerCloudBuild_success_without_image (fuel : nat)
    (projectId buildId location bucket blob repo image : string)
    (hasDockerfile : bool) (b0 b1 b2 : B) (completed : Build)
    (submitted polled : list Event) :
  callWithRetry
    (createBuild_op context projectId
       (build_request bucket blob image hasDockerfile))
    "cloudBuild.createBuild" b0 = (Returned buildId, b1, submitted) ->
  pollBuild fuel context projectId buildId cb b1 =
    (Returned completed, b2, polled) ->
  status completed = "SUCCESS"%string ->
  results_images completed = None \/ results_images completed = Some [] ->
  exists m,
    outcome (triggerCloudBuild fuel context projectId location bucket blob
               repo image hasDockerfile cb b0) = Thrown (TypeError m) /\
    includes m "Cannot read properties of undefined" = true.
Proof.
  intros Hcreate Hpoll Hstatus Himg.
  rewrite (triggerCloudBuild_submitted context projectId buildId cb _ _ _ _
             _ _ _ _ _ _ _ _ _ Hcreate Hpoll).
  rewrite Hstatus. cbn [String.eqb Ascii.eqb Bool.eqb].
  rewrite outcome_prepend, bind_logAndProgress, outcome_prepend.
  unfold first_image_name.
  destruct Himg as [-> | ->]; eexists; (split; [reflexivity|reflexivity]).
Qed.

End BuildRuns.

(** ** The log fetch of a failed build *)

Section BuildLogFetch.

Context {B : Type}.
Variable context : Context B.
Variable cb : bool.

Lemma callWithRetry_once {A} (fn : M B A) (d : string) (b : B) :
  (forall e, outcome (fn b) = Thrown e -> retryable e = false) ->
  callWithRetry fn d b = fn b.
Proof.
  intros Hfatal. unfold callWithRetry. rewrite callWithRetry_loop_step.
  destruct (fn b) as [[o b1] t1]. destruct o as [a|e|]; try reflexivity.
  now rewrite (Hfatal e eq_refl).
Qed.

Lemma getEntries_calls_app (t u : list Event) :
  getEntries_calls (t ++ u) = getEntries_calls t ++ getEntries_calls u.
Proof. apply flat_map_app. Qed.

Lemma getEntries_calls_none (t : list Event) :
  Forall (fun ev => getEntries_calls [ev] = []) t -> getEntries_calls t = [].
Proof.
  induction 1 as [|ev t Hev _ IH]; [reflexivity|].
  change (ev :: t) with ([ev] ++ t).
  now rewrite getEntries_calls_app, Hev, IH.
Qed.

Lemma getEntries_calls_log_events msg sev :
  getEntries_calls (log_events msg cb sev) = [].
Proof. unfold log_events. destruct cb; reflexivity. Qed.

Lemma sleeps_log_events msg sev : sleeps (log_events msg cb sev) = [].
Proof. unfold log_events. destruct cb; reflexivity. Qed.

Lemma getEntries_events (buildId : string) (b : B) :
  events (getEntries_op context buildId b) =
  [GetEntriesCall (build_log_filter buildId) "timestamp desc" 100
     (outcome (getEntries_op context buildId b))].
Proof.
  unfold getEntries_op, invoke, events, outcome.
  fold (build_log_filter buildId).
  now destruct (logging_getEntries context (build_log_filter buildId)
                  "timestamp desc" 100 b).
Qed.

(** The polling loop fetches no log. *)
Lemma pollBuild_no_log_fetch (projectId buildId : string) (fuel : nat) :
  forall b : B,
    getEntries_calls
      (events (pollBuild fuel context projectId buildId cb b)) = [].
Proof.
  induction fuel as [|fuel IH]; intros b; [reflexivity|].
  cbn [pollBuild]. unfold bind at 1.
  assert (Hcall : getEntries_calls
                    (events
                       (callWithRetry
                          (invoke (GetBuildCall projectId buildId)
                             (cloudBuild_getBuild context projectId buildId))
                          ("cloudBuild.getBuild " +++ buildId) b)) = []).
  { apply getEntries_calls_none. unfold callWithRetry.
    apply callWithRetry_loop_events;
      [intros b0; unfold invoke, events;
       destruct (cloudBuild_getBuild context projectId buildId b0);
       repeat constructor
      |intros; reflexivity|intros; reflexivity]. }
  destruct (callWithRetry
              (invoke (GetBuildCall projectId buildId)
                 (cloudBuild_getBuild context projectId buildId))
              ("cloudBuild.getBuild " +++ buildId) b) as [[o b1] t1].
  unfold events in Hcall. cbn [snd] in Hcall.
  destruct o as [r|e|]; try exact Hcall.
  destruct (array_includes terminal_statuses (status r)).
  - cbn [ret]. unfold events. cbn [snd]. now rewrite app_nil_r.
  - rewrite bind_logAndProgress, bind_sleep, prepend_prepend.
    specialize (IH b1).
    destruct (pollBuild fuel context projectId buildId cb b1)
      as [[o2 b2] t2].
    unfold events in *. cbn [prepend snd] in *.
    rewrite !getEntries_calls_app, Hcall, IH, getEntries_calls_log_events.
    reflexivity.
Qed.

(** The submission fetches no log. *)
Lemma createBuild_no_log_fetch (projectId : string) (request : BuildRequest)
    (b : B) :
  getEntries_calls
    (events
       (callWithRetry (createBuild_op context projectId request)
          "cloudBuild.createBuild" b)) = [].
Proof.
  apply getEntries_calls_none. unfold callWithRetry.
  apply callWithRetry_loop_events;
    [intros b0; unfold createBuild_op, invoke, events;
     destruct (cloudBuild_createBuild context projectId request b0);
     repeat constructor
    |intros; reflexivity|intros; reflexivity].
Qed.

(** X8. After a build that was submitted, at the first attempt or after
    retries, and ended in a status other than SUCCESS, [triggerCloudBuild]
    waits 10000 ms once and then fetches the logs once, asking for the
    100 newest entries of that build; this is the only log fetch of the
    run when the fetch is not retried. The waits of the run are those of
    the submission's retries, those of the polling, and that one. *)
Theorem triggerCloudBuild_one_log_fetch (fuel : nat)
    (projectId buildId location bucket blob repo image : string)
    (hasDockerfile : bool) (b0 b1 b2 : B) (completed : Build)
    (submitted polled : list Event) :
  callWithRetry
    (createBuild_op context projectId
       (build_request bucket blob image hasDockerfile))
    "cloudBuild.createBuild" b0 = (Returned buildId, b1, submitted) ->
  pollBuild fuel context projectId buildId cb b1 =
    (Returned completed, b2, polled) ->
  status completed <> "SUCCESS"%string ->
  (forall e,
      outcome (getEntries_op context buildId b2) = Thrown e ->
      retryable e = false) ->
  let r := triggerCloudBuild fuel context projectId location bucket blob
             repo image hasDockerfile cb b0 in
  getEntries_calls (events r) =
    [(build_log_filter buildId, "timestamp desc"%string, 100)] /\
  sleeps (events r) = sleeps submitted ++ sleeps polled ++ [10000] /\
  exists before after,
    events r =
      before ++
      Sleep 10000 ::
      GetEntriesCall (build_log_filter buildId) "timestamp desc" 100
        (outcome (getEntries_op context buildId b2)) :: after /\
    getEntries_calls before = [] /\
    getEntries_calls after = [] /\ sleeps after = [].
Proof.
  intros Hcreate Hpoll Hstatus Honce r.
  assert (Hpolled : getEntries_calls polled = []).
  { replace polled
      with (events (pollBuild fuel context projectId buildId cb b1))
      by now rewrite Hpoll.
    apply pollBuild_no_log_fetch. }
  assert (Hsubmitted : getEntries_calls submitted = []).
  { replace submitted
      with (events
              (callWithRetry
                 (createBuild_op context projectId
                    (build_request bucket blob image hasDockerfile))
                 "cloudBuild.createBuild" b0))
      by now rewrite Hcreate.
    apply createBuild_no_log_fetch. }
  pose (before :=
    (log_events
       ("Initiating Cloud Build for gs://" +++ bucket +++ "/" +++ blob +++
        " in " +++ location +++ "...") cb lvl_info ++
     submitted ++
     log_events "Cloud Build job started..." cb lvl_info ++ polled) ++
    log_events
      ("Cloud Build job " +++ buildId +++ " failed with status: " +++
       status completed) cb lvl_error ++
    log_events ("Build logs: " +++ logUrl completed) cb lvl_info ++
    log_events
      ("Attempting to fetch last " +++ show BUILD_LOGS_LINES_TO_FETCH +++
       " log lines for build " +++ buildId +++ "...") cb lvl_debug).
  assert (Hev : exists after,
            events r =
              before ++
              Sleep 10000 ::
              GetEntriesCall (build_log_filter buildId) "timestamp desc" 100
                (outcome (getEntries_op context buildId b2)) :: after /\
            getEntries_calls after = [] /\ sleeps after = []).
  { subst r.
    rewrite (triggerCloudBuild_submitted context projectId buildId cb _ _ _
               _ _ _ _ _ _ _ _ _ _ Hcreate Hpoll).
    apply String.eqb_neq in Hstatus. rewrite Hstatus.
    rewrite !bind_logAndProgress, !prepend_prepend.
    unfold bind at 1. unfold fetchBuildLogsSnippet, try_catch.
    rewrite bind_logAndProgress, bind_sleep, prepend_prepend.
    unfold bind at 1.
    match goal with |- context [callWithRetry ?f ?d b2] =>
      change (callWithRetry f d b2)
        with (callWithRetry (getEntries_op context buildId)
                ("logging.getEntries for build " +++ buildId) b2)
    end.
    rewrite (callWithRetry_once _ _ _ Honce).
    pose proof (getEntries_events buildId b2) as Hfetch.
    destruct (getEntries_op context buildId b2) as [[o b3] t3].
    unfold events, outcome in Hfetch. cbn [fst snd] in Hfetch. subst t3.
    unfold outcome at 1. cbn [fst].
    destruct o as [[[|entry entries]|]|e|]; cbn [prepend].
    - rewrite bind_logAndProgress. unfold throw. cbn [ret prepend].
      eexists (log_events _ cb lvl_warn).
      split; [unfold events, before; cbn [snd]; trace_eq|].
      rewrite getEntries_calls_log_events, sleeps_log_events. now split.
    - replace (0 <? Z.of_nat
                      (length (map entry_line (rev (entry :: entries)))))
        with true
        by (symmetry; apply Z.ltb_lt; rewrite length_map, length_rev;
            cbn [length]; lia).
      rewrite bind_logAndProgress. unfold throw. cbn [ret prepend].
      eexists (log_events _ cb lvl_info).
      split; [unfold events, before; cbn [snd]; trace_eq|].
      rewrite getEntries_calls_log_events, sleeps_log_events. now split.
    - rewrite bind_logAndProgress. unfold throw. cbn [ret prepend].
      eexists (log_events _ cb lvl_warn).
      split; [unfold events, before; cbn [snd]; trace_eq|].
      rewrite getEntries_calls_log_events, sleeps_log_events. now split.
    - rewrite bind_console, bind_logAndProgress. unfold throw.
      cbn [ret prepend].
      eexists ([Console console_error _] ++ log_events _ cb lvl_warn).
      split; [unfold events, before; cbn [snd]; trace_eq|].
      rewrite getEntries_calls_app, sleeps_app.
      rewrite getEntries_calls_log_events, sleeps_log_events. now split.
    - exists []. split; [unfold events, before; cbn [snd]; trace_eq|].
      now split. }
  destruct Hev as (after & Hev & Hafter & Hquiet).
  assert (Hbefore : getEntries_calls before = []).
  { unfold before.
    rewrite !getEntries_calls_app, !getEntries_calls_log_events, Hpolled,
      Hsubmitted.
    reflexivity. }
  assert (Hsl : sleeps before = sleeps submitted ++ sleeps polled).
  { unfold before. rewrite !sleeps_app, !sleeps_log_events.
    cbn [app]. now rewrite !app_nil_r. }
  split; [|split].
  - rewrite Hev, getEntries_calls_app, Hbefore.
    match goal with |- context [?x :: ?y :: after] =>
      change (x :: y :: after) with ([x; y] ++ after) end.
    rewrite getEntries_calls_app, Hafter. reflexivity.
  - rewrite Hev, sleeps_app, Hsl. cbn [sleeps]. rewrite Hquiet.
    now rewrite <- app_assoc.
  - exists before, after. repeat split; assumption.
Qed.

End BuildLogFetch.

(** ** The packager, item by item *)

Section ZipRuns.

Context {B : Type}.
Variable node : Node.

Lemma zipFiles_item_entry (file : FileItem) (entry : ArchiveEntry) :
  zipFiles_item node file = Returned entry -> entry_for node file entry.
Proof.
  unfold zipFiles_item, is_file_object, entry_for.
  destruct file as [s|[f|] [c|]| | | |];
    cbn [typeof String.eqb Ascii.eqb Bool.eqb js_in is_some property];
    try discriminate.
  - fold (zip_path node s).
    destruct (fs_existsSync node (zip_path node s)); cbn [negb];
      [|discriminate].
    destruct (fs_statSync_isDirectory node (zip_path node s)) as [e|[|]];
      [discriminate| |]; intros H; injection H as <-; repeat split.
  - intros H. injection H as <-. split; reflexivity.
Qed.

Lemma zipFiles_forEach_entries (files : list FileItem) :
  forall acc archive,
    zipFiles_forEach node files acc = Returned archive ->
    exists added,
      archive = acc ++ added /\ Forall2 (entry_for node) files added.
Proof.
  induction files as [|file files IH]; intros acc archive Hrun.
  - cbn in Hrun. injection Hrun as <-. exists []. split; [|constructor].
    now rewrite app_nil_r.
  - cbn [zipFiles_forEach] in Hrun.
    destruct (zipFiles_item node file) as [entry|e|] eqn:Hitem;
      try discriminate.
    destruct (IH _ _ Hrun) as (added & -> & Hall).
    exists (entry :: added). split; [now rewrite <- app_assoc|].
    constructor; [now apply zipFiles_item_entry|exact Hall].
Qed.

(** X9. When [zipFiles] succeeds, the archive holds exactly one entry
    per input item, in the order of the input: a folder with no
    destination folder, a file under its base name, a content item under
    its [filename]; the backend is not touched. *)
Theorem zipFiles_one_entry_per_item (files : list FileItem) (cb : bool)
    (b : B) (archive : list ArchiveEntry) :
  outcome (zipFiles node files cb b) = Returned archive ->
  Forall2 (entry_for node) files archive /\
  length archive = length files /\
  backend (zipFiles node files cb b) = b.
Proof.
  unfold zipFiles. rewrite bind_logAndProgress.
  rewrite outcome_prepend, backend_prepend.
  destruct (zipFiles_forEach node files []) as [archive'|e|] eqn:Hrun;
    try discriminate.
  rewrite bind_logAndProgress, outcome_prepend, backend_prepend.
  intros H. unfold ret, outcome in H. cbn [fst] in H. injection H as <-.
  destruct (zipFiles_forEach_entries _ _ _ Hrun) as (added & -> & Hall).
  cbn [app]. split; [exact Hall|]. split; [|reflexivity].
  symmetry. exact (Forall2_length Hall).
Qed.

End ZipRuns.

Lemma zipFiles_one_entry_per_item_witness :
  Forall2 (entry_for (posix_node ["/app"%string] ["/app/main.go"%string]))
    [ItemString "/app"; ItemString "/app/main.go";
     ItemObject (Some "Dockerfile"%string) (Some "FROM scratch"%string)]
    [Directory "/app" None; File "/app/main.go" "main.go";
     Append (Some "FROM scratch"%string) (Some "Dockerfile"%string)].
Proof.
  apply (zipFiles_one_entry_per_item
           (posix_node ["/app"%string] ["/app/main.go"%string])
           [ItemString "/app"; ItemString "/app/main.go";
            ItemObject (Some "Dockerfile"%string)
              (Some "FROM scratch"%string)]
           false tt _ eq_refl).
Defined.

Lemma zipFiles_items_witness :
  outcome
    (zipFiles (posix_node ["/app"%string] [])
       [ItemString "/app"; ItemString "/c/missing"; ItemNumber 7] false tt) =
    Thrown (Error "File or directory not found: /mnt/c/missing") /\
  (exists m,
     outcome
       (zipFiles (posix_node ["/app"%string] [])
          [ItemString "/app"; ItemNumber 7; ItemString "/app"] false tt) =
       Thrown (Error m) /\
     includes m "Invalid file format" = true).
Proof.
  split.
  - apply (proj1 (zipFiles_items (posix_node ["/app"%string] [])
                    [ItemString "/app"] [ItemNumber 7]
                    (ItemString "/c/missing")
                    [Directory "/app" None] false tt eq_refl)
             "/c/missing"%string eq_refl).
    reflexivity.
  - apply (proj2 (zipFiles_items (posix_node ["/app"%string] [])
                    [ItemString "/app"] [ItemString "/app"]
                    (ItemNumber 7)
                    [Directory "/app" None] false tt eq_refl)).
    + exact I.
    + discriminate.
Defined.

(** ** The service deployer on its other paths *)

Section DeployRuns.

Context {B : Type}.
Variable checkCloudRunServiceExists :
  Context B -> string -> string -> string -> bool -> M B bool.
Variable context : Context B.
Variable now : Z.
Variables projectId location serviceId imgUrl : string.
Variable cb : bool.

(** X10. When the dry run passes, [deployToCloudRun] submits the real
    create-or-update call with the service definition it validated,
    unchanged, waits for the operation and returns the record the
    operation yields. *)
Theorem deployToCloudRun_dry_run_passed (skipIamCheck exists_ : bool)
    (b b1 b2 b3 b4 : B) (t1 t2 t3 : list Event)
    (validated operation : Operation B ServiceRecord)
    (response : ServiceRecord) :
  checkCloudRunServiceExists context projectId location serviceId cb b =
    (Returned exists_, b1, t1) ->
  dry_run_call context projectId location serviceId
    (initial_service serviceId now imgUrl skipIamCheck) exists_ b1 =
    (Returned validated, b2, t2) ->
  real_mutation context projectId location serviceId
    (initial_service serviceId now imgUrl skipIamCheck) exists_ b2 =
    (Returned operation, b3, t3) ->
  operation b3 = (Returned response, b4) ->
  deployToCloudRun checkCloudRunServiceExists context now projectId location
    serviceId imgUrl cb skipIamCheck b =
  (Returned response, b4,
   t1 ++
   log_events ("Performing dry run for service " +++ serviceId +++ "...")
     cb lvl_debug ++
   t2 ++
   log_events
     ("Dry run successful for " +++ serviceId +++
      " with current configuration.") cb lvl_debug ++
   log_events
     (if exists_ then "Updating existing service " +++ serviceId +++ "..."
      else "Creating new service " +++ serviceId +++ "...") cb lvl_info ++
   t3 ++
   log_events ("Deploying " +++ serviceId +++ " to Cloud Run...")
     cb lvl_info ++
   [RunOperationWait (Returned response)] ++
   log_events
     ("Service deployed/updated successfully: " +++ uri response)
     cb lvl_info).
Proof.
  intros Hexists Hdry Hreal Hwait. unfold deployToCloudRun.
  fold (initial_service serviceId now imgUrl skipIamCheck).
  set (service := initial_service serviceId now imgUrl skipIamCheck) in *.
  unfold dry_run_call in Hdry. unfold real_mutation in Hreal.
  apply try_catch_returned.
  rewrite (bind_returned _ _ _ _ _ _ Hexists).
  destruct exists_.
  - erewrite bind_returned.
    2:{ apply try_catch_returned. rewrite bind_logAndProgress.
        erewrite bind_returned by exact Hdry.
        rewrite bind_logAndProgress. cbn [ret prepend]. reflexivity. }
    erewrite bind_returned.
    2:{ rewrite bind_logAndProgress, Hreal. cbn [prepend]. reflexivity. }
    rewrite bind_logAndProgress.
    erewrite bind_returned by (unfold invoke; rewrite Hwait; reflexivity).
    rewrite bind_logAndProgress. cbn [ret prepend].
    f_equal. trace_eq.
  - erewrite bind_returned.
    2:{ apply try_catch_returned. rewrite bind_logAndProgress.
        erewrite bind_returned by exact Hdry.
        rewrite bind_logAndProgress. cbn [ret prepend]. reflexivity. }
    erewrite bind_returned.
    2:{ rewrite bind_logAndProgress, Hreal. cbn [prepend]. reflexivity. }
    rewrite bind_logAndProgress.
    erewrite bind_returned by (unfold invoke; rewrite Hwait; reflexivity).
    rewrite bind_logAndProgress. cbn [ret prepend].
    f_equal. trace_eq.
Qed.

(** X11. Without the invoker-bypass flag there is no fallback: whatever
    the dry-run error says, also when it names [invokerIamDisabled] or
    comes with the invalid-argument code, the deployer throws the dry-run
    validation error and submits no real mutation. *)
Theorem deployToCloudRun_no_fallback_without_flag (exists_ : bool)
    (b b1 b2 : B) (t1 t2 : list Event) (e : JsError) :
  checkCloudRunServiceExists context projectId location serviceId cb b =
    (Returned exists_, b1, t1) ->
  dry_run_call context projectId location serviceId
    (initial_service serviceId now imgUrl false) exists_ b1 =
    (Thrown e, b2, t2) ->
  let r := deployToCloudRun checkCloudRunServiceExists context now projectId
             location serviceId imgUrl cb false b in
  outcome r = Thrown (Error (dry_run_failure serviceId e)) /\
  backend r = b2 /\
  real_mutations (events r) = real_mutations t1.
Proof.
  intros Hexists Hdry.
  destruct (deployToCloudRun_aborts checkCloudRunServiceExists context now
              projectId location serviceId imgUrl cb false exists_
              b b1 b2 t1 t2 e Hexists Hdry eq_refl)
    as (Hout & _ & Hback & Hmut).
  repeat split; assumption.
Qed.

(** X12. No error leaves [deployToCloudRun] unreported or changed: when
    it throws, the error is the one its body threw and the last events of
    the run are the console line and the error-severity message built from
    that error. *)
Theorem deployToCloudRun_failure_is_reported (skipIamCheck : bool) (b : B)
    (e : JsError) :
  let r := deployToCloudRun checkCloudRunServiceExists context now projectId
             location serviceId imgUrl cb skipIamCheck b in
  outcome r = Thrown e ->
  exists before,
    events r =
      before ++
      Console console_error
        ("Error deploying/updating service " +++ serviceId +++ ":") ::
      log_events
        ("Error deploying/updating service " +++ serviceId +++ ": " +++
         show_message e) cb lvl_error.
Proof.
  intros r. subst r. unfold deployToCloudRun.
  match goal with |- context [try_catch ?m ?h b] => set (body := m) end.
  unfold try_catch. destruct (body b) as [[o b1] t1].
  destruct o as [a|e1|]; try discriminate.
  rewrite bind_console, bind_logAndProgress. unfold throw.
  cbn [prepend]. unfold outcome, events. cbn [fst snd].
  intros H. injection H as <-. exists t1. trace_eq.
Qed.

End DeployRuns.

(** ** The further properties on concrete runs *)

Lemma callWithRetry_total_wait_witness :
  exists k : nat,
    (k <= 7)%nat /\
    sleeps
      (events
         (callWithRetry scripted "getService run.googleapis.com"
            [Thrown permission_denied; Thrown permission_denied;
             Returned 1])) =
      firstn k backoff_waits /\
    total
      (sleeps
         (events
            (callWithRetry scripted "getService run.googleapis.com"
               [Thrown permission_denied; Thrown permission_denied;
                Returned 1]))) <= 78000.
Proof.
  apply (callWithRetry_total_wait scripted "getService run.googleapis.com"
           [Thrown permission_denied; Thrown permission_denied; Returned 1]).
  intros [|o rest]; reflexivity.
Defined.

Lemma ensureApisEnabled_throws_its_own_error_witness :
  exists api,
    In api ["iam.googleapis.com"; "run.googleapis.com"]%string /\
    Error
      "Failed to ensure API [run.googleapis.com] is enabled after retry. Please check manually." =
    Error ("Failed to ensure API [" +++ api +++
           "] is enabled after retry. Please check manually.").
Proof.
  apply (ensureApisEnabled_throws_its_own_error gate_context "p" false
           ["iam.googleapis.com"; "run.googleapis.com"]%string
           [Returned {| state := "ENABLED" |};
            Thrown not_found; Thrown permission_denied; Thrown unavailable]
           (Error
              "Failed to ensure API [run.googleapis.com] is enabled after retry. Please check manually.")).
  reflexivity.
Defined.

Lemma ensureApisEnabled_only_reads_when_enabled_witness :
  outcome
    (ensureApisEnabled accepting_context "p"
       ["iam.googleapis.com"; "run.googleapis.com"]%string true tt) =
    Returned tt /\
  enable_calls
    (events
       (ensureApisEnabled accepting_context "p"
          ["iam.googleapis.com"; "run.googleapis.com"]%string true tt)) =
    [] /\
  map fst
    (fetched
       (events
          (ensureApisEnabled accepting_context "p"
             ["iam.googleapis.com"; "run.googleapis.com"]%string true tt))) =
    ["projects/p/services/iam.googleapis.com";
     "projects/p/services/run.googleapis.com"]%string.
Proof.
  apply (ensureApisEnabled_only_reads_when_enabled accepting_context "p" true
           ["iam.googleapis.com"; "run.googleapis.com"]%string tt).
  intros name b'. exists {| state := "ENABLED" |}. split; reflexivity.
Defined.

Lemma triggerCloudBuild_returns_success_only_witness :
  status (build_with "SUCCESS") = "SUCCESS"%string /\
  exists name more,
    results_images (build_with "SUCCESS") = Some (name :: more).
Proof.
  apply (triggerCloudBuild_returns_success_only (build_context Pending) false
           2 "p" "r" "p-source-bucket" "source.zip" "repo"
           "r-docker.pkg.dev/p/repo/s:latest" true
           [Returned (build_with "WORKING");
            Returned (build_with "SUCCESS")]
           (build_with "SUCCESS")).
  reflexivity.
Defined.

Lemma triggerCloudBuild_submission_failure_witness :
  triggerCloudBuild 3 (failing_context unavailable) "p" "r"
    "p-source-bucket" "source.zip" "repo" "r-docker.pkg.dev/p/repo/s:latest"
    false true tt =
  (Thrown unavailable, tt,
   [Console console_log
      "Initiating Cloud Build for gs://p-source-bucket/source.zip in r...";
    Progress lvl_info
      "Initiating Cloud Build for gs://p-source-bucket/source.zip in r...";
    CreateBuildCall "p"
      (build_request "p-source-bucket" "source.zip"
         "r-docker.pkg.dev/p/repo/s:latest" false)
      (Thrown unavailable)]).
Proof.
  apply (triggerCloudBuild_submission_failure (failing_context unavailable)
           true 3 "p" "r" "p-source-bucket" "source.zip" "repo"
           "r-docker.pkg.dev/p/repo/s:latest" false tt tt
           [CreateBuildCall "p"
              (build_request "p-source-bucket" "source.zip"
                 "r-docker.pkg.dev/p/repo/s:latest" false)
              (Thrown unavailable)]
           unavailable).
  reflexivity.
Defined.

Lemma triggerCloudBuild_one_log_fetch_witness :
  getEntries_calls
    (events
       (triggerCloudBuild 2 (scripted_build_context (Thrown not_found)) "p"
          "r" "p-source-bucket" "source.zip" "repo"
          "r-docker.pkg.dev/p/repo/s:latest" true false
          {| submissions :=
               [Thrown permission_denied; Returned "build-1"%string];
             records := [Returned (build_with "WORKING");
                         Returned (build_with "TIMEOUT")] |})) =
    [(build_log_filter "build-1", "timestamp desc"%string, 100)] /\
  sleeps
    (events
       (triggerCloudBuild 2 (scripted_build_context (Thrown not_found)) "p"
          "r" "p-source-bucket" "source.zip" "repo"
          "r-docker.pkg.dev/p/repo/s:latest" true false
          {| submissions :=
               [Thrown permission_denied; Returned "build-1"%string];
             records := [Returned (build_with "WORKING");
                         Returned (build_with "TIMEOUT")] |})) =
    [15000; 5000; 10000].
Proof.
  pose proof
    (triggerCloudBuild_one_log_fetch
       (scripted_build_context (Thrown not_found))
       false 2 "p" "build-1" "r" "p-source-bucket" "source.zip" "repo"
       "r-docker.pkg.dev/p/repo/s:latest" true
       {| submissions :=
            [Thrown permission_denied; Returned "build-1"%string];
          records := [Returned (build_with "WORKING");
                      Returned (build_with "TIMEOUT")] |}
       {| submissions := [];
          records := [Returned (build_with "WORKING");
                      Returned (build_with "TIMEOUT")] |}
       {| submissions := []; records := [] |}
       (build_with "TIMEOUT")
       [CreateBuildCall "p"
          (build_request "p-source-bucket" "source.zip"
             "r-docker.pkg.dev/p/repo/s:latest" true)
          (Thrown permission_denied);
        Console console_warn (retry_warning "cloudBuild.createBuild" 1);
        Sleep 15000;
        CreateBuildCall "p"
          (build_request "p-source-bucket" "source.zip"
             "r-docker.pkg.dev/p/repo/s:latest" true)
          (Returned "build-1"%string)]
       (poll_events false "p" "build-1" [build_with "WORKING"] ++
        [GetBuildCall "p" "build-1" (Returned (build_with "TIMEOUT"))])
       eq_refl eq_refl ltac:(discriminate)
       ltac:(intros e H; injection H as <-; reflexivity)) as (H1 & H2 & _).
  split; [exact H1 | exact H2].
Defined.

Lemma triggerCloudBuild_success_without_image_witness :
  exists m,
    outcome
      (triggerCloudBuild 1 (scripted_build_context Pending) "p" "r"
         "p-source-bucket" "source.zip" "repo"
         "r-docker.pkg.dev/p/repo/s:latest" true false
         {| submissions :=
              [Thrown permission_denied; Returned "build-1"%string];
            records := [Returned build_without_image] |}) =
    Thrown (TypeError m) /\
    includes m "Cannot read properties of undefined" = true.
Proof.
  apply (triggerCloudBuild_success_without_image
           (scripted_build_context Pending)
           false 1 "p" "build-1" "r" "p-source-bucket" "source.zip" "repo"
           "r-docker.pkg.dev/p/repo/s:latest" true
           {| submissions :=
                [Thrown permission_denied; Returned "build-1"%string];
              records := [Returned build_without_image] |}
           {| submissions := [];
              records := [Returned build_without_image] |}
           {| submissions := []; records := [] |}
           build_without_image
           [CreateBuildCall "p"
              (build_request "p-source-bucket" "source.zip"
                 "r-docker.pkg.dev/p/repo/s:latest" true)
              (Thrown permission_denied);
            Console console_warn (retry_warning "cloudBuild.createBuild" 1);
            Sleep 15000;
            CreateBuildCall "p"
              (build_request "p-source-bucket" "source.zip"
                 "r-docker.pkg.dev/p/repo/s:latest" true)
              (Returned "build-1"%string)]
           [GetBuildCall "p" "build-1" (Returned build_without_image)]
           eq_refl eq_refl eq_refl (or_introl eq_refl)).
Defined.

Lemma deployToCloudRun_dry_run_passed_witness :
  deployToCloudRun service_absent accepting_context 1700000000000 "p" "r"
    "s" "r-docker.pkg.dev/p/repo/s:latest" false true tt =
  (Returned {| uri := "https://s.example.run.app" |}, tt,
   [Console console_log "Performing dry run for service s...";
    CreateServiceCall "projects/p/locations/r"
      (initial_service "s" 1700000000000 "r-docker.pkg.dev/p/repo/s:latest"
         true)
      "s" true (Returned tt);
    Console console_log "Dry run successful for s with current configuration.";
    Console console_log "Creating new service s...";
    CreateServiceCall "projects/p/locations/r"
      (initial_service "s" 1700000000000 "r-docker.pkg.dev/p/repo/s:latest"
         true)
      "s" false (Returned tt);
    Console console_log "Deploying s to Cloud Run...";
    RunOperationWait (Returned {| uri := "https://s.example.run.app" |});
    Console console_log
      "Service deployed/updated successfully: https://s.example.run.app"]).
Proof.
  exact (deployToCloudRun_dry_run_passed service_absent accepting_context
           1700000000000 "p" "r" "s" "r-docker.pkg.dev/p/repo/s:latest" false
           true false tt tt tt tt tt [] _ _
           (fun b' => (Returned {| uri := "https://s.example.run.app" |}, b'))
           (fun b' => (Returned {| uri := "https://s.example.run.app" |}, b'))
           {| uri := "https://s.example.run.app" |}
           eq_refl eq_refl eq_refl eq_refl).
Defined.

Lemma deployToCloudRun_no_fallback_without_flag_witness :
  outcome
    (deployToCloudRun service_absent
       (rejecting_context
          (invalid_argument (Some "invokerIamDisabled is not allowed"%string)))
       1700000000000 "p" "r" "s" "img" false false tt) =
    Thrown
      (Error
         "Dry run validation failed for service s: invokerIamDisabled is not allowed") /\
  real_mutations
    (events
       (deployToCloudRun service_absent
          (rejecting_context
             (invalid_argument
                (Some "invokerIamDisabled is not allowed"%string)))
          1700000000000 "p" "r" "s" "img" false false tt)) = [].
Proof.
  pose proof
    (deployToCloudRun_no_fallback_without_flag service_absent
       (rejecting_context
          (invalid_argument (Some "invokerIamDisabled is not allowed"%string)))
       1700000000000 "p" "r" "s" "img" false false tt tt tt [] _
       (invalid_argument (Some "invokerIamDisabled is not allowed"%string))
       eq_refl eq_refl) as (H1 & _ & H3).
  split; [exact H1 | exact H3].
Defined.

Lemma deployToCloudRun_failure_is_reported_witness :
  exists before,
    events
      (deployToCloudRun service_absent (rejecting_context unavailable)
         1700000000000 "p" "r" "s" "img" true true tt) =
    before ++
    [Console console_error "Error deploying/updating service s:";
     Console console_error
       "Error deploying/updating service s: Dry run validation failed for service s: 14 UNAVAILABLE";
     Progress lvl_error
       "Error deploying/updating service s: Dry run validation failed for service s: 14 UNAVAILABLE"].
Proof.
  apply (deployToCloudRun_failure_is_reported service_absent
           (rejecting_context unavailable) 1700000000000 "p" "r" "s" "img"
           true true tt
           (Error "Dry run validation failed for service s: 14 UNAVAILABLE")).
  reflexivity.
Defined.

(** ** What a computation can emit *)

Section EventFacts.

Context {B : Type}.
Variable P : Event -> bool.

Lemma emits_only_ret {A} (a : A) : emits_only P (@ret B A a).
Proof. intros b. reflexivity. Qed.

Lemma emits_only_throw {A} (e : JsError) : emits_only P (@throw B A e).
Proof. intros b. reflexivity. Qed.

Lemma emits_only_pending {A} : emits_only P (@pending B A).
Proof. intros b. reflexivity. Qed.

Lemma emits_only_settled {A} (o : Outcome A) : emits_only P (@settled B A o).
Proof. intros b. reflexivity. Qed.

Lemma emits_only_call {A} (method : B -> Outcome A * B) :
  emits_only P (call method).
Proof. intros b. unfold call, events. now destruct (method b). Qed.

Lemma emits_only_emit (ev : Event) :
  P ev = true -> emits_only P (@emit B ev).
Proof. intros H b. unfold emit, events. cbn [snd forallb]. now rewrite H. Qed.

Lemma emits_only_console (m : ConsoleMethod) (msg : string) :
  P (Console m msg) = true -> emits_only P (@console B m msg).
Proof. apply emits_only_emit. Qed.

Lemma emits_only_sleep (ms : Z) :
  P (Sleep ms) = true -> emits_only P (@sleep B ms).
Proof. apply emits_only_emit. Qed.

Lemma emits_only_progress (cb : bool) (sev : Severity) (msg : string) :
  P (Progress sev msg) = true -> emits_only P (@progress B cb sev msg).
Proof.
  intros H. unfold progress. destruct cb;
    [now apply emits_only_emit | apply emits_only_ret].
Qed.

Lemma emits_only_invoke {A} (log : Outcome A -> Event)
    (method : B -> Outcome A * B) :
  (forall r, P (log r) = true) -> emits_only P (invoke log method).
Proof.
  intros H b. unfold invoke, events. destruct (method b) as [r b'].
  cbn [snd forallb]. now rewrite H.
Qed.

Lemma emits_only_bind {A C} (m : M B A) (k : A -> M B C) :
  emits_only P m -> (forall a, emits_only P (k a)) -> emits_only P (bind m k).
Proof.
  intros Hm Hk b. unfold bind. specialize (Hm b).
  destruct (m b) as [[o b1] t1]. unfold events in *. cbn [snd] in Hm.
  destruct o as [a|e|]; try exact Hm.
  specialize (Hk a b1). unfold emits_only, events in Hk.
  destruct (k a b1) as [[o2 b2] t2]. cbn [snd] in *.
  now rewrite forallb_app, Hm, Hk.
Qed.

Lemma emits_only_try_catch {A} (m : M B A) (h : JsError -> M B A) :
  emits_only P m -> (forall e, emits_only P (h e)) ->
  emits_only P (try_catch m h).
Proof.
  intros Hm Hh b. unfold try_catch. specialize (Hm b).
  destruct (m b) as [[o b1] t1]. unfold events in *. cbn [snd] in Hm.
  destruct o as [a|e|]; try exact Hm.
  specialize (Hh e b1). unfold emits_only, events in Hh.
  destruct (h e b1) as [[o2 b2] t2]. cbn [snd] in *.
  now rewrite forallb_app, Hm, Hh.
Qed.

Lemma emits_only_logAndProgress (msg : string) (cb : bool) (sev : Severity) :
  P (Console (match sev with
              | lvl_error => console_error
              | _ => console_log
              end) msg) = true ->
  P (Progress sev msg) = true ->
  emits_only P (@logAndProgress B msg cb sev).
Proof.
  intros Hc Hp b. rewrite logAndProgress_run. unfold events, log_events.
  cbn [snd forallb]. rewrite Hc.
  destruct cb; cbn [forallb]; [rewrite Hp|]; reflexivity.
Qed.

Import Helpers.

Lemma emits_only_callWithRetry_loop {A} (fn : M B A) (d : string) :
  (forall msg, P (Console console_warn msg) = true) ->
  (forall ms, P (Sleep ms) = true) ->
  emits_only P fn ->
  forall fuel retries, emits_only P (callWithRetry_loop fuel fn d retries).
Proof.
  intros Hc Hs Hfn. induction fuel as [|fuel IH]; intros retries b.
  - reflexivity.
  - rewrite callWithRetry_loop_step. specialize (Hfn b).
    destruct (fn b) as [[o b1] t1]. unfold events in Hfn. cbn [snd] in Hfn.
    destruct o as [a|e|]; try exact Hfn.
    destruct (retryable e && (retries <? maxRetries))%bool; [|exact Hfn].
    cbv zeta. unfold events at 1. cbn [snd].
    rewrite forallb_app, Hfn. cbn [app forallb]. rewrite Hc, Hs.
    apply IH.
Qed.

Lemma emits_only_callWithRetry {A} (fn : M B A) (d : string) :
  (forall msg, P (Console console_warn msg) = true) ->
  (forall ms, P (Sleep ms) = true) ->
  emits_only P fn -> emits_only P (callWithRetry fn d).
Proof.
  intros Hc Hs Hfn. now apply emits_only_callWithRetry_loop.
Qed.

End EventFacts.

Create HintDb emission.

#[global] Hint Resolve emits_only_ret emits_only_throw emits_only_pending
  emits_only_settled emits_only_call emits_only_console emits_only_sleep
  emits_only_progress emits_only_invoke emits_only_bind emits_only_try_catch
  emits_only_logAndProgress emits_only_callWithRetry : emission.
#[global] Hint Extern 1 (_ = true) => reflexivity : emission.
#[global] Hint Extern 2 (emits_only _ (if ?c then _ else _)) =>
  destruct c : emission.
#[global] Hint Extern 2 (emits_only _ (match ?c with _ => _ end)) =>
  destruct c : emission.

(** ** The repository and the bucket, whatever the backend answers *)

Section StoreRuns.

Context {B : Type}.
Variable context : DeployContext B.
Variable cb : bool.

Import Helpers Registry Storage.

Lemma reported_errors_app (t u : list Event) :
  reported_errors (t ++ u) = reported_errors t ++ reported_errors u.
Proof. apply flat_map_app. Qed.

Lemma reported_errors_none (t : list Event) :
  forallb not_console_error t = true -> reported_errors t = [].
Proof.
  induction t as [|ev t IH]; [reflexivity|]. cbn [forallb].
  intros H. apply andb_prop in H as [Hev Ht].
  change (ev :: t) with ([ev] ++ t). rewrite reported_errors_app, (IH Ht).
  destruct ev as [[]| | | | | | | | | | |]; try reflexivity. discriminate Hev.
Qed.

Lemma reported_errors_quiet {A} (m : M B A) (b : B) :
  emits_only not_console_error m -> reported_errors (events (m b)) = [].
Proof. intros H. apply reported_errors_none, H. Qed.

Lemma callWithRetry_call_quiet {A} (method : B -> Outcome A * B)
    (d : string) :
  emits_only not_console_error (callWithRetry (call method) d).
Proof. auto with emission. Qed.

Lemma reported_errors_log_events (msg : string) (sev : Severity) :
  reported_errors (log_events msg cb sev) =
  match sev with lvl_error => [msg] | _ => [] end.
Proof. destruct sev, cb; reflexivity. Qed.

(** X13. When [ensureArtifactRegistryRepoExists] throws, either the
    lookup failed with an error other than NOT_FOUND (code 5), which is
    rethrown unchanged after two [console.error] lines naming the
    repository and nothing else was done; or the lookup ended with
    NOT_FOUND and the error is the one [createRepository] (under
    [callWithRetry]) threw, or the one the wait on its operation threw,
    which the function lets through with no [console.error] line at
    all. *)
Theorem ensureArtifactRegistryRepoExists_failure_report
    (projectId location repositoryId : string) (format : option string)
    (b : B) (e : JsError) :
  let lookup :=
    callWithRetry
      (call (getRepository (artifactRegistryClient context)
               (repositoryPath (artifactRegistryClient context) projectId
                  location repositoryId)))
      ("artifactRegistry.getRepository " +++ repositoryId) b in
  let creation :=
    callWithRetry
      (call (createRepository (artifactRegistryClient context)
               ("projects/" +++ projectId +++ "/locations/" +++ location)
               (match format with Some f => f | None => "DOCKER"%string end)
               repositoryId))
      ("artifactRegistry.createRepository " +++ repositoryId)
      (backend lookup) in
  let r := ensureArtifactRegistryRepoExists context projectId location
             repositoryId format cb b in
  outcome r = Thrown e ->
  (outcome lookup = Thrown e /\ code_is e 5 = false /\
   backend r = backend lookup /\
   reported_errors (events r) =
     ["Error checking/creating repository " +++ repositoryId +++ ":";
      "Error checking/creating repository " +++ repositoryId +++ ": " +++
      show_message e]) \/
  (exists notFound,
     outcome lookup = Thrown notFound /\ code_is notFound 5 = true /\
     reported_errors (events r) = [] /\
     ((outcome creation = Thrown e /\ backend r = backend creation) \/
      (exists operation,
         outcome creation = Returned operation /\
         operation (backend creation) = (Thrown e, backend r)))).
Proof.
  intros lookup creation r. subst r creation.
  unfold ensureArtifactRegistryRepoExists.
  cbv zeta.
  assert (Hquiet : reported_errors (events lookup) = [])
    by apply reported_errors_quiet, callWithRetry_call_quiet.
  assert (Hl : callWithRetry
                 (call (getRepository (artifactRegistryClient context)
                          (repositoryPath (artifactRegistryClient context)
                             projectId location repositoryId)))
                 ("artifactRegistry.getRepository " +++ repositoryId) b =
               lookup) by reflexivity.
  clearbody lookup. destruct lookup as [[[a|e0|] b1] t1];
    unfold events in Hquiet; cbn [snd] in Hquiet.
  - erewrite try_catch_returned
      by (rewrite (bind_returned _ _ _ _ _ _ Hl), bind_logAndProgress;
          cbn [ret prepend]; reflexivity).
    discriminate.
  - rewrite (try_catch_thrown _ _ _ _ _ _ (bind_thrown _ _ _ _ _ _ Hl)).
    destruct (code_is e0 5) eqn:Hcode.
    + intros Hthrown. right. exists e0.
      split; [reflexivity|]. split; [exact Hcode|]. split.
      { rewrite events_prepend, reported_errors_app, Hquiet. cbn [app].
        apply reported_errors_quiet. auto 20 with emission. }
      rewrite outcome_prepend, bind_logAndProgress, outcome_prepend
        in Hthrown.
      rewrite backend_prepend, bind_logAndProgress, backend_prepend.
      change (backend (Thrown e0, b1, t1)) with b1.
      destruct (callWithRetry
                  (call (createRepository (artifactRegistryClient context)
                           ("projects/" +++ projectId +++ "/locations/" +++
                            location)
                           (match format with
                            | Some f => f
                            | None => "DOCKER"%string
                            end) repositoryId))
                  ("artifactRegistry.createRepository " +++ repositoryId) b1)
        as [[[operation|e1|] b2] t2] eqn:Hc.
      * right. exists operation. split; [reflexivity|].
        rewrite (bind_returned _ _ _ _ _ _ Hc), outcome_prepend,
          bind_logAndProgress, outcome_prepend in Hthrown.
        rewrite (bind_returned _ _ _ _ _ _ Hc), backend_prepend,
          bind_logAndProgress, backend_prepend.
        change (backend (Returned operation, b2, t2)) with b2.
        unfold bind, call in *.
        destruct (operation b2) as [[result|e2|] b3];
          try (rewrite logAndProgress_run in Hthrown);
          try discriminate Hthrown.
        unfold outcome, backend in *. cbn [fst snd] in *.
        now injection Hthrown as ->.
      * left. rewrite (bind_thrown _ _ _ _ _ _ Hc) in Hthrown.
        rewrite (bind_thrown _ _ _ _ _ _ Hc).
        unfold outcome, backend in *. cbn [fst snd] in *.
        injection Hthrown as ->. split; reflexivity.
      * rewrite (bind_pending _ _ _ _ _ Hc) in Hthrown. discriminate Hthrown.
    + rewrite bind_console, bind_logAndProgress, !prepend_prepend.
      unfold throw. cbn [prepend]. unfold outcome, backend, events.
      cbn [fst snd]. intros H. injection H as ->. left.
      repeat split; try assumption.
      rewrite !reported_errors_app, Hquiet, reported_errors_log_events.
      reflexivity.
  - rewrite (try_catch_pending _ _ _ _ _ (bind_pending _ _ _ _ _ Hl)).
    discriminate.
Qed.

(** X14. A repository comes back from [ensureArtifactRegistryRepoExists]
    in two ways only: the lookup returned it, and then nothing was created
    and the backend is as the lookup left it; or the lookup ended with
    NOT_FOUND (code 5), and the repository is the result of the operation
    started by one [createRepository] under
    [projects/<project>/locations/<location>] with the given format,
    DOCKER when none is given. No [console.error] line is written. *)
Theorem ensureArtifactRegistryRepoExists_found_or_created
    (projectId location repositoryId : string) (format : option string)
    (b : B) (repository : Repository) :
  let lookup :=
    callWithRetry
      (call (getRepository (artifactRegistryClient context)
               (repositoryPath (artifactRegistryClient context) projectId
                  location repositoryId)))
      ("artifactRegistry.getRepository " +++ repositoryId) b in
  let creation :=
    callWithRetry
      (call (createRepository (artifactRegistryClient context)
               ("projects/" +++ projectId +++ "/locations/" +++ location)
               (match format with Some f => f | None => "DOCKER"%string end)
               repositoryId))
      ("artifactRegistry.createRepository " +++ repositoryId)
      (backend lookup) in
  let r := ensureArtifactRegistryRepoExists context projectId location
             repositoryId format cb b in
  outcome r = Returned repository ->
  reported_errors (events r) = [] /\
  ((outcome lookup = Returned repository /\ backend r = backend lookup) \/
   (exists notFound operation,
      outcome lookup = Thrown notFound /\ code_is notFound 5 = true /\
      outcome creation = Returned operation /\
      operation (backend creation) = (Returned repository, backend r))).
Proof.
  intros lookup creation r. subst r creation.
  unfold ensureArtifactRegistryRepoExists. cbv zeta.
  assert (Hquiet : reported_errors (events lookup) = [])
    by apply reported_errors_quiet, callWithRetry_call_quiet.
  assert (Hl : callWithRetry
                 (call (getRepository (artifactRegistryClient context)
                          (repositoryPath (artifactRegistryClient context)
                             projectId location repositoryId)))
                 ("artifactRegistry.getRepository " +++ repositoryId) b =
               lookup) by reflexivity.
  clearbody lookup. destruct lookup as [[[a|e0|] b1] t1];
    unfold events in Hquiet; cbn [snd] in Hquiet.
  - erewrite try_catch_returned
      by (rewrite (bind_returned _ _ _ _ _ _ Hl), bind_logAndProgress;
          cbn [ret prepend]; reflexivity).
    unfold outcome, backend, events. cbn [fst snd].
    intros H. injection H as ->. split.
    + now rewrite !reported_errors_app, Hquiet, reported_errors_log_events.
    + left. split; reflexivity.
  - rewrite (try_catch_thrown _ _ _ _ _ _ (bind_thrown _ _ _ _ _ _ Hl)).
    destruct (code_is e0 5) eqn:Hcode.
    + intros Hret. split.
      { rewrite events_prepend, reported_errors_app, Hquiet. cbn [app].
        apply reported_errors_quiet. auto 20 with emission. }
      right. rewrite outcome_prepend, bind_logAndProgress, outcome_prepend
        in Hret.
      rewrite backend_prepend, bind_logAndProgress, backend_prepend.
      change (backend (Thrown e0, b1, t1)) with b1.
      destruct (callWithRetry
                  (call (createRepository (artifactRegistryClient context)
                           ("projects/" +++ projectId +++ "/locations/" +++
                            location)
                           (match format with
                            | Some f => f
                            | None => "DOCKER"%string
                            end) repositoryId))
                  ("artifactRegistry.createRepository " +++ repositoryId) b1)
        as [[[operation|e1|] b2] t2] eqn:Hc;
        [| rewrite (bind_thrown _ _ _ _ _ _ Hc) in Hret; discriminate Hret
         | rewrite (bind_pending _ _ _ _ _ Hc) in Hret; discriminate Hret ].
      rewrite (bind_returned _ _ _ _ _ _ Hc), outcome_prepend,
        bind_logAndProgress, outcome_prepend in Hret.
      rewrite (bind_returned _ _ _ _ _ _ Hc), backend_prepend,
        bind_logAndProgress, backend_prepend.
      exists e0, operation. repeat split; try assumption.
      change (backend (Returned operation, b2, t2)) with b2.
      unfold bind, call in *. destruct (operation b2) as [[result|e2|] b3];
        try discriminate Hret.
      rewrite logAndProgress_run in *. unfold ret, outcome, backend in *.
      cbn [fst snd] in *. now injection Hret as ->.
    + rewrite bind_console, bind_logAndProgress, !prepend_prepend.
      discriminate.
  - rewrite (try_catch_pending _ _ _ _ _ (bind_pending _ _ _ _ _ Hl)).
    discriminate.
Qed.

(** The [catch] blocks of [ensureStorageBucketExists] on an error. *)
Lemma bucket_creation_handler_run (bucketName : string) (e : JsError)
    (b : B) :
  (console console_error
     ("Failed to create storage bucket " +++ bucketName +++
      ". Error details:") ;;
   logAndProgress
     ("Failed to create storage bucket " +++ bucketName +++
      ". Error details: " +++ show_message e) cb lvl_error ;;
   @throw B Bucket e) b =
  (Thrown e, b,
   Console console_error
     ("Failed to create storage bucket " +++ bucketName +++
      ". Error details:") ::
   log_events
     ("Failed to create storage bucket " +++ bucketName +++
      ". Error details: " +++ show_message e) cb lvl_error).
Proof.
  rewrite bind_console, bind_logAndProgress. unfold throw.
  cbn [prepend app]. now rewrite app_nil_r.
Qed.

Lemma bucket_check_handler_run (bucketName : string) (e : JsError) (b : B) :
  (console console_error
     ("Error checking/creating bucket " +++ bucketName +++ ":") ;;
   logAndProgress
     ("Error checking/creating bucket " +++ bucketName +++ ": " +++
      show_message e) cb lvl_error ;;
   @throw B Bucket e) b =
  (Thrown e, b,
   Console console_error
     ("Error checking/creating bucket " +++ bucketName +++ ":") ::
   log_events
     ("Error checking/creating bucket " +++ bucketName +++ ": " +++
      show_message e) cb lvl_error).
Proof.
  rewrite bind_console, bind_logAndProgress. unfold throw.
  cbn [prepend app]. now rewrite app_nil_r.
Qed.

(** X15. When [ensureStorageBucketExists] throws, the error is the one
    the check or the creation ended with, unchanged. A failed check is
    reported with two [console.error] lines; a failed creation with four:
    the two of the inner handler and then the two of the outer one, which
    takes it for a failed check. *)
Theorem ensureStorageBucketExists_failure_report (bucketName : string)
    (location : option string) (b : B) (e : JsError) :
  let lookup :=
    callWithRetry (call (bucket_exists (storage context) bucketName))
      ("storage.bucket.exists " +++ bucketName) b in
  let creation :=
    callWithRetry
      (call (createBucket (storage context) bucketName
               (match location with Some l => l | None => "us"%string end)))
      ("storage.createBucket " +++ bucketName) (backend lookup) in
  let r := ensureStorageBucketExists context bucketName location cb b in
  outcome r = Thrown e ->
  (outcome lookup = Thrown e /\ backend r = backend lookup /\
   reported_errors (events r) =
     ["Error checking/creating bucket " +++ bucketName +++ ":";
      "Error checking/creating bucket " +++ bucketName +++ ": " +++
      show_message e]) \/
  (outcome lookup = Returned false /\ outcome creation = Thrown e /\
   backend r = backend creation /\
   reported_errors (events r) =
     ["Failed to create storage bucket " +++ bucketName +++
      ". Error details:";
      "Failed to create storage bucket " +++ bucketName +++
      ". Error details: " +++ show_message e;
      "Error checking/creating bucket " +++ bucketName +++ ":";
      "Error checking/creating bucket " +++ bucketName +++ ": " +++
      show_message e]).
Proof.
  intros lookup creation r. subst r creation.
  unfold ensureStorageBucketExists. cbv zeta.
  assert (Hquiet : reported_errors (events lookup) = [])
    by apply reported_errors_quiet, callWithRetry_call_quiet.
  assert (Hl : callWithRetry (call (bucket_exists (storage context) bucketName))
                 ("storage.bucket.exists " +++ bucketName) b = lookup)
    by reflexivity.
  clearbody lookup. destruct lookup as [[[[|]|e0|] b1] t1];
    unfold events in Hquiet; cbn [snd] in Hquiet.
  - erewrite try_catch_returned
      by (rewrite (bind_returned _ _ _ _ _ _ Hl), bind_logAndProgress;
          cbn [ret prepend]; reflexivity).
    discriminate.
  - change (backend (Returned false, b1, t1)) with b1.
    pose proof (reported_errors_quiet _ b1
                  (callWithRetry_call_quiet
                     (createBucket (storage context) bucketName
                        (match location with
                         | Some l => l
                         | None => "us"%string
                         end))
                     ("storage.createBucket " +++ bucketName))) as Hquiet2.
    destruct (callWithRetry
                (call (createBucket (storage context) bucketName
                         (match location with
                          | Some l => l
                          | None => "us"%string
                          end)))
                ("storage.createBucket " +++ bucketName) b1)
      as [[[created|e1|] b2] t2] eqn:Hc;
      unfold events in Hquiet2; cbn [snd] in Hquiet2.
    + erewrite try_catch_returned
        by (rewrite (bind_returned _ _ _ _ _ _ Hl), bind_logAndProgress;
            erewrite try_catch_returned
              by (rewrite (bind_returned _ _ _ _ _ _ Hc),
                    bind_logAndProgress; cbn [ret prepend]; reflexivity);
            cbn [prepend]; reflexivity).
      discriminate.
    + erewrite try_catch_thrown
        by (rewrite (bind_returned _ _ _ _ _ _ Hl), bind_logAndProgress;
            rewrite (try_catch_thrown _ _ _ _ _ _
                       (bind_thrown _ _ _ _ _ _ Hc));
            rewrite bucket_creation_handler_run; cbn [prepend]; reflexivity).
      rewrite bucket_check_handler_run. cbn [prepend].
      unfold outcome, backend, events. cbn [fst snd].
      intros H. injection H as ->. right.
      repeat split.
      rewrite !reported_errors_app, Hquiet, Hquiet2.
      change (Console console_error ?m :: ?t) with ([Console console_error m] ++ t).
      rewrite !reported_errors_app, !reported_errors_log_events.
      reflexivity.
    + erewrite try_catch_pending
        by (rewrite (bind_returned _ _ _ _ _ _ Hl), bind_logAndProgress;
            rewrite (try_catch_pending _ _ _ _ _
                       (bind_pending _ _ _ _ _ Hc));
            cbn [prepend]; reflexivity).
      discriminate.
  - rewrite (try_catch_thrown _ _ _ _ _ _ (bind_thrown _ _ _ _ _ _ Hl)).
    rewrite bucket_check_handler_run. cbn [prepend].
    unfold outcome, backend, events. cbn [fst snd].
    intros H. injection H as ->. left.
    repeat split.
    change (Console console_error ?m :: ?t) with ([Console console_error m] ++ t).
    rewrite !reported_errors_app, Hquiet, !reported_errors_log_events.
    reflexivity.
  - rewrite (try_catch_pending _ _ _ _ _ (bind_pending _ _ _ _ _ Hl)).
    discriminate.
Qed.

(** X16. A bucket comes back from [ensureStorageBucketExists] in two
    ways only: the check answered that it exists, and then the handle for
    the given name is returned and nothing was created; or the check
    answered that it does not, and the bucket is the one [createBucket]
    returned for that name in the given location, "us" when none is
    given. *)
Theorem ensureStorageBucketExists_found_or_created (bucketName : string)
    (location : option string) (b : B) (bucket : Bucket) :
  let lookup :=
    callWithRetry (call (bucket_exists (storage context) bucketName))
      ("storage.bucket.exists " +++ bucketName) b in
  let creation :=
    callWithRetry
      (call (createBucket (storage context) bucketName
               (match location with Some l => l | None => "us"%string end)))
      ("storage.createBucket " +++ bucketName) (backend lookup) in
  let r := ensureStorageBucketExists context bucketName location cb b in
  outcome r = Returned bucket ->
  (outcome lookup = Returned true /\
   bucket = {| bucket_name := bucketName |} /\
   backend r = backend lookup) \/
  (outcome lookup = Returned false /\ outcome creation = Returned bucket /\
   backend r = backend creation).
Proof.
  intros lookup creation r. subst r creation.
  unfold ensureStorageBucketExists. cbv zeta.
  assert (Hl : callWithRetry (call (bucket_exists (storage context) bucketName))
                 ("storage.bucket.exists " +++ bucketName) b = lookup)
    by reflexivity.
  clearbody lookup. destruct lookup as [[[[|]|e0|] b1] t1].
  - erewrite try_catch_returned
      by (rewrite (bind_returned _ _ _ _ _ _ Hl), bind_logAndProgress;
          cbn [ret prepend]; reflexivity).
    unfold outcome, backend. cbn [fst snd].
    intros H. injection H as <-. left. repeat split.
  - change (backend (Returned false, b1, t1)) with b1.
    destruct (callWithRetry
                (call (createBucket (storage context) bucketName
                         (match location with
                          | Some l => l
                          | None => "us"%string
                          end)))
                ("storage.createBucket " +++ bucketName) b1)
      as [[[created|e1|] b2] t2] eqn:Hc.
    + erewrite try_catch_returned
        by (rewrite (bind_returned _ _ _ _ _ _ Hl), bind_logAndProgress;
            erewrite try_catch_returned
              by (rewrite (bind_returned _ _ _ _ _ _ Hc),
                    bind_logAndProgress; cbn [ret prepend]; reflexivity);
            cbn [prepend]; reflexivity).
      unfold outcome, backend. cbn [fst snd].
      intros H. injection H as <-. right. repeat split.
    + erewrite try_catch_thrown
        by (rewrite (bind_returned _ _ _ _ _ _ Hl), bind_logAndProgress;
            rewrite (try_catch_thrown _ _ _ _ _ _
                       (bind_thrown _ _ _ _ _ _ Hc));
            rewrite bucket_creation_handler_run; cbn [prepend]; reflexivity).
      rewrite bucket_check_handler_run. discriminate.
    + erewrite try_catch_pending
        by (rewrite (bind_returned _ _ _ _ _ _ Hl), bind_logAndProgress;
            rewrite (try_catch_pending _ _ _ _ _
                       (bind_pending _ _ _ _ _ Hc));
            cbn [prepend]; reflexivity).
      discriminate.
  - rewrite (try_catch_thrown _ _ _ _ _ _ (bind_thrown _ _ _ _ _ _ Hl)).
    rewrite bucket_check_handler_run. discriminate.
  - rewrite (try_catch_pending _ _ _ _ _ (bind_pending _ _ _ _ _ Hl)).
    discriminate.
Qed.

(** X17. [uploadToStorageBucket] ends as the [save] call on
    [bucket.file(destinationBlobName)] ends: with the handle of that file
    when the call returns, with the same error, reported in two
    [console.error] lines, when it throws; it leaves the backend as the
    call left it. *)
Theorem uploadToStorageBucket_follows_save (bucket : Bucket)
    (buffer : Buffer) (destinationBlobName : string) (b : B) :
  let save :=
    callWithRetry
      (call (bucket_file_save (storage context) (bucket_name bucket)
               destinationBlobName buffer))
      ("storage.bucket.file.save " +++ destinationBlobName) b in
  let r := uploadToStorageBucket context bucket buffer destinationBlobName
             cb b in
  backend r = backend save /\
  outcome r =
    match outcome save with
    | Returned _ =>
        Returned {| file_bucket := bucket_name bucket;
                    file_name := destinationBlobName |}
    | Thrown e => Thrown e
    | Pending => Pending
    end /\
  reported_errors (events r) =
    match outcome save with
    | Thrown e =>
        ["Error uploading buffer:"%string;
         "Error uploading buffer: " +++ show_message e]
    | _ => []
    end.
Proof.
  intros save r. subst r. unfold uploadToStorageBucket.
  assert (Hquiet : reported_errors (events save) = [])
    by apply reported_errors_quiet, callWithRetry_call_quiet.
  assert (Hs : callWithRetry
                 (call (bucket_file_save (storage context)
                          (bucket_name bucket) destinationBlobName buffer))
                 ("storage.bucket.file.save " +++ destinationBlobName) b =
               save) by reflexivity.
  clearbody save. destruct save as [[[[]|e|] b1] t1];
    unfold events in Hquiet; cbn [snd] in Hquiet.
  - erewrite try_catch_returned
      by (rewrite bind_logAndProgress, (bind_returned _ _ _ _ _ _ Hs),
            bind_logAndProgress; cbn [ret prepend]; reflexivity).
    unfold outcome, backend, events. cbn [fst snd]. repeat split.
    now rewrite !reported_errors_app, Hquiet, !reported_errors_log_events.
  - erewrite try_catch_thrown
      by (rewrite bind_logAndProgress, (bind_thrown _ _ _ _ _ _ Hs);
          cbn [prepend]; reflexivity).
    cbv zeta. rewrite bind_console, bind_logAndProgress. unfold throw.
    cbn [prepend]. unfold outcome, backend, events. cbn [fst snd].
    repeat split.
    rewrite !reported_errors_app, Hquiet, !reported_errors_log_events.
    reflexivity.
  - erewrite try_catch_pending
      by (rewrite bind_logAndProgress, (bind_pending _ _ _ _ _ Hs);
          cbn [prepend]; reflexivity).
    unfold outcome, backend, events. cbn [fst snd]. repeat split.
    now rewrite !reported_errors_app, Hquiet, !reported_errors_log_events.
Qed.

End StoreRuns.

(** ** The entry points *)

Section StageFacts.

Context {B : Type}.

Import Helpers CloudBuild Archive Deployer Registry Storage.

Lemma ensureApisEnabled_each_no_run_call (context : Context B)
    (projectId : string) (cb : bool) (apis : list string) :
  emits_only not_run_call (ensureApisEnabled_each context projectId apis cb).
Proof.
  induction apis as [|api rest IH]; cbn [ensureApisEnabled_each].
  - auto with emission.
  - cbv zeta. unfold checkAndEnableApi. auto 30 with emission.
Qed.

Lemma ensureApisEnabled_no_run_call (context : Context B)
    (projectId : string) (apis : list string) (cb : bool) :
  emits_only not_run_call (ensureApisEnabled context projectId apis cb).
Proof.
  unfold ensureApisEnabled. cbv zeta.
  pose proof (ensureApisEnabled_each_no_run_call context projectId cb apis).
  auto 30 with emission.
Qed.

Lemma pollBuild_no_run_call (context : Context B) (projectId buildId : string)
    (cb : bool) (fuel : nat) :
  emits_only not_run_call (pollBuild fuel context projectId buildId cb).
Proof.
  induction fuel as [|fuel IH]; cbn [pollBuild]; auto 30 with emission.
Qed.

Lemma triggerCloudBuild_no_run_call (fuel : nat) (context : Context B)
    (projectId location bucket blob repo image : string)
    (hasDockerfile cb : bool) :
  emits_only not_run_call
    (triggerCloudBuild fuel context projectId location bucket blob repo image
       hasDockerfile cb).
Proof.
  unfold triggerCloudBuild, fetchBuildLogsSnippet, first_image_name.
  cbv zeta.
  pose proof (pollBuild_no_run_call context projectId).
  auto 40 with emission.
Qed.

Lemma zipFiles_no_run_call (node : Node) (files : list FileItem) (cb : bool) :
  emits_only not_run_call (@zipFiles B node files cb).
Proof. unfold zipFiles. auto 30 with emission. Qed.

Lemma ensureStorageBucketExists_no_run_call (context : DeployContext B)
    (bucketName : string) (location : option string) (cb : bool) :
  emits_only not_run_call
    (ensureStorageBucketExists context bucketName location cb).
Proof. unfold ensureStorageBucketExists. cbv zeta. auto 30 with emission. Qed.

Lemma uploadToStorageBucket_no_run_call (context : DeployContext B)
    (bucket : Bucket) (buffer : Buffer) (blob : string) (cb : bool) :
  emits_only not_run_call
    (uploadToStorageBucket context bucket buffer blob cb).
Proof. unfold uploadToStorageBucket. cbv zeta. auto 30 with emission. Qed.

Lemma ensureArtifactRegistryRepoExists_no_run_call
    (context : DeployContext B) (projectId location repositoryId : string)
    (format : option string) (cb : bool) :
  emits_only not_run_call
    (ensureArtifactRegistryRepoExists context projectId location repositoryId
       format cb).
Proof.
  unfold ensureArtifactRegistryRepoExists. cbv zeta. auto 30 with emission.
Qed.

End StageFacts.

Section GuardFacts.

Context {B : Type}.
Variable test : Event -> bool.

Lemma quiet_prefix (q rest t1 t2 : list Event) (ev : Event) :
  forallb not_run_call q = true -> is_run_call ev = true ->
  q ++ rest = t1 ++ ev :: t2 ->
  exists t1', t1 = q ++ t1' /\ rest = t1' ++ ev :: t2.
Proof.
  intros Hq Hev. revert t1.
  induction q as [|x q IH]; intros t1 E.
  - exists t1. split; [reflexivity | exact E].
  - cbn [forallb] in Hq. apply andb_prop in Hq as [Hx Hq].
    destruct t1 as [|y t1]; cbn [app] in E; injection E as -> E.
    + unfold not_run_call in Hx. rewrite Hev in Hx. discriminate Hx.
    + destruct (IH Hq t1 E) as (t1' & -> & Hrest).
      exists t1'. split; [reflexivity | exact Hrest].
Qed.

Lemma quiet_suffix (tm th t1 t2 : list Event) (ev : Event) :
  forallb not_run_call th = true -> is_run_call ev = true ->
  tm ++ th = t1 ++ ev :: t2 ->
  exists t2', tm = t1 ++ ev :: t2'.
Proof.
  intros Hh Hev. revert t1.
  induction tm as [|x tm IH]; intros t1 E.
  - cbn [app] in E. rewrite E, forallb_app in Hh.
    apply andb_prop in Hh as [_ Hh]. cbn [forallb] in Hh.
    unfold not_run_call in Hh. rewrite Hev in Hh. discriminate Hh.
  - destruct t1 as [|y t1]; cbn [app] in E; injection E as -> E.
    + exists tm. reflexivity.
    + destruct (IH t1 E) as (t2' & ->). exists t2'. reflexivity.
Qed.

Lemma run_calls_follow_quiet {A} (m : M B A) :
  emits_only not_run_call m -> run_calls_follow test m.
Proof.
  intros Hm b t1 ev t2 E Hev. specialize (Hm b).
  rewrite E, forallb_app in Hm. apply andb_prop in Hm as [_ Hm].
  cbn [forallb] in Hm. unfold not_run_call in Hm. rewrite Hev in Hm.
  discriminate Hm.
Qed.

Lemma run_calls_follow_bind {A C} (m : M B A) (k : A -> M B C) :
  emits_only not_run_call m -> (forall a, run_calls_follow test (k a)) ->
  run_calls_follow test (bind m k).
Proof.
  intros Hm Hk b t1 ev t2 E Hev. specialize (Hm b). unfold bind in E.
  destruct (m b) as [[[a|e|] b1] tm]; unfold events in *; cbn [snd] in *.
  - specialize (Hk a b1). revert Hk E. unfold events.
    destruct (k a b1) as [[o2 b2] tk]. cbn [snd]. intros Hk E.
    destruct (quiet_prefix _ _ _ _ _ Hm Hev E) as (t1' & -> & Hrest).
    rewrite existsb_app. apply orb_true_intro. right.
    apply (Hk t1' ev t2 Hrest Hev).
  - rewrite E, forallb_app in Hm. apply andb_prop in Hm as [_ Hm].
    cbn [forallb] in Hm. unfold not_run_call in Hm. rewrite Hev in Hm.
    discriminate Hm.
  - rewrite E, forallb_app in Hm. apply andb_prop in Hm as [_ Hm].
    cbn [forallb] in Hm. unfold not_run_call in Hm. rewrite Hev in Hm.
    discriminate Hm.
Qed.

(** Once a quiet stage that passes the test on returning has returned,
    whatever follows is guarded. *)
Lemma run_calls_follow_passed {A C} (m : M B A) (k : A -> M B C) :
  emits_only not_run_call m ->
  (forall b a, outcome (m b) = Returned a ->
               existsb test (events (m b)) = true) ->
  run_calls_follow test (bind m k).
Proof.
  intros Hm Hpass b t1 ev t2 E Hev. specialize (Hm b).
  specialize (Hpass b). unfold bind in E.
  destruct (m b) as [[[a|e|] b1] tm]; unfold events, outcome in *;
    cbn [fst snd] in *.
  - revert E. destruct (k a b1) as [[o2 b2] tk]. cbn [snd]. intros E.
    destruct (quiet_prefix _ _ _ _ _ Hm Hev E) as (t1' & -> & _).
    rewrite existsb_app, (Hpass a eq_refl). reflexivity.
  - rewrite E, forallb_app in Hm. apply andb_prop in Hm as [_ Hm].
    cbn [forallb] in Hm. unfold not_run_call in Hm. rewrite Hev in Hm.
    discriminate Hm.
  - rewrite E, forallb_app in Hm. apply andb_prop in Hm as [_ Hm].
    cbn [forallb] in Hm. unfold not_run_call in Hm. rewrite Hev in Hm.
    discriminate Hm.
Qed.

Lemma run_calls_follow_try_catch {A} (m : M B A) (h : JsError -> M B A) :
  run_calls_follow test m -> (forall e, emits_only not_run_call (h e)) ->
  run_calls_follow test (try_catch m h).
Proof.
  intros Hm Hh b t1 ev t2 E Hev. specialize (Hm b). unfold try_catch in E.
  destruct (m b) as [[[a|e|] b1] tm]; unfold events in *; cbn [snd] in *;
    try (apply (Hm t1 ev t2 E Hev)).
  specialize (Hh e b1). revert Hh E. unfold events.
  destruct (h e b1) as [[o2 b2] th]. cbn [snd]. intros Hh E.
  destruct (quiet_suffix _ _ _ _ _ Hh Hev E) as (t2' & ->).
  apply (Hm t1 ev t2' eq_refl Hev).
Qed.

End GuardFacts.

Section ReturnFacts.

Context {B : Type}.

Import Helpers CloudBuild.

Lemma bind_returned_run {A C} (m : M B A) (k : A -> M B C) (b : B) (c : C) :
  outcome (bind m k b) = Returned c ->
  exists a b1 t1,
    m b = (Returned a, b1, t1) /\ bind m k b = prepend t1 (k a b1).
Proof.
  intros H. destruct (m b) as [[[a|e|] b1] t1] eqn:Hm.
  - exists a, b1, t1. split; [reflexivity|]. now apply bind_returned.
  - rewrite (bind_thrown _ _ _ _ _ _ Hm) in H. discriminate H.
  - rewrite (bind_pending _ _ _ _ _ Hm) in H. discriminate H.
Qed.

Lemma try_catch_returned_inv {A} (m : M B A) (h : JsError -> M B A) (b : B)
    (a : A) :
  (forall e b1, outcome (h e b1) <> Returned a) ->
  outcome (try_catch m h b) = Returned a ->
  try_catch m h b = m b /\ outcome (m b) = Returned a.
Proof.
  intros Hh H. destruct (m b) as [[[a'|e|] b1] t1] eqn:Hm.
  - rewrite (try_catch_returned _ _ _ _ _ _ Hm) in *. now split.
  - rewrite (try_catch_thrown _ _ _ _ _ _ Hm), outcome_prepend in H.
    now apply Hh in H.
  - rewrite (try_catch_pending _ _ _ _ _ Hm) in H. discriminate H.
Qed.

(** A wrapped call that returned was logged as returning. *)
Lemma callWithRetry_invoke_returned {A} (log : Outcome A -> Event)
    (method : B -> Outcome A * B) (d : string) (b : B) (a : A) :
  outcome (callWithRetry (invoke log method) d b) = Returned a ->
  In (log (Returned a)) (events (callWithRetry (invoke log method) d b)).
Proof.
  destruct (callWithRetry_loop_shape (invoke log method) d 7 (le_n 7) b)
    as (k & es & _ & _ & _ & _ & Hrun & _).
  unfold callWithRetry. change (S (Z.to_nat maxRetries)) with 8%nat.
  change (7 - Z.of_nat 7) with 0 in Hrun. rewrite Hrun.
  set (last := invoke log method (after (invoke log method) b k)).
  assert (Hlast : events last = [log (outcome last)]).
  { subst last. generalize (after (invoke log method) b k). intros b0.
    unfold invoke, events, outcome. now destruct (method b0) as [r b']. }
  intros H. change (outcome last = Returned a) in H.
  change (In (log (Returned a))
            (retry_events d 0 (map snd (attempts (invoke log method) b k)) ++
             events last)).
  rewrite Hlast, H. apply in_or_app. right. now left.
Qed.

Lemma pollBuild_returned_event (context : Context B)
    (projectId buildId : string) (cb : bool) (fuel : nat) :
  forall (b : B) (record : Build),
    outcome (pollBuild fuel context projectId buildId cb b) =
      Returned record ->
    In (GetBuildCall projectId buildId (Returned record))
       (events (pollBuild fuel context projectId buildId cb b)).
Proof.
  induction fuel as [|fuel IH]; intros b record Hret.
  - discriminate Hret.
  - cbn [pollBuild] in *.
    destruct (bind_returned_run _ _ _ _ Hret) as (r0 & b1 & t1 & Hget & E).
    rewrite E in *. rewrite outcome_prepend in Hret. rewrite events_prepend.
    apply in_or_app.
    destruct (array_includes terminal_statuses (status r0)).
    + left. unfold ret, outcome in Hret. cbn [fst] in Hret.
      injection Hret as <-.
      replace t1
        with (events
                (callWithRetry
                   (invoke (GetBuildCall projectId buildId)
                      (cloudBuild_getBuild context projectId buildId))
                   ("cloudBuild.getBuild " +++ buildId) b))
        by now rewrite Hget.
      apply callWithRetry_invoke_returned. now rewrite Hget.
    + right. rewrite bind_logAndProgress, bind_sleep, prepend_prepend in *.
      rewrite outcome_prepend in Hret. rewrite events_prepend.
      apply in_or_app. right. now apply IH.
Qed.

(** What [triggerCloudBuild] returns is a SUCCESS record naming an image,
    and the [getBuild] call that returned it is in the trace. *)
Lemma triggerCloudBuild_returned_record (fuel : nat) (context : Context B)
    (projectId location bucket blob repo image : string)
    (hasDockerfile cb : bool) (b : B) (record : Build) :
  outcome (triggerCloudBuild fuel context projectId location bucket blob repo
             image hasDockerfile cb b) = Returned record ->
  status record = "SUCCESS"%string /\
  (exists name more, results_images record = Some (name :: more)) /\
  exists buildId,
    In (GetBuildCall projectId buildId (Returned record))
       (events (triggerCloudBuild fuel context projectId location bucket blob
                  repo image hasDockerfile cb b)).
Proof.
  unfold triggerCloudBuild. cbv zeta. intros Hret.
  rewrite bind_logAndProgress in *. rewrite outcome_prepend in Hret.
  destruct (bind_returned_run _ _ _ _ Hret) as (buildId & b1 & t1 & _ & E).
  rewrite E in *. clear E.
  rewrite bind_logAndProgress, prepend_prepend in *.
  rewrite outcome_prepend in Hret.
  destruct (bind_returned_run _ _ _ _ Hret)
    as (completed & b2 & t2 & Hpoll & E).
  rewrite E in *. clear E.
  rewrite outcome_prepend in Hret.
  assert (Hin : In (GetBuildCall projectId buildId (Returned completed)) t2).
  { replace t2
      with (events (pollBuild fuel context projectId buildId cb b1))
      by now rewrite Hpoll.
    apply pollBuild_returned_event. now rewrite Hpoll. }
  destruct (status completed =? "SUCCESS")%string eqn:Hstatus.
  - apply String.eqb_eq in Hstatus.
    rewrite bind_logAndProgress, outcome_prepend in Hret.
    destruct (bind_returned_run _ _ _ _ Hret) as (name & b3 & t3 & Hname & E).
    rewrite E, outcome_prepend, bind_logAndProgress, outcome_prepend in Hret.
    unfold ret, outcome in Hret. cbn [fst] in Hret. injection Hret as <-.
    split; [exact Hstatus|]. split.
    + unfold first_image_name in Hname.
      destruct (results_images completed) as [[|n more]|]; try discriminate.
      exists n, more. reflexivity.
    + exists buildId. rewrite !events_prepend. clear - Hin.
      repeat rewrite in_app_iff. tauto.
  - rewrite !bind_logAndProgress, !outcome_prepend in Hret.
    unfold bind in Hret.
    destruct (fetchBuildLogsSnippet context buildId completed cb b2)
      as [[[snippet|e|] b3] t3]; discriminate Hret.
Qed.

Lemma triggerCloudBuild_returned_succeeded (fuel : nat) (context : Context B)
    (projectId location bucket blob repo image : string)
    (hasDockerfile cb : bool) (b : B) (record : Build) :
  outcome (triggerCloudBuild fuel context projectId location bucket blob repo
             image hasDockerfile cb b) = Returned record ->
  existsb is_build_success
    (events (triggerCloudBuild fuel context projectId location bucket blob
               repo image hasDockerfile cb b)) = true.
Proof.
  intros Hret.
  destruct (triggerCloudBuild_returned_record _ _ _ _ _ _ _ _ _ _ _ _ Hret)
    as (Hstatus & _ & buildId & Hin).
  apply existsb_exists. eexists. split; [exact Hin|].
  cbn [is_build_success]. now rewrite Hstatus.
Qed.

Lemma ensureApisEnabled_returned_passed (context : Context B)
    (projectId : string) (apis : list string) (cb : bool) (b : B) (u : unit) :
  outcome (ensureApisEnabled context projectId apis cb b) = Returned u ->
  existsb is_gate_passed
    (events (ensureApisEnabled context projectId apis cb b)) = true.
Proof.
  unfold ensureApisEnabled. cbv zeta. intros Hret.
  rewrite bind_console, bind_progress, prepend_prepend in *.
  rewrite outcome_prepend in Hret.
  destruct (bind_returned_run _ _ _ _ Hret) as ([] & b1 & t1 & _ & E).
  rewrite E. rewrite bind_console, !events_prepend, !existsb_app.
  cbn [existsb is_gate_passed String.eqb Ascii.eqb Bool.eqb].
  now rewrite !orb_true_r.
Qed.

End ReturnFacts.

#[global] Hint Resolve ensureApisEnabled_no_run_call
  triggerCloudBuild_no_run_call zipFiles_no_run_call
  ensureStorageBucketExists_no_run_call uploadToStorageBucket_no_run_call
  ensureArtifactRegistryRepoExists_no_run_call : emission.

Section EntryRuns.

Context {B : Type}.
Variable node : Node.
Variable checkCloudRunServiceExists :
  Context B -> string -> string -> string -> bool -> M B bool.
Variable process_exit : bool.

Import Helpers CloudBuild Archive Deployer Registry Storage Entry.

Lemma deployment_failed_no_run_call {A} (cb : bool) (e : JsError) :
  emits_only not_run_call (@deployment_failed B A cb e).
Proof. unfold deployment_failed. cbv zeta. auto with emission. Qed.

Lemma deployment_failed_run {A} (cb : bool) (e : JsError) (b : B) :
  @deployment_failed B A cb e b =
  (Thrown e, b, deployment_failed_events cb e).
Proof.
  unfold deployment_failed, deployment_failed_events. cbv zeta.
  rewrite bind_console, bind_logAndProgress. unfold throw.
  cbn [prepend app]. now rewrite app_nil_r.
Qed.

(** X18. In a run of [deployImage], no [createService] or
    [updateService] call reaches the Cloud Run client, validate-only or
    not, and no operation of one is waited for, before the activation
    gate has written its closing line: a gate that fails, and a
    configuration that is refused, create, update and validate no
    service. This holds whatever the existence check does. *)
Theorem deployImage_calls_cloud_run_after_gate (context : Context B)
    (now : Z) (projectId serviceName : option string) (region : string)
    (imageUrl : option string) (cb skipIamCheck : bool) (b : B)
    (t1 t2 : list Event) (ev : Event) :
  events (deployImage checkCloudRunServiceExists process_exit context now
            projectId serviceName region imageUrl cb skipIamCheck b) =
    t1 ++ ev :: t2 ->
  is_run_call ev = true ->
  gate_passed t1 = true.
Proof.
  assert (H : run_calls_follow is_gate_passed
                (deployImage checkCloudRunServiceExists process_exit context
                   now projectId serviceName region imageUrl cb
                   skipIamCheck)).
  { unfold deployImage.
    destruct (provided projectId) as [p|];
      [|apply run_calls_follow_quiet; cbv zeta; auto with emission].
    destruct (provided serviceName) as [s|];
      [|apply run_calls_follow_quiet; cbv zeta; auto with emission].
    destruct (provided imageUrl) as [image|];
      [|apply run_calls_follow_quiet; cbv zeta; auto with emission].
    apply run_calls_follow_try_catch;
      [|intros e; apply deployment_failed_no_run_call].
    apply run_calls_follow_passed.
    - apply ensureApisEnabled_no_run_call.
    - intros b' u. apply ensureApisEnabled_returned_passed. }
  apply H.
Qed.

(** X19. In a run of [deploy], no [createService] or [updateService]
    call reaches the Cloud Run client, validate-only or not, and no
    operation of one is waited for, before a [getBuild] call has returned
    a record with status SUCCESS: when a stage before the build or the
    build itself fails, no service is created, updated or validated.
    This holds whatever the existence check does. *)
Theorem deploy_calls_cloud_run_after_build (fuel : nat)
    (context : DeployContext B) (now : Z)
    (projectId serviceName : option string) (region : string)
    (files : option (list FileItem)) (cb skipIamCheck : bool) (b : B)
    (t1 t2 : list Event) (ev : Event) :
  events (deploy node checkCloudRunServiceExists process_exit fuel context
            now projectId serviceName region files cb skipIamCheck b) =
    t1 ++ ev :: t2 ->
  is_run_call ev = true ->
  build_succeeded t1 = true.
Proof.
  assert (H : run_calls_follow is_build_success
                (deploy node checkCloudRunServiceExists process_exit fuel
                   context now projectId serviceName region files cb
                   skipIamCheck)).
  { unfold deploy.
    destruct (provided projectId) as [p|];
      [|apply run_calls_follow_quiet; cbv zeta; auto with emission].
    destruct (provided serviceName) as [s|];
      [|apply run_calls_follow_quiet; cbv zeta; auto with emission].
    destruct files as [[|f fs]|];
      try solve [apply run_calls_follow_quiet; cbv zeta;
                 auto with emission].
    apply run_calls_follow_try_catch;
      [|intros e; apply deployment_failed_no_run_call].
    cbv zeta.
    do 12 (apply run_calls_follow_bind; [auto with emission | intros ?]).
    apply run_calls_follow_passed.
    - auto with emission.
    - intros b' record. apply triggerCloudBuild_returned_succeeded. }
  apply H.
Qed.



(** X22. When [deploy] completes with a service, the configuration was
    complete, the build was requested for the image tag
    [<region>-docker.pkg.dev/<project>/mcp-cloud-run-deployments/<service>:latest]
    with the Dockerfile flag its detection computed, it returned a SUCCESS
    record, and the service is what [deployToCloudRun] returned for the
    first image name of that record, started on the backend as the build
    left it. *)
Theorem deploy_completed_from_built_image (fuel : nat)
    (context : DeployContext B) (now : Z)
    (projectId serviceName : option string) (region : string)
    (files : option (list FileItem)) (cb skipIamCheck : bool) (b : B)
    (service : ServiceRecord) :
  let r := deploy node checkCloudRunServiceExists process_exit fuel context
             now projectId serviceName region files cb skipIamCheck b in
  outcome r = Returned (Completed service) ->
  exists p s fs hasDockerfile record image more b0 t1,
    provided projectId = Some p /\ provided serviceName = Some s /\
    files = Some fs /\
    deploy_hasDockerfile node fs = Returned hasDockerfile /\
    let build :=
      triggerCloudBuild fuel (clients context) p region
        (p +++ "-source-bucket") "source.zip" "mcp-cloud-run-deployments"
        (region +++ "-docker.pkg.dev/" +++ p +++
         "/mcp-cloud-run-deployments/" +++ s +++ ":latest")
        hasDockerfile cb b0 in
    outcome build = Returned record /\
    status record = "SUCCESS"%string /\
    results_images record = Some (image :: more) /\
    deployToCloudRun checkCloudRunServiceExists (clients context) now p
      region s image cb skipIamCheck (backend build) =
    (Returned service, backend r, t1).
Proof.
  intros r Hret. subst r. unfold deploy in *.
  destruct (provided projectId) as [p|];
    [|cbv zeta in Hret; rewrite bind_logAndProgress in Hret;
      discriminate Hret].
  destruct (provided serviceName) as [s|];
    [|cbv zeta in Hret; rewrite bind_logAndProgress in Hret;
      discriminate Hret].
  destruct files as [[|f fs]|];
    try (cbv zeta in Hret; rewrite bind_logAndProgress in Hret;
         destruct process_exit; discriminate Hret).
  exists p, s, (f :: fs).
  destruct (try_catch_returned_inv _ _ _ _
              (fun e b1 H =>
                 eq_ind (outcome (deployment_failed cb e b1))
                   (fun o => match o with Returned _ => False | _ => True end)
                   ltac:(rewrite deployment_failed_run; exact I) _ H)
              Hret) as [E Hbody].
  rewrite E. clear E Hret. cbv zeta in *.
  destruct (bind_returned_run _ _ _ _ Hbody) as ([] & b1 & tg & _ & E).
  rewrite E in *. clear E. rewrite outcome_prepend in Hbody.
  rewrite backend_prepend.
  rewrite !bind_logAndProgress in *. rewrite !outcome_prepend in Hbody.
  rewrite !backend_prepend.
  destruct (bind_returned_run _ _ _ _ Hbody)
    as (hasDockerfile & b2 & t2 & Hdetect & E).
  rewrite E in *. clear E. rewrite outcome_prepend in Hbody.
  rewrite backend_prepend.
  rewrite bind_logAndProgress in *. rewrite outcome_prepend in Hbody.
  rewrite backend_prepend.
  destruct (bind_returned_run _ _ _ _ Hbody) as (bucket & b3 & t3 & _ & E).
  rewrite E in *. clear E. rewrite outcome_prepend in Hbody.
  rewrite backend_prepend.
  destruct (bind_returned_run _ _ _ _ Hbody) as (zipBuffer & b4 & t4 & _ & E).
  rewrite E in *. clear E. rewrite outcome_prepend in Hbody.
  rewrite backend_prepend.
  destruct (bind_returned_run _ _ _ _ Hbody) as (uploaded & b5 & t5 & _ & E).
  rewrite E in *. clear E. rewrite outcome_prepend in Hbody.
  rewrite backend_prepend.
  rewrite bind_logAndProgress in *. rewrite outcome_prepend in Hbody.
  rewrite backend_prepend.
  destruct (bind_returned_run _ _ _ _ Hbody) as (repo & b6 & t6 & _ & E).
  rewrite E in *. clear E. rewrite outcome_prepend in Hbody.
  rewrite backend_prepend.
  destruct (bind_returned_run _ _ _ _ Hbody)
    as (record & b7 & t7 & Hbuild & E).
  rewrite E in *. clear E. rewrite outcome_prepend in Hbody.
  rewrite backend_prepend.
  destruct (bind_returned_run _ _ _ _ Hbody)
    as (image & b8 & t8 & Hname & E).
  rewrite E in *. clear E. rewrite outcome_prepend in Hbody.
  rewrite backend_prepend.
  destruct (bind_returned_run _ _ _ _ Hbody)
    as (deployed & b9 & t9 & Hdeploy & E).
  rewrite E in *. clear E. rewrite outcome_prepend in Hbody.
  rewrite backend_prepend.
  rewrite bind_logAndProgress in *. rewrite outcome_prepend in Hbody.
  rewrite backend_prepend.
  unfold ret, outcome, backend in Hbody |- *. cbn [fst snd] in Hbody |- *.
  injection Hbody as ->.
  assert (Hd : deploy_hasDockerfile node (f :: fs) = Returned hasDockerfile)
    by exact (f_equal (fun x => fst (fst x)) Hdetect).
  clear Hdetect.
  assert (Hrecord :
            outcome
              (triggerCloudBuild fuel (clients context) p region
                 (p +++ "-source-bucket") "source.zip"
                 "mcp-cloud-run-deployments"
                 (region +++ "-docker.pkg.dev/" +++ p +++
                  "/mcp-cloud-run-deployments/" +++ s +++ ":latest")
                 hasDockerfile cb b6) = Returned record).
  { unfold outcome. exact (f_equal (fun x => fst (fst x)) Hbuild). }
  destruct (triggerCloudBuild_returned_record _ _ _ _ _ _ _ _ _ _ _ _ Hrecord)
    as (Hstatus & (name & more & Himages) & _).
  unfold first_image_name in Hname. rewrite Himages in Hname.
  unfold ret in Hname. injection Hname as -> -> _.
  exists hasDockerfile, record, image, more, b6, t9.
  repeat split; try assumption.
  assert (Hb : snd (fst
                 (triggerCloudBuild fuel (clients context) p region
                    (p +++ "-source-bucket") "source.zip"
                    "mcp-cloud-run-deployments"
                    (region +++ "-docker.pkg.dev/" +++ p +++
                     "/mcp-cloud-run-deployments/" +++ s +++ ":latest")
                    hasDockerfile cb b6)) = b8)
    by exact (f_equal (fun x => snd (fst x)) Hbuild).
  rewrite Hb. exact Hdeploy.
Qed.

(** X23. When [deployImage] completes with a service, the configuration
    was complete, the gate returned for the one API [run.googleapis.com],
    and the service is what [deployToCloudRun] returned for the image URL
    as given, started on the backend as the gate left it. *)
Theorem deployImage_completed_from_given_image (context : Context B)
    (now : Z) (projectId serviceName : option string) (region : string)
    (imageUrl : option string) (cb skipIamCheck : bool) (b : B)
    (service : ServiceRecord) :
  let r := deployImage checkCloudRunServiceExists process_exit context now
             projectId serviceName region imageUrl cb skipIamCheck b in
  outcome r = Returned (Completed service) ->
  exists p s image t1,
    provided projectId = Some p /\ provided serviceName = Some s /\
    provided imageUrl = Some image /\
    let gate :=
      ensureApisEnabled context p ["run.googleapis.com"%string] cb b in
    outcome gate = Returned tt /\
    deployToCloudRun checkCloudRunServiceExists context now p region s image
      cb skipIamCheck (backend gate) =
    (Returned service, backend r, t1).
Proof.
  intros r Hret. subst r. unfold deployImage in *.
  destruct (provided projectId) as [p|];
    [|cbv zeta in Hret; rewrite bind_logAndProgress in Hret;
      discriminate Hret].
  destruct (provided serviceName) as [s|];
    [|cbv zeta in Hret; rewrite bind_logAndProgress in Hret;
      discriminate Hret].
  destruct (provided imageUrl) as [image|];
    [|cbv zeta in Hret; rewrite bind_logAndProgress in Hret;
      destruct process_exit; discriminate Hret].
  exists p, s, image.
  destruct (try_catch_returned_inv _ _ _ _
              (fun e b1 H =>
                 eq_ind (outcome (deployment_failed cb e b1))
                   (fun o => match o with Returned _ => False | _ => True end)
                   ltac:(rewrite deployment_failed_run; exact I) _ H)
              Hret) as [E Hbody].
  rewrite E. clear E Hret. cbv zeta in *.
  destruct (bind_returned_run _ _ _ _ Hbody) as ([] & b1 & tg & Hgate & E).
  rewrite E in *. clear E. rewrite outcome_prepend in Hbody.
  rewrite backend_prepend.
  rewrite !bind_logAndProgress in *. rewrite !outcome_prepend in Hbody.
  rewrite !backend_prepend.
  destruct (bind_returned_run _ _ _ _ Hbody)
    as (deployed & b2 & t2 & Hdeploy & E).
  rewrite E in *. clear E. rewrite outcome_prepend in Hbody.
  rewrite backend_prepend.
  rewrite bind_logAndProgress in *. rewrite outcome_prepend in Hbody.
  rewrite backend_prepend.
  unfold ret, outcome, backend in Hbody |- *. cbn [fst snd] in Hbody |- *.
  injection Hbody as ->.
  exists t2. repeat split.
  - exact (f_equal (fun x => fst (fst x)) Hgate).
  - assert (Hb : snd (fst (ensureApisEnabled context p
                             ["run.googleapis.com"%string] cb b)) = b1)
      by exact (f_equal (fun x => snd (fst x)) Hgate).
    rewrite Hb. exact Hdeploy.
Qed.

(** X24. Once [deploy] has accepted the configuration, an error thrown
    by any stage leaves it unchanged, and the run ends with the
    [console.error] line "Deployment Failed" and the error-severity
    message "Deployment Failed: " followed by the message of that
    error. *)
Theorem deploy_failure_is_reported (fuel : nat) (context : DeployContext B)
    (now : Z) (p s region : string) (f : FileItem) (fs : list FileItem)
    (cb skipIamCheck : bool) (b : B) (e : JsError) :
  truthy p = true -> truthy s = true ->
  let r := deploy node checkCloudRunServiceExists process_exit fuel context
             now (Some p) (Some s) region (Some (f :: fs)) cb skipIamCheck
             b in
  outcome r = Thrown e ->
  exists before,
    events r =
      before ++
      Console console_error "Deployment Failed" ::
      log_events ("Deployment Failed: " +++ show_message e) cb lvl_error.
Proof.
  intros Hp Hs r. subst r. unfold deploy, provided. rewrite Hp, Hs.
  match goal with |- context [try_catch ?m ?h b] => set (body := m) end.
  unfold try_catch. destruct (body b) as [[[a|e1|] b1] t1]; try discriminate.
  rewrite deployment_failed_run. unfold outcome, events. cbn [fst snd].
  intros H. injection H as <-. exists t1. reflexivity.
Qed.

End EntryRuns.

(** ** The tool handlers *)

Section LogToolRuns.

Context {B Options : Type}.
Variable getServiceLogs :
  string -> string -> string -> option Options -> M B (LogPage Options).
Variables project region service : string.

Import Tools.

Lemma get_service_log_pages_run (pages : list (LogPage Options)) :
  forall (fuel : nat) (options : option Options) (b : B)
         (allLogs : list string),
    fetched_pages (getServiceLogs project region service) options b pages ->
    (length pages <= fuel)%nat ->
    outcome (get_service_log_pages getServiceLogs fuel project region service
               options allLogs b) =
    Returned (allLogs ++ kept_logs pages).
Proof.
  induction pages as [|page rest IH]; intros fuel options b allLogs Hp Hfuel.
  - contradiction.
  - destruct fuel as [|fuel]; [cbn [length] in Hfuel; lia|].
    cbn [length] in Hfuel. apply le_S_n in Hfuel.
    cbn [fetched_pages] in Hp. destruct Hp as [Hfetch Hrest].
    cbn [get_service_log_pages].
    destruct (getServiceLogs project region service options b)
      as [[o b1] t1] eqn:Hrun.
    unfold outcome in Hfetch. cbn [fst] in Hfetch. subst o.
    rewrite (bind_returned _ _ _ _ _ _ Hrun), outcome_prepend. cbv zeta.
    change (kept_logs (page :: rest))
      with (match logs page with
            | Some text => if truthy text then [text] else []
            | None => []
            end ++ kept_logs rest).
    rewrite app_assoc.
    assert (Hacc : match logs page with
                   | Some text =>
                       if truthy text then allLogs ++ [text] else allLogs
                   | None => allLogs
                   end =
                   allLogs ++
                   match logs page with
                   | Some text => if truthy text then [text] else []
                   | None => []
                   end).
    { destruct (logs page) as [text|]; [destruct (truthy text)|];
        now rewrite ?app_nil_r. }
    rewrite Hacc.
    destruct rest as [|page' rest].
    + rewrite Hrest. cbn [kept_logs flat_map]. now rewrite app_nil_r.
    + destruct Hrest as [Hmore Hrest].
      destruct (requestOptions page) as [next|] eqn:Hnext;
        [|now contradiction Hmore].
      unfold backend in Hrest. cbn [fst snd] in Hrest.
      apply IH; assumption.
Qed.



End LogToolRuns.

Section DeployToolRuns.

Context {B : Type}.
Variable node : Node.
Variable checkCloudRunServiceExists :
  Context B -> string -> string -> string -> bool -> M B bool.
Variable process_exit : bool.
Variable error_toString : JsError -> string.

Import Helpers CloudBuild Archive Deployer Registry Storage Entry Tools.

(** With a files array that is not empty, [deploy] returns with a
    deployed service only: it does not end the process. *)
Lemma deploy_returns_completed (fuel : nat) (context : DeployContext B)
    (now : Z) (projectId serviceName : option string) (region : string)
    (f : FileItem) (fs : list FileItem) (cb skipIamCheck : bool) (b : B)
    (c : Completion ServiceRecord) :
  outcome (deploy node checkCloudRunServiceExists process_exit fuel context
             now projectId serviceName region (Some (f :: fs)) cb
             skipIamCheck b) = Returned c ->
  exists service, c = Completed service.
Proof.
  unfold deploy. intros Hret.
  destruct (provided projectId) as [p|];
    [|cbv zeta in Hret; rewrite bind_logAndProgress in Hret;
      discriminate Hret].
  destruct (provided serviceName) as [s|];
    [|cbv zeta in Hret; rewrite bind_logAndProgress in Hret;
      discriminate Hret].
  destruct (try_catch_returned_inv _ _ _ _
              (fun e b1 H =>
                 eq_ind (outcome (deployment_failed cb e b1))
                   (fun o => match o with Returned _ => False | _ => True end)
                   ltac:(rewrite deployment_failed_run; exact I) _ H)
              Hret) as [_ Hbody].
  clear Hret. cbv zeta in Hbody.
  do 16 (apply bind_returned_inv in Hbody as (? & ? & ? & _ & Hbody)).
  unfold ret, outcome in Hbody. cbn [fst] in Hbody.
  injection Hbody as <-. eexists. reflexivity.
Qed.


Lemma zipFiles_forEach_appended (files : list FileItem) :
  forallb file_object files = true ->
  validate_file_contents files = Returned tt ->
  forall archive,
    zipFiles_forEach node files archive =
    Returned (archive ++ map appended files).
Proof.
  induction files as [|file files IH]; intros Hschema Hvalid archive.
  - cbn. now rewrite app_nil_r.
  - cbn [forallb] in Hschema. apply andb_prop in Hschema as [Hfile Hschema].
    destruct file as [|[name|] [text|]| | | |]; try discriminate Hfile;
      cbn [validate_file_contents get_property property String.eqb
           Ascii.eqb Bool.eqb] in Hvalid; [|discriminate Hvalid].
    destruct (truthy text); cbn [negb] in Hvalid; [|discriminate Hvalid].
    cbn [zipFiles_forEach map]. unfold zipFiles_item, is_file_object.
    cbn [typeof String.eqb Ascii.eqb Bool.eqb js_in is_some].
    rewrite (IH Hschema Hvalid), <- app_assoc. reflexivity.
Qed.

(** X28. The files the [deploy_file_contents] handler lets through all
    take the content branch of the packager: for a files array of objects
    with a [filename], as its input schema admits, that passes the
    handler's content check, the loop of [zipFiles] hands every file to
    [archive.append], its non-empty content under its [filename], in
    order, and throws for none: no such item reaches the path branch or
    the "Invalid file format" error. When [zipFiles] returns, these are
    the entries of the archive. What the archiver makes of the names (it
    refuses an empty one) is not part of the statement. *)
Theorem deploy_file_contents_files_are_packaged (files : list FileItem)
    (cb : bool) (b : B) :
  forallb file_object files = true ->
  validate_file_contents files = Returned tt ->
  zipFiles_forEach node files [] = Returned (map appended files) /\
  Forall (fun entry =>
            exists name text,
              entry = Append (Some text) (Some name) /\ truthy text = true)
         (map appended files) /\
  (forall archive,
      outcome (zipFiles node files cb b) = Returned archive ->
      archive = map appended files).
Proof.
  intros Hschema Hvalid. split; [|split].
  - exact (zipFiles_forEach_appended files Hschema Hvalid []).
  - clear b cb. induction files as [|file files IH]; [constructor|].
    cbn [forallb] in Hschema. apply andb_prop in Hschema as [Hfile Hschema].
    destruct file as [|[name|] [text|]| | | |]; try discriminate Hfile;
      cbn [validate_file_contents get_property property String.eqb
           Ascii.eqb Bool.eqb] in Hvalid; [|discriminate Hvalid].
    destruct (truthy text) eqn:Htext; cbn [negb] in Hvalid;
      [|discriminate Hvalid].
    cbn [map]. constructor; [|exact (IH Hschema Hvalid)].
    exists name, text. split; [reflexivity | exact Htext].
  - intros archive. unfold zipFiles.
    rewrite bind_logAndProgress, outcome_prepend.
    rewrite (zipFiles_forEach_appended files Hschema Hvalid []).
    cbn [app]. rewrite bind_logAndProgress, outcome_prepend.
    unfold ret, outcome. cbn [fst]. intros H. now injection H as <-.
Qed.

End DeployToolRuns.

(** ** The pipeline on an in-memory project *)

Lemma ensureArtifactRegistryRepoExists_failure_report_witness :
  reported_errors
    (events
       (Registry.ensureArtifactRegistryRepoExists
          (cloud_without_bucket_creation unavailable) "p" "r" "repo" None
          true empty_cloud)) =
  ["Error checking/creating repository repo:"%string;
   "Error checking/creating repository repo: 14 UNAVAILABLE"%string] /\
  reported_errors
    (events
       (Registry.ensureArtifactRegistryRepoExists
          (cloud_without_repository_creation unavailable) "p" "r" "repo"
          None true empty_cloud)) = [].
Proof.
  split.
  - destruct (ensureArtifactRegistryRepoExists_failure_report
                (cloud_without_bucket_creation unavailable) true "p" "r"
                "repo" None empty_cloud unavailable eq_refl)
      as [(_ & _ & _ & H) | (notFound & H1 & H2 & _)].
    + exact H.
    + cbv in H1. injection H1 as <-. discriminate H2.
  - destruct (ensureArtifactRegistryRepoExists_failure_report
                (cloud_without_repository_creation unavailable) true "p" "r"
                "repo" None empty_cloud unavailable eq_refl)
      as [(H1 & _) | (notFound & _ & _ & H & _)].
    + cbv in H1. discriminate H1.
    + exact H.
Defined.

Lemma ensureArtifactRegistryRepoExists_found_or_created_witness :
  reported_errors
    (events
       (Registry.ensureArtifactRegistryRepoExists (cloud_context "img") "p"
          "r" "repo" None false empty_cloud)) = [].
Proof.
  exact (proj1
           (ensureArtifactRegistryRepoExists_found_or_created
              (cloud_context "img") false "p" "r" "repo" None empty_cloud
              {| repo_name := "projects/p/locations/r/repositories/repo" |}
              eq_refl)).
Defined.

Lemma ensureStorageBucketExists_failure_report_witness :
  reported_errors
    (events
       (Storage.ensureStorageBucketExists
          (cloud_without_bucket_creation unavailable) "p-source-bucket"
          (Some "r"%string) false empty_cloud)) =
  ["Failed to create storage bucket p-source-bucket. Error details:"%string;
   "Failed to create storage bucket p-source-bucket. Error details: 14 UNAVAILABLE"%string;
   "Error checking/creating bucket p-source-bucket:"%string;
   "Error checking/creating bucket p-source-bucket: 14 UNAVAILABLE"%string].
Proof.
  destruct (ensureStorageBucketExists_failure_report
              (cloud_without_bucket_creation unavailable) false
              "p-source-bucket" (Some "r"%string) empty_cloud unavailable
              eq_refl)
    as [(H1 & _ & _) | (_ & _ & _ & H)].
  - cbv in H1. discriminate H1.
  - exact H.
Defined.

Lemma ensureStorageBucketExists_found_or_created_witness :
  cloud_buckets
    (backend
       (Storage.ensureStorageBucketExists (cloud_context "img")
          "p-source-bucket" None false empty_cloud)) =
  ["p-source-bucket"%string].
Proof.
  destruct (ensureStorageBucketExists_found_or_created (cloud_context "img")
              false "p-source-bucket" None empty_cloud
              {| bucket_name := "p-source-bucket" |} eq_refl)
    as [(H1 & _) | (_ & _ & H)].
  - cbv in H1. discriminate H1.
  - exact (f_equal cloud_buckets H).
Defined.

Lemma deployImage_calls_cloud_run_after_gate_witness :
  gate_passed
    (firstn 8
       (events
          (Entry.deployImage absent false (cloud_clients "img")
             1700000000000 (Some "p"%string) (Some "s"%string) "r"
             (Some "gcr.io/cloudrun/hello"%string) false false
             empty_cloud))) = true.
Proof.
  apply (deployImage_calls_cloud_run_after_gate absent false
           (cloud_clients "img") 1700000000000 (Some "p"%string)
           (Some "s"%string) "r" (Some "gcr.io/cloudrun/hello"%string) false
           false empty_cloud
           (firstn 8
              (events
                 (Entry.deployImage absent false (cloud_clients "img")
                    1700000000000 (Some "p"%string) (Some "s"%string) "r"
                    (Some "gcr.io/cloudrun/hello"%string) false false
                    empty_cloud)))
           (skipn 9
              (events
                 (Entry.deployImage absent false (cloud_clients "img")
                    1700000000000 (Some "p"%string) (Some "s"%string) "r"
                    (Some "gcr.io/cloudrun/hello"%string) false false
                    empty_cloud)))
           (CreateServiceCall "projects/p/locations/r"
              (initial_service "s" 1700000000000 "gcr.io/cloudrun/hello"
                 false)
              "s" true (Returned tt)));
    reflexivity.
Defined.

Lemma deploy_calls_cloud_run_after_build_witness :
  build_succeeded
    (firstn 29
       (events
          (Entry.deploy (posix_node [] []) absent false 1
             (cloud_context sample_image) 1700000000000 (Some "p"%string)
             (Some "s"%string) "r" (Some sample_files) false false
             empty_cloud))) = true.
Proof.
  apply (deploy_calls_cloud_run_after_build (posix_node [] []) absent false 1
           (cloud_context sample_image) 1700000000000 (Some "p"%string)
           (Some "s"%string) "r" (Some sample_files) false false empty_cloud
           (firstn 29
              (events
                 (Entry.deploy (posix_node [] []) absent false 1
                    (cloud_context sample_image) 1700000000000
                    (Some "p"%string) (Some "s"%string) "r"
                    (Some sample_files) false false empty_cloud)))
           (skipn 30
              (events
                 (Entry.deploy (posix_node [] []) absent false 1
                    (cloud_context sample_image) 1700000000000
                    (Some "p"%string) (Some "s"%string) "r"
                    (Some sample_files) false false empty_cloud)))
           (CreateServiceCall "projects/p/locations/r"
              (initial_service "s" 1700000000000 sample_image false)
              "s" true (Returned tt)));
    reflexivity.
Defined.



Lemma deploy_completed_from_built_image_witness :
  exists record image more,
    status record = "SUCCESS"%string /\
    results_images record = Some (image :: more).
Proof.
  destruct (deploy_completed_from_built_image (posix_node [] []) absent false
              1 (cloud_context sample_image) 1700000000000 (Some "p"%string)
              (Some "s"%string) "r" (Some sample_files) false false
              empty_cloud {| uri := "https://s.example.run.app" |} eq_refl)
    as (p & s & fs & hasDockerfile & record & image & more & b0 & t1 &
        _ & _ & _ & _ & _ & Hstatus & Himages & _).
  exists record, image, more. split; [exact Hstatus | exact Himages].
Defined.

Lemma deployImage_completed_from_given_image_witness :
  exists p s image,
    provided (Some "p"%string) = Some p /\
    provided (Some "s"%string) = Some s /\
    provided (Some "gcr.io/cloudrun/hello"%string) = Some image.
Proof.
  destruct (deployImage_completed_from_given_image absent false
              (cloud_clients "img") 1700000000000 (Some "p"%string)
              (Some "s"%string) "r" (Some "gcr.io/cloudrun/hello"%string)
              false false empty_cloud
              {| uri := "https://s.example.run.app" |} eq_refl)
    as (p & s & image & t1 & Hp & Hs & Himage & _).
  exists p, s, image. split; [exact Hp|]. split; [exact Hs | exact Himage].
Defined.

Lemma deploy_failure_is_reported_witness :
  exists before,
    events
      (Entry.deploy (posix_node [] []) absent false 1
         (cloud_without_bucket_creation unavailable) 1700000000000
         (Some "p"%string) (Some "s"%string) "r" (Some sample_files) false
         false empty_cloud) =
    before ++
    [Console console_error "Deployment Failed";
     Console console_error "Deployment Failed: 14 UNAVAILABLE"].
Proof.
  exact (deploy_failure_is_reported (posix_node [] []) absent false 1
           (cloud_without_bucket_creation unavailable) 1700000000000 "p" "s"
           "r"
           (ItemObject (Some "Dockerfile"%string)
              (Some "FROM scratch"%string))
           [] false false empty_cloud unavailable eq_refl eq_refl eq_refl).
Defined.




Lemma deploy_file_contents_files_are_packaged_witness :
  Archive.zipFiles_forEach (posix_node [] []) sample_files [] =
  Returned [Append (Some "FROM scratch"%string) (Some "Dockerfile"%string)].
Proof.
  exact (proj1
           (deploy_file_contents_files_are_packaged (posix_node [] [])
              sample_files false tt eq_refl eq_refl)).
Defined.
